(** * PrepWise: the HEB cart automation core ([prepwise/tools/heb_cart.py])

    A shallow embedding of the ingredient normalizer
    ([_clean_ingredient_for_search], [_get_search_suggestion]), of the
    per-item search engine ([_add_single_item]), of the orchestrator
    ([add_items_to_cart]) and of the session check ([check_session_status]),
    together with the data model of [prepwise/models/heb.py].

    Conventions.
    - A Python [str] is a [string]; a character is the code point of the same
      number, so the development covers the code points 0..255.  The
      classes [\d], [\s], [\w] and the [re.IGNORECASE] comparison are the
      restrictions of Python's Unicode tables to that range.
    - The browser is an oracle that answers every automation call from the
      history of the calls made so far; every awaited call either returns
      or raises an [Exception].  The two reads of the profile directory
      are calls of the same kind.  The program is written in a small monad
      that threads the call log and the raised exception.
    - A Python [float] is a binary64 of the Standard Library's
      specification of IEEE 754; [float(text)] rounds the decimal literal
      to the nearest one and overflows to the infinity. *)

From Stdlib Require Import Bool Arith NArith ZArith Lia List String Ascii.
From Stdlib Require Import DecimalString SpecFloat.
Import ListNotations.
Local Open Scope string_scope.
Local Open Scope nat_scope.

(* ================================================================== *)
(** * Characters *)
(* ================================================================== *)

Module Chr.

Definition code (c : ascii) : nat := nat_of_ascii c.

Definition between (lo hi : nat) (c : ascii) : bool :=
  (lo <=? code c) && (code c <=? hi).

(** [\d]: the decimal digits. *)
Definition is_digit (c : ascii) : bool := between 48 57 c.

(** [\s] and [str.isspace]: tab..carriage return, the four separators
    28..31, the space, NEL and the no-break space. *)
Definition is_space (c : ascii) : bool :=
  between 9 13 c || between 28 32 c || (code c =? 133) || (code c =? 160).

Definition is_upper (c : ascii) : bool := between 65 90 c.
Definition is_lower (c : ascii) : bool := between 97 122 c.

(** [\w]: alphanumeric code points and the underscore. *)
Definition is_word (c : ascii) : bool :=
  is_digit c || is_upper c || is_lower c || (code c =? 95)
  || (code c =? 170) || between 178 179 c || (code c =? 181)
  || between 185 186 c || between 188 190 c
  || between 192 214 c || between 216 246 c || between 248 255 c.

(** Lower-casing of the letters A..Z; the patterns of this program are
    written with lower-case letters, the space and the hyphen only. *)
Definition lower (c : ascii) : ascii :=
  if is_upper c then ascii_of_nat (code c + 32) else c.

(** Comparison of a pattern literal [p] with a subject character [c],
    with or without [re.IGNORECASE]. *)
Definition lit_eq (ignorecase : bool) (p c : ascii) : bool :=
  if ignorecase then Ascii.eqb (lower p) (lower c) else Ascii.eqb p c.

Definition word_opt (o : option ascii) : bool :=
  match o with Some c => is_word c | None => false end.

End Chr.

(* ================================================================== *)
(** * The string methods the program calls *)
(* ================================================================== *)

Module Str.

Definition hd (s : string) : option ascii :=
  match s with String c _ => Some c | EmptyString => None end.

Fixpoint take (n : nat) (s : string) : string :=
  match n, s with
  | S n', String c s' => String c (take n' s')
  | _, _ => EmptyString
  end.

Fixpoint mem (c : ascii) (chars : string) : bool :=
  match chars with
  | EmptyString => false
  | String x r => Ascii.eqb c x || mem c r
  end.

(** [s.lstrip(...)]: [p] says which characters are stripped. *)
Fixpoint lstrip_by (p : ascii -> bool) (s : string) : string :=
  match s with
  | String c s' => if p c then lstrip_by p s' else s
  | EmptyString => EmptyString
  end.

(** [s.rstrip(...)] *)
Fixpoint rstrip_by (p : ascii -> bool) (s : string) : string :=
  match s with
  | EmptyString => EmptyString
  | String c s' =>
      match rstrip_by p s' with
      | EmptyString => if p c then EmptyString else String c EmptyString
      | r => String c r
      end
  end.

(** [s.strip(chars)] *)
Definition strip (chars : string) (s : string) : string :=
  rstrip_by (fun c => mem c chars) (lstrip_by (fun c => mem c chars) s).

(** [s.strip()] *)
Definition strip_ws (s : string) : string :=
  rstrip_by Chr.is_space (lstrip_by Chr.is_space s).

(** [s.split()]: the maximal runs of non-whitespace characters.  [cur] is
    the word being read, in reverse. *)
Definition flush (cur : list ascii) (acc : list string) : list string :=
  match cur with
  | [] => acc
  | _ => string_of_list_ascii (rev cur) :: acc
  end.

Fixpoint split_go (s : string) (cur : list ascii) : list string :=
  match s with
  | EmptyString => flush cur []
  | String c s' =>
      if Chr.is_space c then flush cur (split_go s' [])
      else split_go s' (c :: cur)
  end.

Definition split (s : string) : list string := split_go s [].

(** [sep.join(words)] *)
Fixpoint join (sep : string) (words : list string) : string :=
  match words with
  | [] => EmptyString
  | [w] => w
  | w :: rest => w ++ sep ++ join sep rest
  end.

(** [xs[-n:]] for [n > 0]: the last [n] elements, all of them when the
    list is shorter. *)
Definition last_n {A} (n : nat) (xs : list A) : list A :=
  skipn (List.length xs - n) xs.

(** [needle in s] *)
Fixpoint contains (needle s : string) : bool :=
  prefix needle s ||
  match s with
  | EmptyString => false
  | String _ s' => contains needle s'
  end.

End Str.

(* ================================================================== *)
(** * The fragment of [re] the program uses *)
(* ================================================================== *)

Module Re.

(** Pattern syntax: literals, classes, concatenation, ordered
    alternation, greedy [?] on a sub-pattern, greedy [*] and [+] on a
    class, [\b], [^] and one capturing group. *)
Inductive regex : Type :=
| Eps
| Bol
| WordB
| Lit (c : ascii)
| Cls (p : ascii -> bool)
| Cat (r1 r2 : regex)
| Alt (r1 r2 : regex)
| Opt (r : regex)
| Star (p : ascii -> bool)
| Plus (p : ascii -> bool)
| Grp (r : regex).

(** The matcher state: the character before the cursor ([None] at the
    start of the subject), the text from the cursor on, and the text of
    group 1 when it has been closed. *)
Record mstate : Type := MState {
  prev : option ascii;
  rest : string;
  grp : option string
}.

Definition cont : Type := mstate -> option mstate.

Definition step (c : ascii) (s' : string) (st : mstate) : mstate :=
  MState (Some c) s' (grp st).

(** Greedy repetition of a class: take the character and go on; when the
    continuation fails further on, give the character back. *)
Fixpoint star_from (p : ascii -> bool) (s : string) (st : mstate) (k : cont)
  : option mstate :=
  match s with
  | String c s' =>
      if p c then
        match star_from p s' (step c s' st) k with
        | Some r => Some r
        | None => k st
        end
      else k st
  | EmptyString => k st
  end.

Definition star_m (p : ascii -> bool) (st : mstate) (k : cont) : option mstate :=
  star_from p (rest st) st k.

(** Backtracking matcher in continuation-passing style: [rmatch ic r st k]
    is the first success, in Python's priority order, of [r] at [st]
    followed by [k]. *)
Fixpoint rmatch (ic : bool) (r : regex) (st : mstate) (k : cont) : option mstate :=
  match r with
  | Eps => k st
  | Bol => match prev st with None => k st | Some _ => None end
  | WordB =>
      if xorb (Chr.word_opt (prev st)) (Chr.word_opt (Str.hd (rest st)))
      then k st else None
  | Lit p =>
      match rest st with
      | String c s' => if Chr.lit_eq ic p c then k (step c s' st) else None
      | EmptyString => None
      end
  | Cls p =>
      match rest st with
      | String c s' => if p c then k (step c s' st) else None
      | EmptyString => None
      end
  | Cat r1 r2 => rmatch ic r1 st (fun st' => rmatch ic r2 st' k)
  | Alt r1 r2 =>
      match rmatch ic r1 st k with
      | Some res => Some res
      | None => rmatch ic r2 st k
      end
  | Opt r1 =>
      match rmatch ic r1 st k with
      | Some res => Some res
      | None => k st
      end
  | Star p => star_m p st k
  | Plus p =>
      match rest st with
      | String c s' => if p c then star_m p (step c s' st) k else None
      | EmptyString => None
      end
  | Grp r1 =>
      rmatch ic r1 st (fun st' =>
        k (MState (prev st') (rest st')
             (Some (Str.take (String.length (rest st) - String.length (rest st')) (rest st)))))
  end.

(** One match attempt at a position: the state at the end of the match. *)
Definition match_at (ic : bool) (r : regex) (before : option ascii) (s : string)
  : option mstate :=
  rmatch ic r (MState before s None) (fun st => Some st).

(** Number of characters of [s] a match ending in [st] has consumed. *)
Definition consumed (s : string) (st : mstate) : nat :=
  String.length s - String.length (rest st).

(** [re.search(r, s)]: the leftmost match. *)
Fixpoint search_from (ic : bool) (r : regex) (before : option ascii) (s : string)
  : option mstate :=
  match match_at ic r before s with
  | Some st => Some st
  | None =>
      match s with
      | String c s' => search_from ic r (Some c) s'
      | EmptyString => None
      end
  end.

Definition search (ic : bool) (r : regex) (s : string) : option mstate :=
  search_from ic r None s.

(** [re.sub(r, repl, s)] for a pattern whose matches are not empty: scan
    from the left; at a match write [repl] and jump over the matched
    text ([skip] counts the characters still to jump over); elsewhere
    copy the character. *)
Fixpoint sub_from (ic : bool) (r : regex) (repl : string)
         (before : option ascii) (s : string) (skip : nat) : string :=
  match s with
  | EmptyString => EmptyString
  | String c s' =>
      match skip with
      | S n => sub_from ic r repl (Some c) s' n
      | O =>
          match match_at ic r before s with
          | Some st =>
              match consumed s st with
              | S n => repl ++ sub_from ic r repl (Some c) s' n
              | O => String c (sub_from ic r repl (Some c) s' 0)
              end
          | None => String c (sub_from ic r repl (Some c) s' 0)
          end
      end
  end.

Definition sub (ic : bool) (r : regex) (repl : string) (s : string) : string :=
  sub_from ic r repl None s 0.

(** Pattern text to syntax, for the word patterns of the program:
    letters, the space and the hyphen stand for themselves and [?] makes
    the character before it optional. *)
Fixpoint word_pattern (p : string) : regex :=
  match p with
  | EmptyString => Eps
  | String c p' =>
      match p' with
      | String "?"%char p'' => Cat (Opt (Lit c)) (word_pattern p'')
      | _ => Cat (Lit c) (word_pattern p')
      end
  end.

(** ["|".join(alternatives)] *)
Fixpoint alternation (rs : list regex) : regex :=
  match rs with
  | [] => Eps
  | [r] => r
  | r :: rs' => Alt r (alternation rs')
  end.

End Re.

(* ================================================================== *)
(** * Ingredient normalizer *)
(* ================================================================== *)

Import Re.

(** [r"^\d+[\d./\s]*"] *)
Definition leading_numbers : regex :=
  Cat Bol (Cat (Plus Chr.is_digit)
    (Star (fun c => Chr.is_digit c || Ascii.eqb c "." || Ascii.eqb c "/"
                    || Chr.is_space c))).

(** [r"\([^)]*\)"] *)
Definition parenthetical : regex :=
  Cat (Lit "(") (Cat (Star (fun c => negb (Ascii.eqb c ")"))) (Lit ")")).

Definition units : list string :=
  [ "cups?"; "tbsp?"; "tsp?"; "tablespoons?"; "teaspoons?"; "oz"; "ounces?";
    "lbs?"; "pounds?"; "grams?"; "g"; "ml"; "liters?"; "quarts?"; "pints?";
    "gallons?"; "cloves?"; "heads?"; "bunche?s?"; "cans?"; "jars?";
    "packages?"; "bags?"; "boxes?"; "containers?"; "small"; "medium";
    "large"; "extra-large" ].

(** [r"\b(" + "|".join(units) + r")\b\.?"] *)
Definition units_pattern : regex :=
  Cat WordB (Cat (Grp (alternation (map word_pattern units)))
    (Cat WordB (Opt (Lit ".")))).

Definition prep_words : list string :=
  [ "chopped"; "diced"; "minced"; "sliced"; "cubed"; "crushed"; "grated";
    "shredded"; "melted"; "softened"; "fresh"; "frozen"; "canned"; "dried";
    "ground"; "optional"; "to taste"; "for serving"; "divided" ].

(** [rf"\b{word}\b,?"] *)
Definition prep_pattern (word : string) : regex :=
  Cat WordB (Cat (word_pattern word) (Cat WordB (Opt (Lit ",")))).

(** The loop [for word in prep_words: ingredient = re.sub(...)]. *)
Definition remove_prep_words (words : list string) (ingredient : string) : string :=
  fold_left (fun acc word => sub true (prep_pattern word) "" acc) words ingredient.

(** [r"\s+"] *)
Definition whitespace_run : regex := Plus Chr.is_space.

Definition _clean_ingredient_for_search (ingredient : string) : string :=
  let ingredient := sub false leading_numbers "" ingredient in
  let ingredient := sub false parenthetical "" ingredient in
  let ingredient := sub true units_pattern "" ingredient in
  let ingredient := remove_prep_words prep_words ingredient in
  let ingredient := sub false whitespace_run " " ingredient in
  Str.strip " ,.-" ingredient.

Definition _get_search_suggestion (ingredient : string) : string :=
  let cleaned := _clean_ingredient_for_search ingredient in
  let words := Str.split cleaned in
  if 2 <? List.length words then Str.join " " (Str.last_n 2 words)
  else "Try simpler search: " ++ cleaned.

(* ================================================================== *)
(** * [urllib.parse.quote] and [float] *)
(* ================================================================== *)

Module Lib.

Definition hex_digit (n : nat) : ascii :=
  if n <? 10 then ascii_of_nat (48 + n) else ascii_of_nat (55 + n).

Definition percent (byte : nat) : string :=
  String "%" (String (hex_digit (byte / 16)) (String (hex_digit (byte mod 16)) "")).

(** The UTF-8 bytes of a code point below 256. *)
Definition utf8 (c : ascii) : list nat :=
  let n := Chr.code c in
  if n <? 128 then [n] else [192 + n / 64; 128 + n mod 64].

(** Characters [quote] leaves alone: letters, digits, [_.-~] and the
    default [safe="/"]. *)
Definition is_safe (c : ascii) : bool :=
  Chr.is_upper c || Chr.is_lower c || Chr.is_digit c || Str.mem c "_.-~/".

Fixpoint quote (s : string) : string :=
  match s with
  | EmptyString => EmptyString
  | String c s' =>
      (if is_safe c then String c EmptyString
       else fold_right (fun b acc => percent b ++ acc) EmptyString (utf8 c))
      ++ quote s'
  end.

(** Value of a run of decimal digits read after [acc]; [None] when a
    character is not a digit. *)
Fixpoint digits_value (acc : N) (s : string) : option N :=
  match s with
  | EmptyString => Some acc
  | String c s' =>
      if Chr.is_digit c
      then digits_value (acc * 10 + N.of_nat (Chr.code c - 48))%N s'
      else None
  end.

Fixpoint split_dot (s : string) : string * option string :=
  match s with
  | EmptyString => (EmptyString, None)
  | String c s' =>
      if Ascii.eqb c "." then (EmptyString, Some s')
      else let (a, b) := split_dot s' in (String c a, b)
  end.

Definition pow10 (n : nat) : positive := Nat.iter n (Pos.mul 10) 1%positive.

(** A Python [float]: an IEEE 754 binary64, in the Standard Library's
    specification of the format (precision 53, exponents up to 1024). *)
Definition float64 : Type := spec_float.

(** The binary64 nearest to [n / d], ties to even: zero when the quotient
    underflows, the infinity when it overflows.  The division of the
    specification rounds the exact quotient of the two mantissas once. *)
Definition nearest_float64 (n : N) (d : positive) : float64 :=
  match n with
  | N0 => S754_zero false
  | Npos p => SFdiv 53 1024 (S754_finite false p 0) (S754_finite false d 0)
  end.

(** [float(text)] on a text made of digits and periods, which is all the
    program passes to it: digits with at most one period and at least
    one digit.  The result is the decimal literal rounded to the nearest
    binary64, as Python's correctly rounded conversion gives it: a
    literal of more than 308 digits before the period overflows to
    [inf].  [None] stands for [ValueError]. *)
Definition float_of_decimal (text : string) : option float64 :=
  let (int_part, frac) := split_dot text in
  let frac_part := match frac with Some f => f | None => EmptyString end in
  match int_part, frac_part with
  | EmptyString, EmptyString => None
  | _, _ =>
      match digits_value 0 (int_part ++ frac_part) with
      | Some n => Some (nearest_float64 n (pow10 (String.length frac_part)))
      | None => None
      end
  end.

End Lib.

(* ================================================================== *)
(** * Data model ([prepwise/models/heb.py]) *)
(* ================================================================== *)

Record HEBCartItem : Type := {
  search_term : string;
  product_name : option string;
  price : option Lib.float64;
  quantity : nat;
  success : bool;
  error : option string;
  suggestion : option string
}.

Record HEBCartResult : Type := {
  items : list HEBCartItem;
  total_added : nat;
  total_not_found : nat;
  total_errors : nat;
  cart_total : option Lib.float64;
  cart_url : string
}.

Record HEBSessionStatus : Type := {
  logged_in : bool;
  session_exists : bool;
  message : string
}.

(** [HEBCartResult()] with the field defaults. *)
Definition empty_result : HEBCartResult :=
  {| items := []; total_added := 0; total_not_found := 0; total_errors := 0;
     cart_total := None; cart_url := "https://www.heb.com/cart" |}.

(** Truth value of an [Optional[str]]: [None] and [""] are false. *)
Definition truthy (o : option string) : bool :=
  match o with
  | Some (String _ _) => true
  | _ => false
  end.

Definition is_set {A} (o : option A) : bool :=
  match o with Some _ => true | None => false end.

(* ================================================================== *)
(** * The automation layer *)
(* ================================================================== *)

(** An [Exception]: its class name and [str(e)]. *)
Record exn : Type := Exn { exn_class : string; exn_str : string }.

(** [page.locator(sel)], [loc.first] and [loc.locator(sel)]. *)
Inductive locator : Type :=
| Locator (selector : string)
| First (l : locator)
| Within (l : locator) (selector : string).

(** The calls to the outside world: the awaited calls of the automation
    layer and the two reads of the profile directory.  [LaunchContext] is
    [get_browser_context] as a whole: creating the directories, starting
    the driver and launching the persistent context.  [PathExists] is
    [HEB_SESSION_DIR.exists()] and [IterDir] is
    [HEB_SESSION_DIR.iterdir()]. *)
Inductive action : Type :=
| PathExists
| IterDir
| LaunchContext (headless : bool)
| NewPage
| Goto (url : string) (timeout : N)
| WaitForLoadState (state : string) (timeout : N)
| WaitForSelector (selector : string) (timeout : N)
| Count (l : locator)
| TextContent (l : locator)
| Click (l : locator)
| Sleep
| CloseContext
| StopPlaywright.

(** A call that was made, and the exception it raised if it raised. *)
Record event : Type := Ev { ev_action : action; ev_raised : option exn }.

(** The calls made so far, the most recent first. *)
Definition log : Type := list event.

(** What the outside world answers.  [session_dir] is what a listing of
    the profile directory gives when it returns, [None] when nothing is at
    that path; the other fields answer a call from the history of calls
    before it.  [raises] answers for the reads of the directory too: they
    raise an [OSError] for a path that is a file or may not be read. *)
Record Browser : Type := {
  session_dir : option (list string);
  has_pages : log -> bool;
  raises : log -> action -> option exn;
  count_of : log -> locator -> nat;
  text_of : log -> locator -> option string
}.

Inductive outcome (A : Type) : Type :=
| Ok (a : A)
| Raise (e : exn).
Arguments Ok {A} a.
Arguments Raise {A} e.

(** Computations that call the browser: they read the oracle, extend the
    log and return or raise. *)
Definition M (A : Type) : Type := Browser -> log -> outcome A * log.

Definition ret {A} (a : A) : M A := fun _ l => (Ok a, l).

Definition bind {A B} (m : M A) (f : A -> M B) : M B :=
  fun b l =>
    match m b l with
    | (Ok a, l') => f a b l'
    | (Raise e, l') => (Raise e, l')
    end.

Definition raise {A} (e : exn) : M A := fun _ l => (Raise e, l).

Notation "x <- m ;; k" := (bind m (fun x => k))
  (at level 61, m at next level, right associativity).
Notation "m ;; k" := (bind m (fun _ => k))
  (at level 61, right associativity).

(** [try: body except Exception as e: handler(e)] *)
Definition try_except {A} (body : M A) (handler : exn -> M A) : M A :=
  fun b l =>
    match body b l with
    | (Ok a, l') => (Ok a, l')
    | (Raise e, l') => handler e b l'
    end.

(** [try: body finally: cleanup]: the cleanup runs on both exits, and an
    exception of the cleanup replaces the outcome of the body. *)
Definition try_finally {A} (body : M A) (cleanup : M unit) : M A :=
  fun b l =>
    match body b l with
    | (res, l') =>
        match cleanup b l' with
        | (Ok _, l'') => (res, l'')
        | (Raise e, l'') => (Raise e, l'')
        end
    end.

(** [try: step; step; ... except Exception: pass] over local variables:
    the assignments made before the exception are kept. *)
Fixpoint try_pass {S} (steps : list (S -> M S)) (locals : S) : M S :=
  match steps with
  | [] => ret locals
  | st :: more =>
      fun b l =>
        match st locals b l with
        | (Ok locals', l') => try_pass more locals' b l'
        | (Raise _, l') => (Ok locals, l')
        end
  end.

(** An awaited call without a result. *)
Definition perform (a : action) : M unit :=
  fun b l =>
    match raises b l a with
    | Some e => (Raise e, Ev a (Some e) :: l)
    | None => (Ok tt, Ev a None :: l)
    end.

(** [await loc.count()] *)
Definition count (loc : locator) : M nat :=
  fun b l =>
    match raises b l (Count loc) with
    | Some e => (Raise e, Ev (Count loc) (Some e) :: l)
    | None => (Ok (count_of b l loc), Ev (Count loc) None :: l)
    end.

(** [await loc.text_content()] *)
Definition text_content (loc : locator) : M (option string) :=
  fun b l =>
    match raises b l (TextContent loc) with
    | Some e => (Raise e, Ev (TextContent loc) (Some e) :: l)
    | None => (Ok (text_of b l loc), Ev (TextContent loc) None :: l)
    end.

(** [await asyncio.sleep(...)]: it returns; how long it takes is not
    modelled. *)
Definition sleep : M unit := fun _ l => (Ok tt, Ev Sleep None :: l).

(** [context.pages[0] if context.pages else await context.new_page()] *)
Definition first_page : M unit :=
  fun b l => if has_pages b l then (Ok tt, l) else perform NewPage b l.

(** [float(text)], raising [ValueError]. *)
Definition float (text : string) : M Lib.float64 :=
  match Lib.float_of_decimal text with
  | Some q => ret q
  | None =>
      raise (Exn "ValueError"
               ("could not convert string to float: '" ++ text ++ "'"))
  end.

(* ================================================================== *)
(** * Constants of [heb_cart.py] *)
(* ================================================================== *)

Definition HEB_BASE_URL : string := "https://www.heb.com".
Definition HEB_SEARCH_URL : string := HEB_BASE_URL ++ "/search/?q=".
Definition HEB_CART_URL : string := HEB_BASE_URL ++ "/cart".
Definition HEB_LOGIN_URL : string := HEB_BASE_URL ++ "/signin".

Module SELECTORS.
Definition product_tile : string := "[data-qe='product-tile']".
Definition add_to_cart_btn : string := "button[data-qe='add-to-cart-btn']".
Definition logged_in_indicator : string := "[data-qe='account-menu']".
End SELECTORS.

(** [r"\$?([\d.]+)"] *)
Definition amount_pattern : regex :=
  Cat (Opt (Lit "$"))
      (Grp (Plus (fun c => Chr.is_digit c || Ascii.eqb c "."))).

(** [match.group(1)] *)
Definition group1 (m : mstate) : string :=
  match grp m with Some g => g | None => EmptyString end.

(* ================================================================== *)
(** * [_add_single_item] *)
(* ================================================================== *)

(** The three results [_add_single_item] builds. *)
Definition not_found_item (ingredient : string) : HEBCartItem :=
  {| search_term := ingredient; product_name := None; price := None;
     quantity := 1; success := false; error := None;
     suggestion := Some (_get_search_suggestion ingredient) |}.

Definition added_item (ingredient : string) (name : option string) (p : option Lib.float64)
  : HEBCartItem :=
  {| search_term := ingredient; product_name := name; price := p;
     quantity := 1; success := true; error := None; suggestion := None |}.

Definition error_item (ingredient : string) (e : exn) : HEBCartItem :=
  {| search_term := ingredient; product_name := None; price := None;
     quantity := 1; success := false; error := Some (exn_str e);
     suggestion := None |}.

Definition add_btn : locator := First (Locator SELECTORS.add_to_cart_btn).
Definition product_tile : locator := First (Locator SELECTORS.product_tile).
Definition name_elem : locator :=
  First (Within product_tile "[data-qe='product-title'], .product-title").
Definition price_elem : locator :=
  First (Within product_tile "[data-qe='product-price'], .product-price").

(** The locals [product_name] and [price] of the extraction block. *)
Definition locals : Type := (option string * option Lib.float64)%type.

Definition read_name (lv : locals) : M locals :=
  n <- count name_elem ;;
  if 0 <? n then
    text <- text_content name_elem ;;
    ret (if truthy text
         then match text with Some t => Some (Str.strip_ws t) | None => None end
         else None, snd lv)
  else ret lv.

Definition read_price (lv : locals) : M locals :=
  n <- count price_elem ;;
  if 0 <? n then
    price_text <- text_content price_elem ;;
    if truthy price_text then
      match search false amount_pattern
              (match price_text with Some t => t | None => EmptyString end) with
      | Some m => p <- float (group1 m) ;; ret (fst lv, Some p)
      | None => ret lv
      end
    else ret lv
  else ret lv.

(** The body of the outer [try]; the [return] statements are its value. *)
Definition add_single_item_body (ingredient search_term : string) : M HEBCartItem :=
  let search_url := HEB_SEARCH_URL ++ Lib.quote search_term in
  perform (Goto search_url 30000%N) ;;
  no_products <-
    try_except
      (perform (WaitForSelector SELECTORS.product_tile 10000%N) ;; ret None)
      (fun _ => ret (Some (not_found_item ingredient))) ;;
  match no_products with
  | Some item => ret item
  | None =>
      n <- count add_btn ;;
      if n =? 0 then ret (not_found_item ingredient)
      else
        lv <- try_pass [read_name; read_price] (None, None) ;;
        perform (Click add_btn) ;;
        sleep ;;
        ret (added_item ingredient (fst lv) (snd lv))
  end.

Definition _add_single_item (ingredient : string) : M HEBCartItem :=
  let search_term := _clean_ingredient_for_search ingredient in
  try_except
    (add_single_item_body ingredient search_term)
    (fun e => ret (error_item ingredient e)).

(* ================================================================== *)
(** * [add_items_to_cart] *)
(* ================================================================== *)

(** [result.items.append(item_result)] and the [if/elif/else] that
    follows it. *)
Definition record_item (result : HEBCartResult) (item_result : HEBCartItem)
  : HEBCartResult :=
  let result :=
    {| items := (items result ++ [item_result])%list;
       total_added := total_added result;
       total_not_found := total_not_found result;
       total_errors := total_errors result;
       cart_total := cart_total result;
       cart_url := cart_url result |} in
  if success item_result then
    {| items := items result;
       total_added := total_added result + 1;
       total_not_found := total_not_found result;
       total_errors := total_errors result;
       cart_total := cart_total result;
       cart_url := cart_url result |}
  else if truthy (error item_result) then
    {| items := items result;
       total_added := total_added result;
       total_not_found := total_not_found result;
       total_errors := total_errors result + 1;
       cart_total := cart_total result;
       cart_url := cart_url result |}
  else
    {| items := items result;
       total_added := total_added result;
       total_not_found := total_not_found result + 1;
       total_errors := total_errors result;
       cart_total := cart_total result;
       cart_url := cart_url result |}.

(** The [for ingredient in ingredients] loop. *)
Fixpoint process_items (ingredients : list string) (result : HEBCartResult)
  : M HEBCartResult :=
  match ingredients with
  | [] => ret result
  | ingredient :: more =>
      item_result <- _add_single_item ingredient ;;
      let result := record_item result item_result in
      sleep ;;
      process_items more result
  end.

Definition total_element : locator :=
  First (Locator "[data-qe='cart-total'], .cart-total, .order-total").

Definition set_cart_total (result : HEBCartResult) (total : Lib.float64) : HEBCartResult :=
  {| items := items result;
     total_added := total_added result;
     total_not_found := total_not_found result;
     total_errors := total_errors result;
     cart_total := Some total;
     cart_url := cart_url result |}.

(** The body of the [try] around the cart-total probe. *)
Definition cart_total_body (result : HEBCartResult) : M HEBCartResult :=
  perform (Goto HEB_CART_URL 30000%N) ;;
  perform (WaitForLoadState "networkidle" 10000%N) ;;
  n <- count total_element ;;
  if 0 <? n then
    total_text <- text_content total_element ;;
    if truthy total_text then
      match search false amount_pattern
              (match total_text with Some t => t | None => EmptyString end) with
      | Some m => total <- float (group1 m) ;; ret (set_cart_total result total)
      | None => ret result
      end
    else ret result
  else ret result.

Definition cart_total_probe (result : HEBCartResult) : M HEBCartResult :=
  try_except (cart_total_body result) (fun _ => ret result).

Definition add_items_to_cart (ingredients : list string) : M HEBCartResult :=
  let result := empty_result in
  perform (LaunchContext false) ;;
  try_except
    (first_page ;;
     result <- process_items ingredients result ;;
     cart_total_probe result)
    (fun e => raise e).

(* ================================================================== *)
(** * [check_session_status] *)
(* ================================================================== *)

(** [HEB_SESSION_DIR.exists() and any(HEB_SESSION_DIR.iterdir())]: the
    statement before the [try].  [exists()] is called first; when it
    answers [False] the listing is not made; otherwise [iterdir()] is
    called and [any] is true of a listing with an entry.  Either call can
    raise, and nothing catches it here. *)
Definition session_dir_read : M bool :=
  fun b l =>
    match raises b l PathExists with
    | Some e => (Raise e, Ev PathExists (Some e) :: l)
    | None =>
        let l1 := Ev PathExists None :: l in
        match session_dir b with
        | None => (Ok false, l1)
        | Some entries =>
            match raises b l1 IterDir with
            | Some e => (Raise e, Ev IterDir (Some e) :: l1)
            | None =>
                (Ok (match entries with [] => false | _ :: _ => true end),
                 Ev IterDir None :: l1)
            end
        end
    end.

Definition check_session_status : M HEBSessionStatus :=
  session_exists <- session_dir_read ;;
  if negb session_exists then
    ret {| logged_in := false; session_exists := false;
           message := "No HEB session found. You'll need to log in." |}
  else
    try_except
      (perform (LaunchContext true) ;;
       try_finally
         (first_page ;;
          perform (Goto HEB_BASE_URL 30000%N) ;;
          perform (WaitForLoadState "networkidle" 10000%N) ;;
          n <- count (Locator SELECTORS.logged_in_indicator) ;;
          if 0 <? n then
            ret {| logged_in := true; session_exists := true;
                   message := "You are logged in to HEB." |}
          else
            ret {| logged_in := false; session_exists := true;
                   message := "Session exists but you may need to log in again." |})
         (perform CloseContext ;; perform StopPlaywright))
      (fun e =>
         ret {| logged_in := false; session_exists := session_exists;
                message := "Could not verify session status: " ++ exn_str e |}).

(* ================================================================== *)
(** * Vocabulary of the properties *)
(* ================================================================== *)

(** ** Items and counters *)

Definition count_if {A} (p : A -> bool) (xs : list A) : nat :=
  List.length (filter p xs).

(** The three classes of the orchestrator's [if/elif/else]. *)
Definition counts_as_added (item : HEBCartItem) : bool := success item.
Definition counts_as_error (item : HEBCartItem) : bool :=
  negb (success item) && truthy (error item).
Definition counts_as_not_found (item : HEBCartItem) : bool :=
  negb (success item) && negb (truthy (error item)).

(** The classes read with "[error] set" for "[error] not [None]". *)
Definition failed_with_error_set (item : HEBCartItem) : bool :=
  negb (success item) && is_set (error item).
Definition failed_with_error_unset (item : HEBCartItem) : bool :=
  negb (success item) && negb (is_set (error item)).

(** Exactly one of three booleans. *)
Definition exactly_one (x y z : bool) : bool :=
  (x && negb y && negb z) || (negb x && y && negb z) || (negb x && negb y && z).

(** What the loop has recorded after the items [new]. *)
Definition record_all (new : list HEBCartItem) (result : HEBCartResult)
  : HEBCartResult :=
  fold_left record_item new result.

(** ** The ways through [_add_single_item] *)

(** The navigation to the search results and the wait for a product tile,
    as [_add_single_item] issues them. *)
Definition search_call (ingredient : string) : action :=
  Goto (HEB_SEARCH_URL ++ Lib.quote (_clean_ingredient_for_search ingredient))
       30000%N.

Definition wait_call : action := WaitForSelector SELECTORS.product_tile 10000%N.

(** The calls of the extraction block. *)
Definition extraction_event (ev : event) : Prop :=
  ev_action ev = Count name_elem \/ ev_action ev = TextContent name_elem \/
  ev_action ev = Count price_elem \/ ev_action ev = TextContent price_elem.

Section ItemPaths.
Variables (b : Browser) (l : log) (ingredient : string).

Let goto : action := search_call ingredient.
Let wait : action := wait_call.
Let l1 : log := Ev goto None :: l.
Let l2 : log := Ev wait None :: l1.
Let l3 : log := Ev (Count add_btn) None :: l2.

(** The item [_add_single_item] returns and the calls it makes, the most
    recent first, from the answers of the browser. *)
Inductive item_path : HEBCartItem -> list event -> Prop :=
| path_navigation_raises e :
    raises b l goto = Some e ->
    item_path (error_item ingredient e) [Ev goto (Some e)]
| path_wait_raises e :
    raises b l goto = None ->
    raises b l1 wait = Some e ->
    item_path (not_found_item ingredient) [Ev wait (Some e); Ev goto None]
| path_count_raises e :
    raises b l goto = None ->
    raises b l1 wait = None ->
    raises b l2 (Count add_btn) = Some e ->
    item_path (error_item ingredient e)
      [Ev (Count add_btn) (Some e); Ev wait None; Ev goto None]
| path_no_button :
    raises b l goto = None ->
    raises b l1 wait = None ->
    raises b l2 (Count add_btn) = None ->
    count_of b l2 add_btn = 0 ->
    item_path (not_found_item ingredient)
      [Ev (Count add_btn) None; Ev wait None; Ev goto None]
| path_click_raises e lv evs :
    raises b l goto = None ->
    raises b l1 wait = None ->
    raises b l2 (Count add_btn) = None ->
    count_of b l2 add_btn <> 0 ->
    try_pass [read_name; read_price] (None, None) b l3 = (Ok lv, (evs ++ l3)%list) ->
    Forall extraction_event evs ->
    raises b (evs ++ l3)%list (Click add_btn) = Some e ->
    item_path (error_item ingredient e)
      (Ev (Click add_btn) (Some e) :: evs
         ++ [Ev (Count add_btn) None; Ev wait None; Ev goto None])%list
| path_added lv evs :
    raises b l goto = None ->
    raises b l1 wait = None ->
    raises b l2 (Count add_btn) = None ->
    count_of b l2 add_btn <> 0 ->
    try_pass [read_name; read_price] (None, None) b l3 = (Ok lv, (evs ++ l3)%list) ->
    Forall extraction_event evs ->
    raises b (evs ++ l3)%list (Click add_btn) = None ->
    item_path (added_item ingredient (fst lv) (snd lv))
      (Ev Sleep None :: Ev (Click add_btn) None :: evs
         ++ [Ev (Count add_btn) None; Ev wait None; Ev goto None])%list.

End ItemPaths.



(** ** The cart-total probe *)

(** [total_text] to the number the probe stores: the text must be
    non-empty, contain a run of digits and periods, and that run must be
    a decimal literal. *)
Definition readable_total (total_text : option string) : option Lib.float64 :=
  if truthy total_text then
    match search false amount_pattern
            (match total_text with Some t => t | None => EmptyString end) with
    | Some m => Lib.float_of_decimal (group1 m)
    | None => None
    end
  else None.

Section Probe.
Variables (b : Browser) (l : log).

Let goto : action := Goto HEB_CART_URL 30000%N.
Let settle : action := WaitForLoadState "networkidle" 10000%N.
Let l1 : log := Ev goto None :: l.
Let l2 : log := Ev settle None :: l1.
Let l3 : log := Ev (Count total_element) None :: l2.

(** The ways the cart-total probe fails, started at the history [l]: an
    exception of the navigation, of the wait for the page to settle, of
    the count or of the text read; no total element; a total text that
    does not read as a number. *)
Inductive probe_fails : Prop :=
| probe_navigation_raises e :
    raises b l goto = Some e -> probe_fails
| probe_settle_raises e :
    raises b l goto = None -> raises b l1 settle = Some e -> probe_fails
| probe_count_raises e :
    raises b l goto = None -> raises b l1 settle = None ->
    raises b l2 (Count total_element) = Some e -> probe_fails
| probe_total_missing :
    raises b l goto = None -> raises b l1 settle = None ->
    raises b l2 (Count total_element) = None ->
    count_of b l2 total_element = 0 -> probe_fails
| probe_text_raises e :
    raises b l goto = None -> raises b l1 settle = None ->
    raises b l2 (Count total_element) = None ->
    raises b l3 (TextContent total_element) = Some e -> probe_fails
| probe_text_unreadable :
    raises b l goto = None -> raises b l1 settle = None ->
    raises b l2 (Count total_element) = None ->
    raises b l3 (TextContent total_element) = None ->
    readable_total (text_of b l3 total_element) = None -> probe_fails.

End Probe.

(** ** The session check *)

(** The profile directory is there and has an entry: what the read of the
    directory answers when it returns. *)
Definition session_dir_nonempty (b : Browser) : bool :=
  match session_dir b with
  | Some (_ :: _) => true
  | _ => false
  end.

(** The status of the cheap path. *)
Definition no_session : HEBSessionStatus :=
  {| logged_in := false; session_exists := false;
     message := "No HEB session found. You'll need to log in." |}.

(** The most recent exception of a list of events. *)
Fixpoint last_raised (evs : list event) : option exn :=
  match evs with
  | [] => None
  | Ev _ (Some e) :: _ => Some e
  | Ev _ None :: earlier => last_raised earlier
  end.

(** The cleanup calls of the [finally] block returned. *)
Definition cleanup_returned (evs : list event) : Prop :=
  forall e, ~ In (Ev CloseContext (Some e)) evs
            /\ ~ In (Ev StopPlaywright (Some e)) evs.

Definition unverified (e : exn) : HEBSessionStatus :=
  {| logged_in := false; session_exists := true;
     message := "Could not verify session status: " ++ exn_str e |}.

(** ** Ingredient names *)

Fixpoint all_chars (p : ascii -> bool) (s : string) : bool :=
  match s with
  | EmptyString => true
  | String c s' => p c && all_chars p s'
  end.

Fixpoint last_char (s : string) : option ascii :=
  match s with
  | EmptyString => None
  | String c EmptyString => Some c
  | String _ s' => last_char s'
  end.

(** The texts a word pattern stands for: each [c?] is there or not. *)
Fixpoint forms (p : string) : list string :=
  match p with
  | EmptyString => [EmptyString]
  | String c p' =>
      match p' with
      | String "?"%char p'' =>
          (map (String c) (forms p'') ++ forms p'')%list
      | _ => map (String c) (forms p')
      end
  end.

(** [w] is at the start of [s], ignoring case: the last character read
    ([before] when [w] is empty) and the text after [w]. *)
Fixpoint reads (w : string) (before : option ascii) (s : string)
  : option (option ascii * string) :=
  match w with
  | EmptyString => Some (before, s)
  | String c w' =>
      match s with
      | String x s' =>
          if Chr.lit_eq true c x then reads w' (Some x) s' else None
      | EmptyString => None
      end
  end.

(** A word boundary between the character [before] and the text [after]. *)
Definition boundary (before : option ascii) (after : string) : bool :=
  xorb (Chr.word_opt before) (Chr.word_opt (Str.hd after)).

(** [w] stands at the start of [s], ignoring case, between two word
    boundaries. *)
Definition word_at (w : string) (before : option ascii) (s : string) : bool :=
  boundary before s
  && match reads w before s with
     | Some (last, after) => boundary last after
     | None => false
     end.

(** [found] holds at some position of [s], the character [before] coming
    before [s]. *)
Fixpoint scan (found : option ascii -> string -> bool)
         (before : option ascii) (s : string) : bool :=
  found before s
  || match s with
     | String c s' => scan found (Some c) s'
     | EmptyString => false
     end.

(** [x] contains [w] as a whole word, ignoring case. *)
Definition contains_word (w x : string) : bool := scan (word_at w) None x.

(** Every text a unit pattern stands for: ["cups"], ["cup"], ["tbsp"], ... *)
Definition unit_words : list string := flat_map forms units.

Definition has_digit (x : string) : bool :=
  negb (all_chars (fun c => negb (Chr.is_digit c)) x).

Definition has_unit_word (x : string) : bool :=
  existsb (fun w => contains_word w x) unit_words.

Definition has_prep_word (x : string) : bool :=
  existsb (fun w => contains_word w x) (flat_map forms prep_words).

(** An opening parenthesis with a closing one somewhere after it. *)
Fixpoint has_parenthetical (x : string) : bool :=
  match x with
  | EmptyString => false
  | String c x' =>
      (Ascii.eqb c "(" && negb (all_chars (fun d => negb (Ascii.eqb d ")")) x'))
      || has_parenthetical x'
  end.

(** Every whitespace character is a space with no whitespace after it. *)
Fixpoint single_spaced (x : string) : bool :=
  match x with
  | EmptyString => true
  | String c x' =>
      (if Chr.is_space c
       then Ascii.eqb c " "
            && negb (match Str.hd x' with Some d => Chr.is_space d | None => false end)
       else true)
      && single_spaced x'
  end.

(** Neither the first nor the last character is one of [chars]. *)
Definition trimmed (chars : string) (x : string) : bool :=
  negb (match Str.hd x with Some c => Str.mem c chars | None => false end)
  && negb (match last_char x with Some c => Str.mem c chars | None => false end).

(** [r] matches somewhere in [x]. *)
Definition mentions (ic : bool) (r : regex) (x : string) : bool :=
  is_set (search ic r x).

(** A pattern every match of which takes at least one character. *)
Fixpoint advances (r : regex) : bool :=
  match r with
  | Eps | Bol | WordB | Opt _ | Star _ => false
  | Lit _ | Cls _ | Plus _ => true
  | Cat r1 r2 => advances r1 || advances r2
  | Alt r1 r2 => advances r1 && advances r2
  | Grp r1 => advances r1
  end.

(** ** Stub browsers for the examples *)

(** A browser where every call returns and every element is there, and
    variants of it where one kind of call raises. *)
Module Stub.

Definition shop : Browser :=
  {| session_dir := Some ["Default"];
     has_pages := fun _ => true;
     raises := fun _ _ => None;
     count_of := fun _ _ => 1;
     text_of := fun _ _ => Some "$3.99" |}.

Definition with_raises (r : log -> action -> option exn) (b : Browser) : Browser :=
  {| session_dir := session_dir b;
     has_pages := has_pages b;
     raises := r;
     count_of := count_of b;
     text_of := text_of b |}.

Definition navigation_fails (e : exn) : Browser :=
  with_raises (fun _ a => match a with Goto _ _ => Some e | _ => None end) shop.

Definition no_results (e : exn) : Browser :=
  with_raises (fun _ a => match a with WaitForSelector _ _ => Some e | _ => None end)
              shop.

(** The cart page does not load; everything else works. *)
Definition cart_page_down (e : exn) : Browser :=
  with_raises
    (fun _ a =>
       match a with
       | Goto url _ => if String.eqb url HEB_CART_URL then Some e else None
       | _ => None
       end)
    shop.

Definition no_profile : Browser :=
  {| session_dir := None;
     has_pages := has_pages shop;
     raises := raises shop;
     count_of := count_of shop;
     text_of := text_of shop |}.

(** The path of the profile directory is a file: it exists, and listing
    it raises. *)
Definition not_a_directory : exn :=
  Exn "NotADirectoryError" "[Errno 20] Not a directory".

Definition profile_is_a_file : Browser :=
  with_raises (fun _ a => match a with IterDir => Some not_a_directory | _ => None end)
              shop.

(** The site is down and the context cannot be closed either. *)
Definition target_closed : exn :=
  Exn "Error" "BrowserContext.close: Target closed".

(** Playwright's [TimeoutError] of a wait, a navigation error, and an
    exception whose text is empty, as [str(TimeoutError())] is for the
    built-in class. *)
Definition wait_timeout : exn :=
  Exn "TimeoutError" "Page.wait_for_selector: Timeout 10000ms exceeded.".
Definition connection_reset : exn :=
  Exn "Error" "Page.goto: net::ERR_CONNECTION_RESET".
Definition silent : exn := Exn "TimeoutError" "".

Definition site_down_and_close_fails : Browser :=
  with_raises
    (fun _ a =>
       match a with
       | Goto _ _ => Some connection_reset
       | CloseContext => Some target_closed
       | _ => None
       end)
    shop.

(** [float("3.99")]: the binary64 nearest to 3.99. *)
Definition price_3_99 : Lib.float64 := S754_finite false 8984681256604140 (-51).

(** The loop's result and log for [["2 cups milk"]] in [cart_page_down]. *)
Definition collected : HEBCartResult :=
  record_all [added_item "2 cups milk" (Some "$3.99") (Some price_3_99)]
             empty_result.

Definition l_loop : log :=
  [ Ev Sleep None; Ev Sleep None; Ev (Click add_btn) None;
    Ev (TextContent price_elem) None; Ev (Count price_elem) None;
    Ev (TextContent name_elem) None; Ev (Count name_elem) None;
    Ev (Count add_btn) None; Ev wait_call None;
    Ev (search_call "2 cups milk") None; Ev (LaunchContext false) None ].

End Stub.

(* ================================================================== *)
(** * The rest of [heb_cart.py], [models/heb.py] and the tools of
      [server.py] that call them *)
(* ================================================================== *)

(** ** [open_heb_login] *)

Definition newline : string := String (ascii_of_nat 10) EmptyString.

Definition login_instructions : string :=
  "HEB login page opened in browser. Please log in manually." ++ newline
  ++ "Once logged in, your session will be saved for future use." ++ newline
  ++ "Close the browser window when done, or leave it open to continue shopping.".

Definition open_heb_login : M string :=
  perform (LaunchContext false) ;;
  try_except
    (first_page ;;
     perform (Goto HEB_LOGIN_URL 30000%N) ;;
     ret login_instructions)
    (fun e =>
       perform CloseContext ;;
       perform StopPlaywright ;;
       raise (Exn "RuntimeError" ("Failed to open HEB login: " ++ exn_str e))).

(** ** [HEBCartResult.added_items], [failed_items] and [summary] *)

Definition added_items (self : HEBCartResult) : list HEBCartItem :=
  filter (fun item => success item) (items self).

Definition failed_items (self : HEBCartResult) : list HEBCartItem :=
  filter (fun item => negb (success item)) (items self).

(** Truth value of an [Optional[float]]: [None] and the zeros are false. *)
Definition float_truthy (o : option Lib.float64) : bool :=
  match o with
  | Some (S754_zero _) => false
  | Some _ => true
  | None => false
  end.

(** [str(n)] for a non-negative [int]. *)
Definition str_of_int (n : nat) : string :=
  NilZero.string_of_uint (Nat.to_uint n).

(** [sep * n] *)
Fixpoint repeat_string (sep : string) (n : nat) : string :=
  match n with
  | O => EmptyString
  | S n' => sep ++ repeat_string sep n'
  end.

Section Summary.

(** [f"{x:.2f}"]: the formatting of a float with two decimals is the
    language's; the summary is modelled for any such formatting. *)
Variable format_2f : Lib.float64 -> string.

Definition added_line (item : HEBCartItem) : string :=
  let price_str :=
    if float_truthy (price item)
    then " - $" ++ match price item with
                   | Some p => format_2f p
                   | None => EmptyString
                   end
    else EmptyString in
  let name :=
    if truthy (product_name item)
    then match product_name item with Some n => n | None => EmptyString end
    else search_term item in
  "  - " ++ name ++ price_str.

Definition failed_line (item : HEBCartItem) : string :=
  let suggestion :=
    if truthy (suggestion item)
    then " -> Try: " ++ match suggestion item with
                        | Some s => s
                        | None => EmptyString
                        end
    else EmptyString in
  "  - " ++ search_term item ++ suggestion.

Definition summary_lines (self : HEBCartResult) : list string :=
  let lines := ["HEB Cart Summary"; repeat_string "=" 40; EmptyString] in
  let lines :=
    match added_items self with
    | [] => lines
    | _ =>
        let header :=
          "Added (" ++ str_of_int (List.length (added_items self)) ++ " items):" in
        List.app lines
          (header :: List.app (map added_line (added_items self)) [EmptyString])
    end in
  let lines :=
    match failed_items self with
    | [] => lines
    | _ =>
        let header :=
          "Not Found (" ++ str_of_int (List.length (failed_items self))
          ++ " items):" in
        List.app lines
          (header :: List.app (map failed_line (failed_items self)) [EmptyString])
    end in
  let lines :=
    if float_truthy (cart_total self)
    then
      let total :=
        "Estimated Total: $"
        ++ match cart_total self with
           | Some t => format_2f t
           | None => EmptyString
           end in
      List.app lines [total]
    else lines in
  let review := "Review cart: " ++ cart_url self in
  List.app lines [review].

Definition summary (self : HEBCartResult) : string :=
  Str.join newline (summary_lines self).

End Summary.

(** ** The values the tools return *)

(** Python values as the tools build them: [None], booleans, integers,
    floats, strings, lists and dictionaries in insertion order. *)
Inductive value : Type :=
| VNone
| VBool (b : bool)
| VInt (n : nat)
| VFloat (x : Lib.float64)
| VStr (s : string)
| VList (vs : list value)
| VDict (entries : list (string * value)).

Definition of_option {A} (inj : A -> value) (o : option A) : value :=
  match o with Some a => inj a | None => VNone end.

(** [d[key]] when the key is there. *)
Fixpoint dict_get (key : string) (entries : list (string * value)) : option value :=
  match entries with
  | [] => None
  | (k, v) :: more => if String.eqb k key then Some v else dict_get key more
  end.

(** [{**d, key: v}]: the value of an existing key is replaced in place, a
    new key goes to the end. *)
Fixpoint dict_set (key : string) (v : value) (entries : list (string * value))
  : list (string * value) :=
  match entries with
  | [] => [(key, v)]
  | (k, old) :: more =>
      if String.eqb k key then (k, v) :: more
      else (k, old) :: dict_set key v more
  end.

(** [model_dump()] of the three models: the fields in declaration order. *)
Definition dump_item (item : HEBCartItem) : list (string * value) :=
  [ ("search_term", VStr (search_term item));
    ("product_name", of_option VStr (product_name item));
    ("price", of_option VFloat (price item));
    ("quantity", VInt (quantity item));
    ("success", VBool (success item));
    ("error", of_option VStr (error item));
    ("suggestion", of_option VStr (suggestion item)) ].

Definition dump_result (result : HEBCartResult) : list (string * value) :=
  [ ("items", VList (map (fun item => VDict (dump_item item)) (items result)));
    ("total_added", VInt (total_added result));
    ("total_not_found", VInt (total_not_found result));
    ("total_errors", VInt (total_errors result));
    ("cart_total", of_option VFloat (cart_total result));
    ("cart_url", VStr (cart_url result)) ].

Definition dump_status (status : HEBSessionStatus) : list (string * value) :=
  [ ("logged_in", VBool (logged_in status));
    ("session_exists", VBool (session_exists status));
    ("message", VStr (message status)) ].

(** ** The tools of [server.py] *)

Definition prepwise_get_heb_session_status : M (list (string * value)) :=
  status <- check_session_status ;;
  ret (dump_status status).

Definition prepwise_heb_login : M (list (string * value)) :=
  try_except
    (message <- open_heb_login ;;
     ret [("success", VBool true); ("message", VStr message)])
    (fun e => ret [("success", VBool false); ("error", VStr (exn_str e))]).

Definition prepwise_add_to_heb_cart (format_2f : Lib.float64 -> string)
           (ingredients : list string) : M (list (string * value)) :=
  try_except
    (result <- add_items_to_cart ingredients ;;
     ret (dict_set "summary" (VStr (summary format_2f result)) (dump_result result)))
    (fun e => ret [("error", VStr (exn_str e))]).

(** ** Vocabulary for the tools and the summary *)

(** The session cannot be had: the launch raises [e], or the launched
    context has no page and creating one raises [e]. *)
Definition session_fails (b : Browser) (l : log) (e : exn) : Prop :=
  let l0 := Ev (LaunchContext false) None :: l in
  raises b l (LaunchContext false) = Some e
  \/ (raises b l (LaunchContext false) = None
      /\ has_pages b l0 = false
      /\ raises b l0 NewPage = Some e).

(** The session is had: the launch returns, and a page is there or is
    created. *)
Definition session_opens (b : Browser) (l : log) : Prop :=
  let l0 := Ev (LaunchContext false) None :: l in
  raises b l (LaunchContext false) = None
  /\ (has_pages b l0 = true \/ raises b l0 NewPage = None).

(** An item with another [error] field, and a result with other items. *)
Definition with_error (text : option string) (item : HEBCartItem) : HEBCartItem :=
  {| search_term := search_term item; product_name := product_name item;
     price := price item; quantity := quantity item; success := success item;
     error := text; suggestion := suggestion item |}.

Definition with_items (new : list HEBCartItem) (self : HEBCartResult)
  : HEBCartResult :=
  {| items := new; total_added := total_added self;
     total_not_found := total_not_found self;
     total_errors := total_errors self;
     cart_total := cart_total self; cart_url := cart_url self |}.

(** ** Vocabulary for the calls a run makes *)

Definition is_navigation (a : action) : bool :=
  match a with Goto _ _ => true | _ => false end.

Definition is_sleep (a : action) : bool :=
  match a with Sleep => true | _ => false end.

(** The calls that close the session. *)
Definition is_teardown (a : action) : bool :=
  match a with CloseContext | StopPlaywright => true | _ => false end.

(** Number of calls of a kind among events. *)
Definition calls (kind : action -> bool) (evs : list event) : nat :=
  count_if (fun ev => kind (ev_action ev)) evs.

(** The characters of an amount: digits and the period. *)
Definition amount_char (c : ascii) : bool := Chr.is_digit c || Ascii.eqb c ".".

(** Whitespace collapsing read off the pattern [\s+]: a run of whitespace
    becomes one space; [in_run] says that the characters just before were
    whitespace already written. *)
Fixpoint collapse (in_run : bool) (s : string) : string :=
  match s with
  | EmptyString => EmptyString
  | String c s' =>
      if Chr.is_space c
      then if in_run then collapse true s' else String " " (collapse true s')
      else String c (collapse false s')
  end.

(** The first or last character, when it is whitespace. *)
Definition space_opt (o : option ascii) : bool :=
  match o with Some c => Chr.is_space c | None => false end.

(** Characters other than the opening and the closing parenthesis. *)
Definition not_open (c : ascii) : bool := negb (Ascii.eqb c "(").
Definition not_close (c : ascii) : bool := negb (Ascii.eqb c ")").

(** A formatting of floats for the examples: the integer part and two
    decimals of a finite non-negative number, cut. *)
Definition cut_2f (x : Lib.float64) : string :=
  let cents :=
    match x with
    | S754_finite false m e =>
        Z.to_nat (if (0 <=? e)%Z then Zpos m * 100 * 2 ^ e
                  else Zpos m * 100 / 2 ^ (- e))
    | _ => 0
    end in
  str_of_int (cents / 100) ++ "."
  ++ str_of_int (cents mod 100 / 10) ++ str_of_int (cents mod 10).

(* ================================================================== *)
(** * Facts about the matcher *)
(* ================================================================== *)

Section MatcherEquations.
Variables (ic : bool) (st : mstate) (k : cont).

Lemma rmatch_cat (r1 r2 : regex) :
  rmatch ic (Cat r1 r2) st k = rmatch ic r1 st (fun st' => rmatch ic r2 st' k).
Proof. reflexivity. Qed.

Lemma rmatch_lit (p : ascii) :
  rmatch ic (Lit p) st k
  = match rest st with
    | String c s' => if Chr.lit_eq ic p c then k (step c s' st) else None
    | EmptyString => None
    end.
Proof. reflexivity. Qed.

Lemma rmatch_cls (p : ascii -> bool) :
  rmatch ic (Cls p) st k
  = match rest st with
    | String c s' => if p c then k (step c s' st) else None
    | EmptyString => None
    end.
Proof. reflexivity. Qed.

Lemma rmatch_opt (r : regex) :
  rmatch ic (Opt r) st k
  = match rmatch ic r st k with Some res => Some res | None => k st end.
Proof. reflexivity. Qed.

Lemma rmatch_alt (r1 r2 : regex) :
  rmatch ic (Alt r1 r2) st k
  = match rmatch ic r1 st k with
    | Some res => Some res
    | None => rmatch ic r2 st k
    end.
Proof. reflexivity. Qed.

Lemma rmatch_wordb :
  rmatch ic WordB st k
  = if xorb (Chr.word_opt (prev st)) (Chr.word_opt (Str.hd (rest st)))
    then k st else None.
Proof. reflexivity. Qed.

Lemma rmatch_plus (p : ascii -> bool) :
  rmatch ic (Plus p) st k
  = match rest st with
    | String c s' => if p c then star_from p s' (step c s' st) k else None
    | EmptyString => None
    end.
Proof. reflexivity. Qed.

Lemma rmatch_grp (r : regex) :
  rmatch ic (Grp r) st k
  = rmatch ic r st (fun st' =>
      k (MState (prev st') (rest st')
           (Some (Str.take (String.length (rest st) - String.length (rest st'))
                           (rest st))))).
Proof. reflexivity. Qed.

End MatcherEquations.

Lemma star_from_nil (p : ascii -> bool) (st : mstate) (k : cont) :
  star_from p EmptyString st k = k st.
Proof. reflexivity. Qed.

Lemma star_from_cons (p : ascii -> bool) (c : ascii) (s : string)
      (st : mstate) (k : cont) :
  star_from p (String c s) st k
  = if p c then
      match star_from p s (step c s st) k with
      | Some r => Some r
      | None => k st
      end
    else k st.
Proof. reflexivity. Qed.

(** The matcher only moves forward, and by at least one character through
    a pattern that [advances]. *)
Lemma star_from_forward (p : ascii -> bool) (s : string) :
  forall st k res,
    star_from p s st k = Some res ->
    rest st = s ->
    exists st', k st' = Some res /\ String.length (rest st') <= String.length s.
Proof.
  induction s as [|c s IH]; intros st k res Hm Hrest.
  - rewrite star_from_nil in Hm. exists st. rewrite Hrest. auto.
  - rewrite star_from_cons in Hm.
    assert (Hstay : k st = Some res ->
                    exists st', k st' = Some res
                                /\ String.length (rest st') <= String.length (String c s)).
    { intros Hk. exists st. rewrite Hrest. auto. }
    destruct (p c); [|auto].
    destruct (star_from p s (step c s st) k) as [r|] eqn:Hs; [|auto].
    injection Hm as ->.
    destruct (IH _ _ _ Hs eq_refl) as (st' & Hk & Hlen).
    exists st'. split; [exact Hk|]. simpl. lia.
Qed.

Lemma rmatch_forward (ic : bool) (r : regex) :
  forall st k res,
    rmatch ic r st k = Some res ->
    exists st',
      k st' = Some res
      /\ String.length (rest st') + (if advances r then 1 else 0)
         <= String.length (rest st).
Proof.
  induction r as [| | |c|p|r1 IH1 r2 IH2|r1 IH1 r2 IH2|r1 IH1|p|p|r1 IH1];
    intros st k res Hm.
  - exists st. simpl in *. split; [exact Hm|lia].
  - simpl in Hm. destruct (prev st); [discriminate|].
    exists st. simpl. split; [exact Hm|lia].
  - rewrite rmatch_wordb in Hm. destruct (xorb _ _); [|discriminate].
    exists st. simpl. split; [exact Hm|lia].
  - rewrite rmatch_lit in Hm. destruct (rest st) as [|x s'] eqn:Hrest; [discriminate|].
    destruct (Chr.lit_eq ic c x); [|discriminate].
    exists (step x s' st). split; [exact Hm|]. simpl. lia.
  - rewrite rmatch_cls in Hm. destruct (rest st) as [|x s'] eqn:Hrest; [discriminate|].
    destruct (p x); [|discriminate].
    exists (step x s' st). split; [exact Hm|]. simpl. lia.
  - rewrite rmatch_cat in Hm.
    destruct (IH1 _ _ _ Hm) as (st1 & Hm2 & Hlen1).
    destruct (IH2 _ _ _ Hm2) as (st2 & Hk & Hlen2).
    exists st2. split; [exact Hk|]. simpl.
    destruct (advances r1), (advances r2); simpl; lia.
  - rewrite rmatch_alt in Hm. simpl advances.
    destruct (rmatch ic r1 st k) as [res1|] eqn:H1.
    + injection Hm as ->. destruct (IH1 _ _ _ H1) as (st' & Hk & Hlen).
      exists st'. split; [exact Hk|].
      destruct (advances r1), (advances r2); simpl in *; lia.
    + destruct (IH2 _ _ _ Hm) as (st' & Hk & Hlen).
      exists st'. split; [exact Hk|].
      destruct (advances r1), (advances r2); simpl in *; lia.
  - rewrite rmatch_opt in Hm. simpl advances.
    destruct (rmatch ic r1 st k) as [res1|] eqn:H1.
    + injection Hm as ->. destruct (IH1 _ _ _ H1) as (st' & Hk & Hlen).
      exists st'. split; [exact Hk|]. lia.
    + exists st. split; [exact Hm|]. lia.
  - change (rmatch ic (Star p) st k) with (star_from p (rest st) st k) in Hm.
    destruct (star_from_forward p (rest st) st k res Hm eq_refl) as (st' & Hk & Hlen).
    exists st'. split; [exact Hk|]. simpl. lia.
  - rewrite rmatch_plus in Hm.
    destruct (rest st) as [|x s'] eqn:Hrest; [discriminate|].
    destruct (p x); [|discriminate].
    destruct (star_from_forward p s' (step x s' st) k res Hm eq_refl)
      as (st' & Hk & Hlen).
    exists st'. split; [exact Hk|]. simpl. lia.
  - rewrite rmatch_grp in Hm.
    destruct (IH1 _ _ _ Hm) as (st' & Hk & Hlen).
    eexists. split; [exact Hk|]. exact Hlen.
Qed.

(** A match of a pattern that [advances] is not empty: the branch of
    [sub_from] for an empty match is never taken for such a pattern. *)
Lemma match_not_empty (ic : bool) (r : regex) (before : option ascii)
      (s : string) (res : mstate) :
  advances r = true ->
  match_at ic r before s = Some res ->
  1 <= consumed s res.
Proof.
  intros Hadv Hm. unfold match_at in Hm.
  destruct (rmatch_forward ic r _ _ res Hm) as (st' & Hk & Hlen).
  injection Hk as ->. rewrite Hadv in Hlen. simpl in Hlen.
  unfold consumed. lia.
Qed.

(** The five patterns of the cleaner advance. *)
Lemma cleaner_patterns_advance :
  advances leading_numbers = true
  /\ advances parenthetical = true
  /\ advances units_pattern = true
  /\ forallb (fun word => advances (prep_pattern word)) prep_words = true
  /\ advances whitespace_run = true.
Proof. repeat split; reflexivity. Qed.

(** ** Word patterns and the words they stand for *)

Lemma word_pattern_optional (c : ascii) (p : string) :
  word_pattern (String c (String "?" p)) = Cat (Opt (Lit c)) (word_pattern p).
Proof. reflexivity. Qed.

Lemma word_pattern_literal (c d : ascii) (p : string) :
  d <> "?"%char ->
  word_pattern (String c (String d p)) = Cat (Lit c) (word_pattern (String d p)).
Proof.
  intros Hd. simpl.
  destruct d as [[] [] [] [] [] [] [] []]; try reflexivity. now contradiction Hd.
Qed.

Lemma forms_optional (c : ascii) (p : string) :
  forms (String c (String "?" p)) = (map (String c) (forms p) ++ forms p)%list.
Proof. reflexivity. Qed.

Lemma forms_literal (c d : ascii) (p : string) :
  d <> "?"%char ->
  forms (String c (String d p)) = map (String c) (forms (String d p)).
Proof.
  intros Hd. simpl.
  destruct d as [[] [] [] [] [] [] [] []]; try reflexivity. now contradiction Hd.
Qed.

Lemma reads_cons (c : ascii) (w : string) (before : option ascii) (s : string) :
  reads (String c w) before s
  = match s with
    | String x s' => if Chr.lit_eq true c x then reads w (Some x) s' else None
    | EmptyString => None
    end.
Proof. reflexivity. Qed.

Lemma word_pattern_reads (n : nat) :
  forall p st k res,
    String.length p <= n ->
    rmatch true (word_pattern p) st k = Some res ->
    exists w last after,
      In w (forms p)
      /\ reads w (prev st) (rest st) = Some (last, after)
      /\ k (MState last after (grp st)) = Some res.
Proof.
  induction n as [|n IH]; intros p st k res Hlen Hm.
  - destruct p; [|simpl in Hlen; lia].
    exists EmptyString, (prev st), (rest st).
    destruct st. simpl in *. auto.
  - destruct p as [|c p'].
    { exists EmptyString, (prev st), (rest st).
      destruct st. simpl in *. auto. }
    assert (Hlit : forall q k',
               String.length q <= n ->
               rmatch true (Cat (Lit c) (word_pattern q)) st k' = Some res ->
               exists w last after,
                 In w (map (String c) (forms q))
                 /\ reads w (prev st) (rest st) = Some (last, after)
                 /\ k' (MState last after (grp st)) = Some res).
    { intros q k' Hq Hcat. rewrite rmatch_cat, rmatch_lit in Hcat.
      destruct (rest st) as [|x s'] eqn:Hrest; [discriminate|].
      destruct (Chr.lit_eq true c x) eqn:Hx; [|discriminate].
      destruct (IH q _ _ _ Hq Hcat) as (w & last & after & Hw & Hreads & Hk).
      exists (String c w), last, after. split; [now apply in_map|].
      split; [|exact Hk]. rewrite reads_cons, Hx. exact Hreads. }
    destruct p' as [|d p''].
    + apply (Hlit EmptyString k); [simpl; lia|exact Hm].
    + simpl in Hlen.
      destruct (Ascii.eqb_spec d "?") as [->|Hd].
      * rewrite word_pattern_optional, rmatch_cat, rmatch_opt in Hm.
        rewrite forms_optional.
        destruct (rmatch true (Lit c) st
                    (fun st' => rmatch true (word_pattern p'') st' k))
          as [r|] eqn:Hwith.
        -- injection Hm as ->.
           destruct (Hlit p'' k) as (w & last & after & Hw & Hreads & Hk);
             [lia|now rewrite rmatch_cat|].
           exists w, last, after. split; [apply in_or_app; now left|auto].
        -- destruct (IH p'' st k res) as (w & last & after & Hw & Hreads & Hk);
             [lia|exact Hm|].
           exists w, last, after. split; [apply in_or_app; now right|auto].
      * rewrite (word_pattern_literal c d p'' Hd) in Hm.
        rewrite (forms_literal c d p'' Hd).
        apply (Hlit (String d p'') k); [simpl; lia|exact Hm].
Qed.

Lemma alternation_member (ic : bool) (rs : list regex) :
  forall st k res,
    rs <> [] ->
    rmatch ic (alternation rs) st k = Some res ->
    exists r, In r rs /\ rmatch ic r st k = Some res.
Proof.
  induction rs as [|r rs IH]; intros st k res Hne Hm; [congruence|].
  destruct rs as [|r' rs'].
  - exists r. split; [now left|exact Hm].
  - change (alternation (r :: r' :: rs')) with (Alt r (alternation (r' :: rs'))) in Hm.
    rewrite rmatch_alt in Hm.
    destruct (rmatch ic r st k) as [res'|] eqn:Hr.
    + injection Hm as ->. exists r. split; [now left|exact Hr].
    + destruct (IH st k res) as (r0 & Hin & Hr0); [discriminate|exact Hm|].
      exists r0. split; [now right|exact Hr0].
Qed.

(** A match of an alternation of word patterns that starts and ends at
    a word boundary: one of the words stands there. *)
Lemma words_between_boundaries (patterns : list string)
      (before : option ascii) (s : string) (k : cont) (res : mstate) :
  patterns <> [] ->
  boundary before s = true ->
  (forall st', k st' = Some res -> boundary (prev st') (rest st') = true) ->
  rmatch true (alternation (map word_pattern patterns))
         (MState before s None) k = Some res ->
  existsb (fun w => word_at w before s) (flat_map forms patterns) = true.
Proof.
  intros Hne Hb1 Hk Hm.
  destruct (alternation_member true (map word_pattern patterns)
              (MState before s None) k res) as (r & Hin & Hr);
    [destruct patterns; [congruence|discriminate]|exact Hm|].
  apply in_map_iff in Hin. destruct Hin as (p & <- & Hp).
  destruct (word_pattern_reads (String.length p) p _ _ res (le_n _) Hr)
    as (w & last & after & Hw & Hreads & Hres).
  simpl prev in Hreads. simpl rest in Hreads.
  apply Hk in Hres. simpl in Hres.
  apply existsb_exists. exists w. split.
  - apply in_flat_map. now exists p.
  - unfold word_at. now rewrite Hb1, Hreads, Hres.
Qed.

Lemma boundary_then (ic : bool) (r : regex) (st : mstate) (k : cont)
      (res : mstate) :
  rmatch ic (Cat WordB r) st k = Some res ->
  boundary (prev st) (rest st) = true /\ rmatch ic r st k = Some res.
Proof.
  rewrite rmatch_cat, rmatch_wordb. unfold boundary.
  destruct (xorb _ _); [auto|discriminate].
Qed.

Lemma units_pattern_word_at (before : option ascii) (s : string) (res : mstate) :
  match_at true units_pattern before s = Some res ->
  existsb (fun w => word_at w before s) unit_words = true.
Proof.
  unfold match_at, units_pattern. intros Hm.
  apply boundary_then in Hm. destruct Hm as [Hb1 Hm].
  rewrite rmatch_cat, rmatch_grp in Hm.
  refine (words_between_boundaries units before s _ res _ Hb1 _ Hm);
    [discriminate|].
  intros st' Hk. apply boundary_then in Hk. exact (proj1 Hk).
Qed.

Lemma prep_pattern_word_at (word : string) (before : option ascii) (s : string)
      (res : mstate) :
  match_at true (prep_pattern word) before s = Some res ->
  existsb (fun w => word_at w before s) (forms word) = true.
Proof.
  unfold match_at, prep_pattern. intros Hm.
  apply boundary_then in Hm. destruct Hm as [Hb1 Hm].
  rewrite rmatch_cat in Hm.
  pose proof (words_between_boundaries [word] before s
                (fun st' => rmatch true (Cat WordB (Opt (Lit ","))) st'
                                   (fun st => Some st)) res) as Hall.
  simpl flat_map in Hall. rewrite app_nil_r in Hall.
  apply Hall; [discriminate|exact Hb1| |exact Hm].
  intros st' Hk. apply boundary_then in Hk. exact (proj1 Hk).
Qed.

Lemma existsb_false {A} (f : A -> bool) (xs : list A) :
  existsb f xs = false <-> forall x, In x xs -> f x = false.
Proof.
  induction xs as [|a xs IH]; simpl.
  - split; [intros _ x []|reflexivity].
  - rewrite orb_false_iff, IH. split.
    + intros [Ha Hxs] x [<-|Hin]; auto.
    + intros H. split; [apply H; now left|intros x Hin; apply H; now right].
Qed.

(** What [scan] finds nowhere, [re.search] finds nowhere. *)
Lemma search_from_none (ic : bool) (r : regex)
      (found : option ascii -> string -> bool) :
  (forall before s res, match_at ic r before s = Some res -> found before s = true) ->
  forall s before,
    scan found before s = false -> search_from ic r before s = None.
Proof.
  intros Hsound. induction s as [|c s IH]; intros before Hscan.
  - simpl in Hscan |- *. rewrite orb_false_r in Hscan.
    destruct (match_at ic r before EmptyString) eqn:Hm; [|reflexivity].
    apply Hsound in Hm. congruence.
  - simpl in Hscan. apply orb_false_elim in Hscan.
    destruct Hscan as [Hhere Hlater].
    unfold search_from; fold search_from.
    destruct (match_at ic r before (String c s)) eqn:Hm.
    + apply Hsound in Hm. congruence.
    + now apply IH.
Qed.

Lemma scan_words_false (words : list string) (s : string) :
  forall before,
    existsb (fun w => scan (word_at w) before s) words = false ->
    scan (fun b t => existsb (fun w => word_at w b t) words) before s = false.
Proof.
  induction s as [|c s IH]; intros before Hnone;
    rewrite existsb_false in Hnone; simpl.
  - rewrite orb_false_r. apply existsb_false. intros w Hw.
    specialize (Hnone w Hw). simpl in Hnone. now rewrite orb_false_r in Hnone.
  - apply orb_false_intro.
    + apply existsb_false. intros w Hw. specialize (Hnone w Hw).
      simpl in Hnone. now apply orb_false_elim in Hnone.
    + apply IH. apply existsb_false. intros w Hw. specialize (Hnone w Hw).
      simpl in Hnone. now apply orb_false_elim in Hnone.
Qed.

Lemma no_unit_word_no_match (x : string) :
  has_unit_word x = false -> mentions true units_pattern x = false.
Proof.
  intros Hnone. unfold mentions, search.
  rewrite (search_from_none true units_pattern
             (fun b t => existsb (fun w => word_at w b t) unit_words)
             units_pattern_word_at x None); [reflexivity|].
  now apply scan_words_false.
Qed.

Lemma no_prep_word_no_match (x : string) :
  has_prep_word x = false ->
  existsb (fun word => mentions true (prep_pattern word) x) prep_words = false.
Proof.
  unfold has_prep_word. intros Hnone.
  rewrite existsb_false in Hnone. apply existsb_false. intros word Hword.
  unfold mentions, search.
  rewrite (search_from_none true (prep_pattern word)
             (fun b t => existsb (fun w => word_at w b t) (forms word))
             (prep_pattern_word_at word) x None); [reflexivity|].
  apply scan_words_false. apply existsb_false. intros w Hw.
  apply Hnone. apply in_flat_map. now exists word.
Qed.

Lemma parenthetical_needs_closing (s : string) :
  forall st res,
    star_from (fun c => negb (Ascii.eqb c ")")) s st
              (fun st' => rmatch false (Lit ")") st' (fun st'' => Some st''))
    = Some res ->
    rest st = s ->
    all_chars (fun d => negb (Ascii.eqb d ")")) s = false.
Proof.
  induction s as [|c s IH]; intros st res Hm Hrest.
  - rewrite star_from_nil, rmatch_lit, Hrest in Hm. discriminate.
  - rewrite star_from_cons in Hm. simpl.
    destruct (negb (Ascii.eqb c ")")) eqn:Hc; [|reflexivity].
    simpl.
    destruct (star_from _ s (step c s st) _) as [r|] eqn:Hs.
    + now apply (IH (step c s st) r).
    + rewrite rmatch_lit, Hrest in Hm.
      unfold Chr.lit_eq in Hm. rewrite Ascii.eqb_sym in Hm.
      apply negb_true_iff in Hc. rewrite Hc in Hm. discriminate.
Qed.

Lemma no_parenthetical_no_match (x : string) :
  has_parenthetical x = false -> mentions false parenthetical x = false.
Proof.
  intros Hnone. unfold mentions, search.
  rewrite (search_from_none false parenthetical
             (fun _ t => match t with
                         | String c t' =>
                             Ascii.eqb c "("
                             && negb (all_chars (fun d => negb (Ascii.eqb d ")")) t')
                         | EmptyString => false
                         end)); [reflexivity| |].
  - intros before s res Hm. unfold match_at, parenthetical in Hm.
    rewrite rmatch_cat, rmatch_lit in Hm. simpl rest in Hm.
    destruct s as [|c s]; [discriminate|].
    unfold Chr.lit_eq in Hm. rewrite Ascii.eqb_sym in Hm.
    destruct (Ascii.eqb c "("); [|discriminate]. simpl.
    rewrite rmatch_cat in Hm.
    change (rmatch false (Star (fun c0 => negb (Ascii.eqb c0 ")")))
              (step c s (MState before (String c s) None))
              (fun st' => rmatch false (Lit ")") st' (fun st => Some st)))
      with (star_from (fun c0 => negb (Ascii.eqb c0 ")")) s
              (step c s (MState before (String c s) None))
              (fun st' => rmatch false (Lit ")") st' (fun st => Some st))) in Hm.
    now rewrite (parenthetical_needs_closing s _ res Hm eq_refl).
  - clear -Hnone. revert Hnone. generalize (@None ascii).
    induction x as [|c x IH]; intros before Hnone; [reflexivity|].
    simpl in Hnone |- *. apply orb_false_elim in Hnone.
    destruct Hnone as [Hc Hx]. rewrite Hc. simpl. now apply IH.
Qed.

(* ================================================================== *)
(** * Properties of the normalizer *)
(* ================================================================== *)

Section SubFacts.
Variables (ic : bool) (r : regex) (repl : string).

(** A pattern that matches nowhere leaves the subject as it is. *)
Lemma sub_from_no_match (s : string) :
  forall before,
    search_from ic r before s = None ->
    sub_from ic r repl before s 0 = s.
Proof.
  induction s as [|c s IH]; intros before Hsearch; [reflexivity|].
  simpl in Hsearch |- *.
  destruct (match_at ic r before (String c s)); [discriminate|].
  now rewrite IH.
Qed.

Lemma sub_no_match (s : string) :
  mentions ic r s = false -> sub ic r repl s = s.
Proof.
  unfold mentions, sub, search. intros Hm.
  apply sub_from_no_match.
  now destruct (search_from ic r None s).
Qed.

End SubFacts.

Lemma leading_numbers_need_start (s : string) :
  forall c, search_from false leading_numbers (Some c) s = None.
Proof.
  induction s as [|d s IH]; intros c; simpl; [reflexivity|apply IH].
Qed.

Lemma leading_numbers_no_digit (x : string) :
  has_digit x = false -> sub false leading_numbers "" x = x.
Proof.
  intros Hd. apply sub_from_no_match.
  destruct x as [|c x]; [reflexivity|].
  unfold has_digit in Hd. simpl in Hd.
  apply negb_false_iff, andb_prop in Hd. destruct Hd as [Hc _].
  apply negb_true_iff in Hc.
  unfold search_from; fold search_from.
  unfold match_at, leading_numbers. simpl. rewrite Hc.
  apply leading_numbers_need_start.
Qed.

Lemma remove_prep_words_none (x : string) (words : list string) :
  existsb (fun word => mentions true (prep_pattern word) x) words = false ->
  remove_prep_words words x = x.
Proof.
  unfold remove_prep_words.
  induction words as [|w words IH]; simpl; intros Hnone; [reflexivity|].
  apply orb_false_elim in Hnone. destruct Hnone as [Hw Hrest].
  rewrite (sub_no_match true (prep_pattern w) "" x Hw). now apply IH.
Qed.

Lemma whitespace_single_spaced (x : string) :
  forall before,
    single_spaced x = true ->
    sub_from false whitespace_run " " before x 0 = x.
Proof.
  induction x as [|c x IH]; intros before Hx; [reflexivity|].
  simpl in Hx. apply andb_prop in Hx. destruct Hx as [Hc Hx].
  unfold sub_from; fold sub_from.
  unfold match_at, whitespace_run, rmatch, rest.
  destruct (Chr.is_space c) eqn:Hsp.
  - apply andb_prop in Hc. destruct Hc as [Hc Hnext].
    apply Ascii.eqb_eq in Hc. subst c.
    apply negb_true_iff in Hnext.
    assert (Hstar : star_m Chr.is_space
                      (step " " x (MState before (String " " x) None))
                      (fun st => Some st)
                    = Some (MState (Some " "%char) x None)).
    { unfold star_m, step. simpl.
      destruct x as [|d x']; [reflexivity|].
      simpl in Hnext |- *. now rewrite Hnext. }
    rewrite Hstar. unfold consumed. simpl rest.
    replace (String.length (String " " x) - String.length x) with 1
      by (change (String.length (String " " x)) with (S (String.length x)); lia).
    rewrite (IH _ Hx). reflexivity.
  - now rewrite (IH _ Hx).
Qed.

Lemma lstrip_by_head (p : ascii -> bool) (x : string) :
  match Str.hd x with Some c => p c | None => false end = false ->
  Str.lstrip_by p x = x.
Proof. destruct x as [|c x]; simpl; [reflexivity|]. now intros ->. Qed.

Lemma rstrip_by_last (p : ascii -> bool) (x : string) :
  match last_char x with Some c => p c | None => false end = false ->
  Str.rstrip_by p x = x.
Proof.
  induction x as [|c x IH]; [reflexivity|].
  intros Hlast. destruct x as [|d x'].
  - simpl in Hlast |- *. now rewrite Hlast.
  - change (last_char (String c (String d x'))) with (last_char (String d x'))
      in Hlast.
    specialize (IH Hlast).
    change (Str.rstrip_by p (String c (String d x')))
      with (match Str.rstrip_by p (String d x') with
            | EmptyString => if p c then EmptyString else String c EmptyString
            | String a t => String c (String a t)
            end).
    now rewrite IH.
Qed.

Lemma strip_trimmed (chars x : string) :
  trimmed chars x = true -> Str.strip chars x = x.
Proof.
  unfold trimmed, Str.strip. intros Ht.
  apply andb_prop in Ht. destruct Ht as [Hh Hl].
  apply negb_true_iff in Hh, Hl.
  rewrite (lstrip_by_head (fun c => Str.mem c chars) x Hh).
  now apply rstrip_by_last.
Qed.

Lemma clean_fixed_point (x : string) :
  has_digit x = false ->
  has_parenthetical x = false ->
  has_unit_word x = false ->
  has_prep_word x = false ->
  single_spaced x = true ->
  trimmed " ,.-" x = true ->
  _clean_ingredient_for_search x = x.
Proof.
  intros Hd Hp Hu Hw Hs Ht.
  unfold _clean_ingredient_for_search.
  rewrite (leading_numbers_no_digit x Hd).
  rewrite (sub_no_match false parenthetical "" x (no_parenthetical_no_match x Hp)).
  rewrite (sub_no_match true units_pattern "" x (no_unit_word_no_match x Hu)).
  rewrite (remove_prep_words_none x prep_words (no_prep_word_no_match x Hw)).
  unfold sub. rewrite (whitespace_single_spaced x None Hs).
  now apply strip_trimmed.
Qed.

(** C9, as amended.  An ingredient name with no digit, no unit word and
    no preparation word (as whole words, ignoring case), and also no
    parenthetical note, no whitespace other than single spaces inside it,
    and no space, comma, period or hyphen at either end, is returned
    unchanged by the cleaner, and so is the result of cleaning it twice. *)
Theorem clean_is_identity_on_clean_names (x : string) :
  has_digit x = false ->
  has_unit_word x = false ->
  has_prep_word x = false ->
  has_parenthetical x = false ->
  single_spaced x = true ->
  trimmed " ,.-" x = true ->
  _clean_ingredient_for_search x = x
  /\ _clean_ingredient_for_search (_clean_ingredient_for_search x) = x.
Proof.
  intros Hd Hu Hw Hp Hs Ht.
  assert (Hx : _clean_ingredient_for_search x = x)
    by now apply clean_fixed_point.
  now rewrite !Hx.
Qed.

Lemma clean_is_identity_on_clean_names_witness :
  _clean_ingredient_for_search "chicken thighs" = "chicken thighs"
  /\ _clean_ingredient_for_search (_clean_ingredient_for_search "chicken thighs")
     = "chicken thighs".
Proof.
  apply (clean_is_identity_on_clean_names "chicken thighs"); reflexivity.
Defined.

(** C9 as stated fails: ["sea salt (kosher)"] has no digit, no unit word
    and no preparation word, and the cleaner returns ["sea salt"]; a
    trailing period and a doubled space are changed as well. *)
Lemma clean_changes_some_clean_names :
  ~ (forall x,
        has_digit x = false ->
        has_unit_word x = false ->
        has_prep_word x = false ->
        _clean_ingredient_for_search x = x
        /\ _clean_ingredient_for_search (_clean_ingredient_for_search x) = x).
Proof.
  intros Hclaim.
  destruct (Hclaim "sea salt (kosher)" eq_refl eq_refl eq_refl) as [Hclean _].
  vm_compute in Hclean. discriminate.
Qed.

Example clean_sea_salt :
  map _clean_ingredient_for_search
      ["sea salt (kosher)"; "sea salt."; "sea  salt"; "sun-dried tomatoes"]
  = ["sea salt"; "sea salt"; "sea salt"; "sun- tomatoes"].
Proof. reflexivity. Qed.

Section ListFacts.
Context {A : Type}.

Lemma last_two (xs : list A) :
  2 <= List.length xs ->
  exists front x y, xs = (front ++ [x; y])%list /\ Str.last_n 2 xs = [x; y].
Proof.
  unfold Str.last_n.
  induction xs as [|a xs IH]; simpl; intros Hlen; [lia|].
  destruct xs as [|b [|c xs]].
  - simpl in Hlen. lia.
  - exists [], a, b. split; reflexivity.
  - destruct IH as (front & x & y & Hxs & Hlast); [simpl; lia|].
    exists (a :: front), x, y. split.
    + simpl. now rewrite Hxs.
    + simpl in Hlast |- *. rewrite Nat.sub_0_r in Hlast. exact Hlast.
Qed.

End ListFacts.

Lemma app_nonempty_r (s t : string) : t <> EmptyString -> s ++ t <> EmptyString.
Proof. destruct s; simpl; [auto | discriminate]. Qed.

Lemma suggestion_branches (ingredient : string) :
  let cleaned := _clean_ingredient_for_search ingredient in
  let words := Str.split cleaned in
  (2 < List.length words ->
   exists front w1 w2,
     words = (front ++ [w1; w2])%list /\
     _get_search_suggestion ingredient = w1 ++ " " ++ w2)
  /\ (List.length words <= 2 ->
      _get_search_suggestion ingredient = "Try simpler search: " ++ cleaned).
Proof.
  intros cleaned words. unfold _get_search_suggestion.
  fold cleaned. fold words. split; intros Hlen.
  - destruct (Nat.ltb_spec 2 (List.length words)) as [_|H]; [|lia].
    destruct (@last_two string words) as (front & w1 & w2 & Hw & Hlast); [lia|].
    exists front, w1, w2. split; [exact Hw|]. now rewrite Hlast.
  - destruct (Nat.ltb_spec 2 (List.length words)) as [H|_]; [lia|reflexivity].
Qed.

Lemma suggestion_nonempty (ingredient : string) :
  _get_search_suggestion ingredient <> EmptyString.
Proof.
  destruct (suggestion_branches ingredient) as [Hlong Hshort].
  destruct (Nat.lt_ge_cases 2
              (List.length (Str.split (_clean_ingredient_for_search ingredient))))
    as [H|H].
  - destruct (Hlong H) as (front & w1 & w2 & _ & ->).
    apply app_nonempty_r. discriminate.
  - rewrite (Hshort H). discriminate.
Qed.

(** C7. [_get_search_suggestion] first cleans its input; when the cleaned
    text splits into more than two words the result is its last two words
    joined by one space, otherwise it is the cleaned text after the prefix
    ["Try simpler search: "].  The function is defined on every string. *)
Theorem suggestion_last_two_words_or_annotated (ingredient : string) :
  let cleaned := _clean_ingredient_for_search ingredient in
  let words := Str.split cleaned in
  (2 < List.length words ->
   exists front w1 w2,
     words = (front ++ [w1; w2])%list /\
     _get_search_suggestion ingredient = w1 ++ " " ++ w2)
  /\ (List.length words <= 2 ->
      _get_search_suggestion ingredient = "Try simpler search: " ++ cleaned).
Proof. exact (suggestion_branches ingredient). Qed.

Lemma suggestion_last_two_words_or_annotated_witness :
  (exists front w1 w2,
     Str.split (_clean_ingredient_for_search "2 lbs boneless chicken thighs, diced")
       = (front ++ [w1; w2])%list /\
     _get_search_suggestion "2 lbs boneless chicken thighs, diced" = w1 ++ " " ++ w2)
  /\ _get_search_suggestion "1 large onion, diced"
     = "Try simpler search: " ++ _clean_ingredient_for_search "1 large onion, diced".
Proof.
  split.
  - apply (proj1 (suggestion_last_two_words_or_annotated
                    "2 lbs boneless chicken thighs, diced")).
    vm_compute. lia.
  - apply (proj2 (suggestion_last_two_words_or_annotated "1 large onion, diced")).
    vm_compute. lia.
Defined.

(** C8. On ["2 lbs boneless chicken thighs, diced"] the cleaner returns
    ["boneless chicken thighs"], which contains ["chicken thighs"] and none
    of ["2"], ["lbs"], ["diced"]; on ["1 (14 oz) can diced tomatoes"] the
    quantity, the parenthetical and the unit word go in turn and the
    result is ["tomatoes"]. *)
Theorem clean_examples :
  let a := _clean_ingredient_for_search "2 lbs boneless chicken thighs, diced" in
  let b := "1 (14 oz) can diced tomatoes" in
  a = "boneless chicken thighs"
  /\ Str.contains "chicken thighs" a = true
  /\ Str.contains "2" a = false
  /\ Str.contains "lbs" a = false
  /\ Str.contains "diced" a = false
  /\ sub false leading_numbers "" b = "(14 oz) can diced tomatoes"
  /\ sub false parenthetical "" "(14 oz) can diced tomatoes" = " can diced tomatoes"
  /\ sub true units_pattern "" " can diced tomatoes" = "  diced tomatoes"
  /\ _clean_ingredient_for_search b = "tomatoes".
Proof. vm_compute. repeat split; reflexivity. Qed.

(* ================================================================== *)
(** * Properties of [_add_single_item] *)
(* ================================================================== *)

(** Unfolding of the monad, and case analysis on the next oracle answer. *)
Ltac unfold_run :=
  unfold bind, try_except, try_finally, first_page, perform, count,
    text_content, sleep, float, ret, raise in *.

Ltac oracle_case :=
  match goal with
  | |- context [match raises ?b ?l ?a with _ => _ end] =>
      let e := fresh "e" in
      let H := fresh "Hraise" in
      destruct (raises b l a) as [e|] eqn:H
  | |- context [if has_pages ?b ?l then _ else _] =>
      let H := fresh "Hpages" in
      destruct (has_pages b l) eqn:H
  end.

#[local] Hint Unfold extraction_event : core.

Ltac extraction_events :=
  repeat (apply Forall_cons; [simpl; auto|]); try apply Forall_nil;
  try assumption.

Lemma read_name_run (lv : locals) (b : Browser) (l : log) :
  exists (res : outcome locals) (evs : list event),
    read_name lv b l = (res, (evs ++ l)%list) /\ Forall extraction_event evs.
Proof.
  unfold read_name. unfold_run.
  oracle_case; [eexists _, [_]; split; [reflexivity|extraction_events]|].
  destruct (0 <? _); [|eexists _, [_]; split; [reflexivity|extraction_events]].
  oracle_case; eexists _, [_; _]; (split; [reflexivity|extraction_events]).
Qed.

Lemma read_price_run (lv : locals) (b : Browser) (l : log) :
  exists (res : outcome locals) (evs : list event),
    read_price lv b l = (res, (evs ++ l)%list) /\ Forall extraction_event evs.
Proof.
  unfold read_price. unfold_run.
  oracle_case; [eexists _, [_]; split; [reflexivity|extraction_events]|].
  destruct (0 <? _); [|eexists _, [_]; split; [reflexivity|extraction_events]].
  oracle_case; [eexists _, [_; _]; split; [reflexivity|extraction_events]|].
  destruct (truthy _);
    [|eexists _, [_; _]; split; [reflexivity|extraction_events]].
  destruct (search _ _ _);
    [|eexists _, [_; _]; split; [reflexivity|extraction_events]].
  destruct (Lib.float_of_decimal _);
    eexists _, [_; _]; (split; [reflexivity|extraction_events]).
Qed.

(** The extraction block never raises, and calls nothing but the counts
    and texts of the name and price elements. *)
Lemma extraction_run (b : Browser) (l : log) :
  exists (lv : locals) (evs : list event),
    try_pass [read_name; read_price] (None, None) b l = (Ok lv, (evs ++ l)%list)
    /\ Forall extraction_event evs.
Proof.
  simpl.
  destruct (read_name_run (None, None) b l) as (r1 & evs1 & -> & H1).
  destruct r1 as [lv1|e1]; [|now exists (None, None), evs1].
  destruct (read_price_run lv1 b (evs1 ++ l)%list) as (r2 & evs2 & -> & H2).
  rewrite app_assoc.
  destruct r2 as [lv2|e2]; unfold ret;
    eexists _, (evs2 ++ evs1)%list; (split; [reflexivity|]);
    apply Forall_app; now split.
Qed.

Section ItemPathFacts.
Variables (b : Browser) (l : log) (ingredient : string).

Let goto : action := search_call ingredient.
Let wait : action := wait_call.
Let l1 : log := Ev goto None :: l.
Let l2 : log := Ev wait None :: l1.
Let l3 : log := Ev (Count add_btn) None :: l2.

(** [_add_single_item] always returns an item, along one of the paths. *)
Lemma add_single_item_path :
  exists item evs,
    _add_single_item ingredient b l = (Ok item, (evs ++ l)%list)
    /\ item_path b l ingredient item evs.
Proof.
  unfold _add_single_item, add_single_item_body.
  change (Goto (HEB_SEARCH_URL
                  ++ Lib.quote (_clean_ingredient_for_search ingredient))
               30000%N) with goto.
  change (WaitForSelector SELECTORS.product_tile 10000%N) with wait.
  unfold try_except at 1. unfold bind at 1. unfold perform at 1.
  destruct (raises b l goto) as [e|] eqn:Hgoto.
  { eexists _, [_]. split; [reflexivity|]. now apply path_navigation_raises. }
  fold l1.
  unfold bind at 1. unfold try_except at 1. unfold bind at 1. unfold perform at 1.
  destruct (raises b l1 wait) as [e|] eqn:Hwait.
  { unfold ret. eexists _, [_; _]. split; [reflexivity|].
    now apply path_wait_raises. }
  fold l2. unfold ret at 1.
  unfold bind at 1. unfold count at 1.
  destruct (raises b l2 (Count add_btn)) as [e|] eqn:Hcount.
  { unfold ret. eexists _, [_; _; _]. split; [reflexivity|].
    now apply path_count_raises. }
  fold l3.
  destruct (Nat.eqb_spec (count_of b l2 add_btn) 0) as [Hzero|Hpos].
  { unfold ret. eexists _, [_; _; _]. split; [reflexivity|].
    now apply path_no_button. }
  unfold bind at 1.
  destruct (extraction_run b l3) as (lv & evs & Hext & Hevs).
  rewrite Hext.
  unfold bind at 1. unfold perform at 1.
  destruct (raises b (evs ++ l3)%list (Click add_btn)) as [e|] eqn:Hclick.
  { unfold ret.
    exists (error_item ingredient e),
      (Ev (Click add_btn) (Some e) :: evs
         ++ [Ev (Count add_btn) None; Ev wait None; Ev goto None])%list.
    split.
    - unfold l3, l2, l1. simpl. now rewrite <- app_assoc.
    - now apply path_click_raises with (lv := lv). }
  unfold bind, sleep, ret.
  exists (added_item ingredient (fst lv) (snd lv)),
    (Ev Sleep None :: Ev (Click add_btn) None :: evs
       ++ [Ev (Count add_btn) None; Ev wait None; Ev goto None])%list.
  split.
  - unfold l3, l2, l1. simpl. now rewrite <- app_assoc.
  - now apply path_added.
Qed.

End ItemPathFacts.


(** Case analysis of [In ev [ev1; ...; evn]]. *)
Ltac in_cases H :=
  simpl in H;
  repeat match type of H with
         | _ \/ _ => destruct H as [H|H]
         | False => destruct H
         | Ev _ _ = Ev _ _ => first [discriminate H | injection H as <- <-]
         end.



Lemma path_search_term (b : Browser) (l : log) (ingredient : string)
      (item : HEBCartItem) (evs : list event) :
  item_path b l ingredient item evs -> search_term item = ingredient.
Proof. intros Hpath. destruct Hpath; reflexivity. Qed.

Lemma path_first_call (b : Browser) (l : log) (ingredient : string)
      (item : HEBCartItem) (evs : list event) :
  item_path b l ingredient item evs ->
  exists later raised,
    evs = (later ++ [Ev (search_call ingredient) raised])%list.
Proof.
  intros Hpath. destruct Hpath.
  - now exists [], (Some e).
  - now eexists [_], None.
  - now eexists [_; _], None.
  - now eexists [_; _], None.
  - eexists (_ :: evs ++ [_; _])%list, None. simpl. now rewrite <- app_assoc.
  - eexists (_ :: _ :: evs ++ [_; _])%list, None. simpl. now rewrite <- app_assoc.
Qed.




Example wait_fails_with_a_connection_error :
  fst (_add_single_item "1 gallon milk" (Stub.no_results Stub.connection_reset) [])
  = Ok {| search_term := "1 gallon milk"; product_name := None; price := None;
          quantity := 1; success := false; error := None;
          suggestion := Some "Try simpler search: milk" |}.
Proof. reflexivity. Qed.

(** C3. When the search navigation returned and the wait for a product
    tile raised (the timeout), or the wait returned and the add-to-cart
    control was counted zero times, [_add_single_item] returns
    [success=False] with [error] unset and [suggestion] the result of
    [_get_search_suggestion] on the raw ingredient, which is not the empty
    string; that item is none of the error items, and the orchestrator
    counts it as not found. *)
Theorem wait_timeout_gives_suggestion
        (b : Browser) (l : log) (ingredient : string) :
  let l1 := Ev (search_call ingredient) None :: l in
  let l2 := Ev wait_call None :: l1 in
  raises b l (search_call ingredient) = None ->
  (exists e, raises b l1 wait_call = Some e)
  \/ (raises b l1 wait_call = None
      /\ raises b l2 (Count add_btn) = None
      /\ count_of b l2 add_btn = 0) ->
  exists item l',
    _add_single_item ingredient b l = (Ok item, l')
    /\ success item = false
    /\ error item = None
    /\ suggestion item = Some (_get_search_suggestion ingredient)
    /\ _get_search_suggestion ingredient <> EmptyString
    /\ (forall e, item <> error_item ingredient e)
    /\ counts_as_not_found item = true
    /\ counts_as_error item = false.
Proof.
  intros l1 l2 Hnav Hcase.
  destruct (add_single_item_path b l ingredient) as (item & evs & Hrun & Hpath).
  exists item, (evs ++ l)%list. split; [exact Hrun|].
  assert (Hitem : item = not_found_item ingredient).
  { destruct Hpath; try reflexivity; try congruence;
      destruct Hcase as [[e' He']|(Hw & Hc & Hz)]; subst l1 l2; congruence. }
  subst item. simpl. repeat split.
  - apply suggestion_nonempty.
  - intros e. discriminate.
Qed.

Lemma wait_timeout_gives_suggestion_witness :
  exists item l',
    _add_single_item "2 lbs boneless chicken thighs, diced"
                     (Stub.no_results Stub.wait_timeout) [] = (Ok item, l')
    /\ success item = false
    /\ error item = None
    /\ suggestion item
       = Some (_get_search_suggestion "2 lbs boneless chicken thighs, diced")
    /\ _get_search_suggestion "2 lbs boneless chicken thighs, diced" <> EmptyString
    /\ (forall e, item <> error_item "2 lbs boneless chicken thighs, diced" e)
    /\ counts_as_not_found item = true
    /\ counts_as_error item = false.
Proof.
  apply (wait_timeout_gives_suggestion (Stub.no_results Stub.wait_timeout) []
           "2 lbs boneless chicken thighs, diced").
  - reflexivity.
  - left. exists Stub.wait_timeout. reflexivity.
Defined.

Example suggestion_for_chicken :
  _add_single_item "2 lbs boneless chicken thighs, diced"
                   (Stub.no_results Stub.wait_timeout) []
  = (Ok {| search_term := "2 lbs boneless chicken thighs, diced";
           product_name := None; price := None; quantity := 1;
           success := false; error := None;
           suggestion := Some "chicken thighs" |},
     [Ev wait_call (Some Stub.wait_timeout);
      Ev (Goto "https://www.heb.com/search/?q=boneless%20chicken%20thighs" 30000%N)
         None]).
Proof. reflexivity. Qed.

(** C4. [_add_single_item] first navigates to the search URL followed by
    the URL-encoded cleaned ingredient, and on every path the item it
    returns carries the raw ingredient as [search_term]. *)
Theorem search_term_is_raw_ingredient
        (b : Browser) (l : log) (ingredient : string) :
  exists item later raised,
    _add_single_item ingredient b l
    = (Ok item,
       (later
          ++ Ev (Goto (HEB_SEARCH_URL
                         ++ Lib.quote (_clean_ingredient_for_search ingredient))
                      30000%N) raised
          :: l)%list)
    /\ search_term item = ingredient.
Proof.
  destruct (add_single_item_path b l ingredient) as (item & evs & Hrun & Hpath).
  destruct (path_first_call _ _ _ _ _ Hpath) as (later & raised & ->).
  exists item, later, raised. split.
  - rewrite Hrun. now rewrite <- app_assoc.
  - eapply path_search_term; eauto.
Qed.

(* ================================================================== *)
(** * Properties of [add_items_to_cart] *)
(* ================================================================== *)

Lemma classes_partition (item : HEBCartItem) :
  exactly_one (counts_as_added item) (counts_as_error item)
              (counts_as_not_found item) = true.
Proof.
  unfold counts_as_added, counts_as_error, counts_as_not_found.
  destruct (success item), (truthy (error item)); reflexivity.
Qed.

Lemma record_all_fields (new : list HEBCartItem) :
  forall result,
    items (record_all new result) = (items result ++ new)%list
    /\ total_added (record_all new result)
       = total_added result + count_if counts_as_added new
    /\ total_errors (record_all new result)
       = total_errors result + count_if counts_as_error new
    /\ total_not_found (record_all new result)
       = total_not_found result + count_if counts_as_not_found new
    /\ cart_total (record_all new result) = cart_total result
    /\ cart_url (record_all new result) = cart_url result.
Proof.
  unfold record_all, count_if.
  induction new as [|item new IH]; intros result; simpl.
  - rewrite app_nil_r, !Nat.add_0_r. repeat split.
  - destruct (IH (record_item result item)) as (Hi & Ha & He & Hn & Ht & Hu).
    rewrite Hi, Ha, He, Hn, Ht, Hu.
    unfold record_item, counts_as_added, counts_as_error, counts_as_not_found.
    destruct (success item), (truthy (error item)); simpl;
      rewrite <- app_assoc; simpl; repeat split; lia.
Qed.

Lemma process_items_run (ingredients : list string) :
  forall (result : HEBCartResult) (b : Browser) (l : log),
  exists new evs,
    process_items ingredients result b l
    = (Ok (record_all new result), (evs ++ l)%list)
    /\ map search_term new = ingredients.
Proof.
  induction ingredients as [|ingredient more IH]; intros result b l.
  - exists [], []. split; reflexivity.
  - simpl. unfold bind at 1.
    destruct (add_single_item_path b l ingredient) as (item & evs & -> & Hpath).
    unfold bind at 1. unfold sleep at 1.
    destruct (IH (record_item result item) b (Ev Sleep None :: evs ++ l)%list)
      as (new & evs' & -> & Hmap).
    exists (item :: new), (evs' ++ Ev Sleep None :: evs)%list. split.
    + simpl. now rewrite <- app_assoc.
    + simpl. now rewrite (path_search_term _ _ _ _ _ Hpath), Hmap.
Qed.

Section ProbeFacts.
Variables (b : Browser) (l : log).

Let goto : action := Goto HEB_CART_URL 30000%N.
Let settle : action := WaitForLoadState "networkidle" 10000%N.
Let l1 : log := Ev goto None :: l.
Let l2 : log := Ev settle None :: l1.
Let l3 : log := Ev (Count total_element) None :: l2.

(** The probe returns, with the result it was given or with that result
    and a cart total; a failed probe returns the result it was given. *)
Lemma cart_total_probe_run (result : HEBCartResult) :
  exists final evs,
    cart_total_probe result b l = (Ok final, (evs ++ l)%list)
    /\ (final = result \/ exists total, final = set_cart_total result total)
    /\ (probe_fails b l -> final = result).
Proof.
  unfold cart_total_probe, cart_total_body.
  change (Goto HEB_CART_URL 30000%N) with goto.
  change (WaitForLoadState "networkidle" 10000%N) with settle.
  unfold try_except, bind at 1, perform at 1.
  destruct (raises b l goto) as [e|] eqn:Hgoto.
  { unfold ret. eexists _, [_]. split; [reflexivity|]. split; auto. }
  fold l1. unfold bind at 1, perform at 1.
  destruct (raises b l1 settle) as [e|] eqn:Hsettle.
  { unfold ret. eexists _, [_; _]. split; [reflexivity|]. split; auto. }
  fold l2. unfold bind at 1, count at 1.
  destruct (raises b l2 (Count total_element)) as [e|] eqn:Hcount.
  { unfold ret. eexists _, [_; _; _]. split; [reflexivity|]. split; auto. }
  fold l3.
  destruct (Nat.ltb_spec 0 (count_of b l2 total_element)) as [Hpos|Hzero].
  2:{ unfold ret. eexists _, [_; _; _]. split; [reflexivity|]. split; auto. }
  unfold bind at 1, text_content at 1.
  destruct (raises b l3 (TextContent total_element)) as [e|] eqn:Htext.
  { unfold ret. eexists _, [_; _; _; _]. split; [reflexivity|]. split; auto. }
  assert (Hfail : probe_fails b l -> readable_total (text_of b l3 total_element) = None).
  { intros Hf. destruct Hf; unfold l3, l2, l1, settle, goto in *;
      try congruence. lia. }
  unfold readable_total in Hfail.
  destruct (truthy (text_of b l3 total_element)).
  2:{ unfold ret. eexists _, [_; _; _; _]. split; [reflexivity|]. split; auto. }
  destruct (search false amount_pattern _) as [m|].
  2:{ unfold ret. eexists _, [_; _; _; _]. split; [reflexivity|]. split; auto. }
  unfold bind, float.
  destruct (Lib.float_of_decimal (group1 m)) as [total|].
  - unfold ret. eexists _, [_; _; _; _]. split; [reflexivity|]. split.
    + right. now exists total.
    + intros Hf. specialize (Hfail Hf). discriminate.
  - unfold raise, ret. eexists _, [_; _; _; _]. split; [reflexivity|].
    split; auto.
Qed.

End ProbeFacts.

(** A run of the orchestrator that returns: the session was opened, a
    page was there or was created, and the result is the loop's record
    of one item per ingredient, with or without a cart total. *)
Lemma add_items_to_cart_returns
      (ingredients : list string) (b : Browser) (l : log)
      (final : HEBCartResult) (l_end : log) :
  add_items_to_cart ingredients b l = (Ok final, l_end) ->
  exists new,
    map search_term new = ingredients
    /\ (final = record_all new empty_result
        \/ exists total, final = set_cart_total (record_all new empty_result) total).
Proof.
  unfold add_items_to_cart.
  unfold bind at 1, perform at 1.
  destruct (raises b l (LaunchContext false)); [discriminate|].
  set (l0 := Ev (LaunchContext false) None :: l).
  assert (Hloop : forall l1,
             (result <- process_items ingredients empty_result ;;
              cart_total_probe result) b l1 = (Ok final, l_end) ->
             exists new,
               map search_term new = ingredients
               /\ (final = record_all new empty_result
                   \/ exists total,
                       final = set_cart_total (record_all new empty_result) total)).
  { intros l1. unfold bind.
    destruct (process_items_run ingredients empty_result b l1)
      as (new & evs & -> & Hmap).
    destruct (cart_total_probe_run b (evs ++ l1)%list (record_all new empty_result))
      as (final' & evs' & -> & Hfinal & _).
    intros [= <- _]. now exists new. }
  unfold try_except, bind at 1.
  destruct (first_page b l0) as [[[]|e] l0']; [|discriminate].
  specialize (Hloop l0').
  destruct ((result <- process_items ingredients empty_result ;;
             cart_total_probe result) b l0') as [[r|e] l'];
    [|discriminate].
  intros [= <- <-]. now apply Hloop.
Qed.

Lemma classes_sum (xs : list HEBCartItem) :
  count_if counts_as_added xs + count_if counts_as_not_found xs
  + count_if counts_as_error xs = List.length xs.
Proof.
  unfold count_if. induction xs as [|x xs IH]; [reflexivity|]. simpl.
  pose proof (classes_partition x) as Hx. unfold exactly_one in Hx.
  destruct (counts_as_added x), (counts_as_error x), (counts_as_not_found x);
    simpl in *; try discriminate; lia.
Qed.

(** X23. When [add_items_to_cart] returns, the three counters add up to
    the number of items, which is the number of ingredients, and each
    counter is the number of items of its class, as the [if/elif/else] of
    the loop tells them apart: [success] true for [total_added];
    [success] false and [error] a non-empty string for [total_errors];
    [success] false otherwise for [total_not_found].  Every item is in
    exactly one class. *)
Theorem counters_count_their_class
        (ingredients : list string) (b : Browser) (l : log)
        (final : HEBCartResult) (l_end : log) :
  add_items_to_cart ingredients b l = (Ok final, l_end) ->
  total_added final + total_not_found final + total_errors final
  = List.length (items final)
  /\ List.length (items final) = List.length ingredients
  /\ total_added final = count_if counts_as_added (items final)
  /\ total_errors final = count_if counts_as_error (items final)
  /\ total_not_found final = count_if counts_as_not_found (items final)
  /\ forall item, In item (items final) ->
       exactly_one (counts_as_added item) (counts_as_error item)
                   (counts_as_not_found item) = true.
Proof.
  intros Hrun.
  destruct (add_items_to_cart_returns _ _ _ _ _ Hrun) as (new & Hmap & Hfinal).
  destruct (record_all_fields new empty_result) as (Hi & Ha & He & Hn & _ & _).
  simpl in Hi, Ha, He, Hn.
  assert (Hfields : items final = new
                    /\ total_added final = count_if counts_as_added new
                    /\ total_errors final = count_if counts_as_error new
                    /\ total_not_found final = count_if counts_as_not_found new).
  { destruct Hfinal as [->|[total ->]]; simpl; auto. }
  destruct Hfields as (-> & -> & -> & ->).
  repeat split; auto using classes_sum.
  - rewrite <- Hmap. now rewrite length_map.
  - intros item _. apply classes_partition.
Qed.

Lemma counters_count_their_class_witness :
  let final := record_all [error_item "1 gallon milk" Stub.connection_reset]
                          empty_result in
  total_added final + total_not_found final + total_errors final
  = List.length (items final)
  /\ List.length (items final) = List.length ["1 gallon milk"]
  /\ total_added final = count_if counts_as_added (items final)
  /\ total_errors final = count_if counts_as_error (items final)
  /\ total_not_found final = count_if counts_as_not_found (items final)
  /\ forall item, In item (items final) ->
       exactly_one (counts_as_added item) (counts_as_error item)
                   (counts_as_not_found item) = true.
Proof.
  apply (@counters_count_their_class ["1 gallon milk"]
           (Stub.navigation_fails Stub.connection_reset) []
           (record_all [error_item "1 gallon milk" Stub.connection_reset]
                       empty_result)
           [Ev (Goto HEB_CART_URL 30000%N) (Some Stub.connection_reset);
            Ev Sleep None;
            Ev (search_call "1 gallon milk") (Some Stub.connection_reset);
            Ev (LaunchContext false) None]).
  reflexivity.
Defined.

(** C1 (a defect of the code).  For the ingredients [["1 gallon milk"]]
    and a browser whose navigation raises an exception with an empty
    text, the run returns one failed item whose [error] is set, to the
    empty string, and counts it as not found: [total_errors] is 0 where
    one failed item has [error] set, and [total_not_found] is 1 where no
    failed item has [error] unset.  The same exception with a text is
    counted in [total_errors]. *)
Theorem empty_error_text_is_counted_as_not_found :
  (exists final l_end,
      add_items_to_cart ["1 gallon milk"] (Stub.navigation_fails Stub.silent) []
      = (Ok final, l_end)
      /\ items final = [error_item "1 gallon milk" Stub.silent]
      /\ error (error_item "1 gallon milk" Stub.silent) = Some EmptyString
      /\ count_if failed_with_error_set (items final) = 1
      /\ total_errors final = 0
      /\ count_if failed_with_error_unset (items final) = 0
      /\ total_not_found final = 1)
  /\ (exists final l_end,
         add_items_to_cart ["1 gallon milk"]
           (Stub.navigation_fails Stub.connection_reset) []
         = (Ok final, l_end)
         /\ items final = [error_item "1 gallon milk" Stub.connection_reset]
         /\ total_errors final = 1
         /\ total_not_found final = 0).
Proof.
  split; eexists _, _; (split; [reflexivity|]); repeat split.
Qed.

Example run_with_silent_exception :
  fst (add_items_to_cart ["1 gallon milk"] (Stub.navigation_fails Stub.silent) [])
  = Ok {| items := [ {| search_term := "1 gallon milk"; product_name := None;
                        price := None; quantity := 1; success := false;
                        error := Some ""; suggestion := None |} ];
          total_added := 0; total_not_found := 1; total_errors := 0;
          cart_total := None; cart_url := "https://www.heb.com/cart" |}.
Proof. reflexivity. Qed.



(** C6. Once the session is open and the loop has collected its result,
    the orchestrator returns (no exception of the probe comes out), with
    the items and the three counters the loop collected; when the probe
    fails (an exception of the navigation, of the wait or of an element
    query, no total element, or a total text that does not read as a
    number), [cart_total] is unset and the result is the collected one. *)
Theorem failed_probe_keeps_collected_result
        (ingredients : list string) (b : Browser) (l l0 l_loop : log)
        (collected : HEBCartResult) :
  raises b l (LaunchContext false) = None ->
  first_page b (Ev (LaunchContext false) None :: l) = (Ok tt, l0) ->
  process_items ingredients empty_result b l0 = (Ok collected, l_loop) ->
  exists final evs,
    add_items_to_cart ingredients b l = (Ok final, (evs ++ l_loop)%list)
    /\ items final = items collected
    /\ total_added final = total_added collected
    /\ total_not_found final = total_not_found collected
    /\ total_errors final = total_errors collected
    /\ (probe_fails b l_loop -> cart_total final = None /\ final = collected).
Proof.
  intros Hlaunch Hpage Hloop.
  destruct (cart_total_probe_run b l_loop collected)
    as (final & evs & Hprobe & Hfinal & Hfail).
  exists final, evs. split.
  - unfold add_items_to_cart.
    unfold bind at 1, perform at 1. rewrite Hlaunch.
    unfold try_except, bind at 1. rewrite Hpage.
    unfold bind. rewrite Hloop, Hprobe. reflexivity.
  - assert (Hunset : cart_total collected = None).
    { destruct (process_items_run ingredients empty_result b l0)
        as (new & evs' & Hrun & _).
      rewrite Hloop in Hrun. injection Hrun as -> _.
      now destruct (record_all_fields new empty_result) as (_ & _ & _ & _ & -> & _). }
    assert (Hframe : items final = items collected
                     /\ total_added final = total_added collected
                     /\ total_not_found final = total_not_found collected
                     /\ total_errors final = total_errors collected).
    { destruct Hfinal as [->|[total ->]]; simpl; auto. }
    destruct Hframe as (Hi & Ha & Hn & He).
    repeat (split; [assumption|]).
    intros Hf. rewrite (Hfail Hf). now split.
Qed.

Lemma failed_probe_keeps_collected_result_witness :
  exists final evs,
    add_items_to_cart ["2 cups milk"] (Stub.cart_page_down Stub.connection_reset) []
    = (Ok final, (evs ++ Stub.l_loop)%list)
    /\ items final = items Stub.collected
    /\ total_added final = 1
    /\ cart_total final = None.
Proof.
  destruct (failed_probe_keeps_collected_result ["2 cups milk"]
              (Stub.cart_page_down Stub.connection_reset)
              [] [Ev (LaunchContext false) None]
              Stub.l_loop Stub.collected)
    as (final & evs & Hrun & Hitems & Hadded & _ & _ & Hfail).
  - reflexivity.
  - reflexivity.
  - reflexivity.
  - exists final, evs. repeat split; try assumption.
    apply Hfail. apply probe_navigation_raises with (e := Stub.connection_reset).
    reflexivity.
Defined.

(* ================================================================== *)
(** * Properties of [check_session_status] *)
(* ================================================================== *)

Ltac close_with_events :=
  first [ eexists _, []; split; [reflexivity|]
        | eexists _, [_]; split; [reflexivity|]
        | eexists _, [_; _]; split; [reflexivity|]
        | eexists _, [_; _; _]; split; [reflexivity|]
        | eexists _, [_; _; _; _]; split; [reflexivity|]
        | eexists _, [_; _; _; _; _]; split; [reflexivity|]
        | eexists _, [_; _; _; _; _; _]; split; [reflexivity|]
        | eexists _, [_; _; _; _; _; _; _]; split; [reflexivity|]
        | eexists _, [_; _; _; _; _; _; _; _]; split; [reflexivity|]
        | eexists _, [_; _; _; _; _; _; _; _; _]; split; [reflexivity|] ].

(** The exception of the goal is the one in the message, or a cleanup
    call raised after it. *)
Ltac same_or_cleanup_raised :=
  let Hc := fresh "Hc" in
  intros Hc;
  first
    [ reflexivity
    | match goal with
      | |- ?e1 = _ =>
          destruct (Hc e1) as [Hclose Hstop]; exfalso;
          first [ apply Hclose; simpl; tauto | apply Hstop; simpl; tauto ]
      end ].

(** The read of the profile directory, case by case: the goal is a
    disjunction whose left side is the read raising.  What is left is the
    empty directory, the directory with an entry and the absent one. *)
Ltac session_read_cases b l :=
  unfold check_session_status, session_dir_read, session_dir_nonempty, bind;
  cbv beta zeta;
  destruct (raises b l PathExists) eqn:?;
  [ left; now eexists _, _ |];
  destruct (session_dir b) as [[|? ?]|];
  [ destruct (raises b (Ev PathExists None :: l) IterDir) eqn:?;
    [ left; now eexists _, _ |]
  | destruct (raises b (Ev PathExists None :: l) IterDir) eqn:?;
    [ left; now eexists _, _ |]
  | ];
  right; cbv beta iota delta [negb].

(** The read of the directory raises and the check raises with it, or
    the read returns and the check returns a status; when a call raised
    then, the status is the unverified one, with the text of the
    exception that reached the handler: the last one raised, which is the
    first one unless a cleanup call raised too. *)
Lemma check_session_status_run (b : Browser) (l : log) :
  (exists e l',
      session_dir_read b l = (Raise e, l')
      /\ check_session_status b l = (Raise e, l'))
  \/ (exists l0,
         session_dir_read b l = (Ok (session_dir_nonempty b), l0)
         /\ (l0 = Ev PathExists None :: l
             \/ l0 = Ev IterDir None :: Ev PathExists None :: l)
         /\ exists status evs,
             check_session_status b l = (Ok status, (evs ++ l)%list)
             /\ (session_dir_nonempty b = false ->
                 status = no_session /\ l0 = (evs ++ l)%list)
             /\ forall a e0,
                 In (Ev a (Some e0)) evs ->
                 exists e,
                   last_raised evs = Some e
                   /\ status = unverified e
                   /\ (cleanup_returned evs -> e = e0)).
Proof.
  unfold unverified, no_session.
  session_read_cases b l.
  1,3: eexists; (split; [reflexivity|]); (split; [auto|]);
       unfold ret; close_with_events;
       (split; [intros _; now split|]);
       intros a e0 Hin; in_cases Hin.
  eexists. split; [reflexivity|]. split; [auto|].
  unfold_run. cbv beta iota.
  repeat (first [oracle_case | destruct (0 <? _)]; cbv beta iota);
    close_with_events;
    (split; [discriminate|]);
    intros ? ? Hin; in_cases Hin;
    eexists; (split; [reflexivity|]); (split; [reflexivity|]);
    same_or_cleanup_raised.
Qed.

(** C5, as amended.  Whenever the read of the profile directory returns:
    when the directory is absent or empty the check returns
    [logged_in=False, session_exists=False] and the only calls made are
    the reads of the directory, no browser is opened; the check returns a
    status whatever the browser does; when a call of the browser-based
    check raised, the status is [logged_in=False, session_exists=True]
    and [message] ends with the text of the exception that reached the
    handler: the last one raised, which is the failure itself when the
    cleanup calls returned. *)
Theorem session_check_contains_failures
        (b : Browser) (l : log) (session_exists0 : bool) (l0 : log) :
  session_dir_read b l = (Ok session_exists0, l0) ->
  (session_dir b = None \/ session_dir b = Some [] ->
   check_session_status b l
   = (Ok {| logged_in := false; session_exists := false;
            message := "No HEB session found. You'll need to log in." |}, l0)
   /\ (l0 = Ev PathExists None :: l
       \/ l0 = Ev IterDir None :: Ev PathExists None :: l))
  /\ (exists status l', check_session_status b l = (Ok status, l'))
  /\ (forall status evs a e0,
         check_session_status b l = (Ok status, (evs ++ l)%list) ->
         In (Ev a (Some e0)) evs ->
         exists e,
           last_raised evs = Some e
           /\ (cleanup_returned evs -> e = e0)
           /\ logged_in status = false
           /\ session_exists status = true
           /\ message status = "Could not verify session status: " ++ exn_str e).
Proof.
  intros Hread.
  destruct (check_session_status_run b l)
    as [(e & l' & Hraise & _) | (l1 & Hread' & Hshape & status & evs & Hrun & Hcheap & Hraised)].
  { rewrite Hread in Hraise. discriminate. }
  rewrite Hread in Hread'. injection Hread' as _ <-.
  split; [|split].
  - intros Hdir.
    assert (Hempty : session_dir_nonempty b = false)
      by (unfold session_dir_nonempty; destruct Hdir as [-> | ->]; reflexivity).
    destruct (Hcheap Hempty) as [-> ->]. now split.
  - now exists status, (evs ++ l)%list.
  - intros status' evs' a e0 Hrun' Hin.
    rewrite Hrun in Hrun'. injection Hrun' as <- Hlog.
    apply app_inv_tail in Hlog. subst evs'.
    destruct (Hraised a e0 Hin) as (e & Hlast & -> & Hsame).
    exists e. now repeat split.
Qed.

Lemma session_check_contains_failures_witness :
  check_session_status Stub.no_profile []
  = (Ok {| logged_in := false; session_exists := false;
           message := "No HEB session found. You'll need to log in." |},
     [Ev PathExists None])
  /\ exists e,
      last_raised [Ev StopPlaywright None; Ev CloseContext None;
                   Ev (Goto HEB_BASE_URL 30000%N) (Some Stub.connection_reset);
                   Ev (LaunchContext true) None;
                   Ev IterDir None; Ev PathExists None] = Some e
      /\ e = Stub.connection_reset
      /\ logged_in (unverified Stub.connection_reset) = false
      /\ session_exists (unverified Stub.connection_reset) = true
      /\ message (unverified Stub.connection_reset)
         = "Could not verify session status: " ++ exn_str e.
Proof.
  split.
  - apply (proj1 (session_check_contains_failures Stub.no_profile []
                    false [Ev PathExists None] eq_refl)).
    left. reflexivity.
  - destruct (proj2 (proj2 (session_check_contains_failures
                              (Stub.navigation_fails Stub.connection_reset) []
                              true [Ev IterDir None; Ev PathExists None] eq_refl))
                (unverified Stub.connection_reset)
                [Ev StopPlaywright None; Ev CloseContext None;
                 Ev (Goto HEB_BASE_URL 30000%N) (Some Stub.connection_reset);
                 Ev (LaunchContext true) None;
                 Ev IterDir None; Ev PathExists None]
                (Goto HEB_BASE_URL 30000%N) Stub.connection_reset)
      as (e & Hlast & Hsame & Hstatus).
    + reflexivity.
    + simpl. right. right. left. reflexivity.
    + exists e. split; [exact Hlast|]. split; [|exact Hstatus].
      apply Hsame. intros e'. split; intros Hin; simpl in Hin;
        repeat (destruct Hin as [Hin|Hin]; [discriminate Hin|]); exact Hin.
Defined.

(** C5 as stated fails twice.  The read of the profile directory is made
    before the [try]: when the path is a file the listing raises and the
    check raises with it.  And when the navigation failed and closing the
    context failed after it, the message carries the text of the second
    failure, not of the navigation's. *)
Lemma session_check_raises_and_masks :
  ~ (forall b l, exists status l', check_session_status b l = (Ok status, l'))
  /\ ~ (forall b l status evs a e0,
          check_session_status b l = (Ok status, (evs ++ l)%list) ->
          In (Ev a (Some e0)) evs -> is_navigation a = true ->
          message status = "Could not verify session status: " ++ exn_str e0).
Proof.
  split.
  - intros Hclaim.
    destruct (Hclaim Stub.profile_is_a_file []) as (status & l' & Hrun).
    vm_compute in Hrun. discriminate.
  - intros Hclaim.
    specialize (Hclaim Stub.site_down_and_close_fails []
                  (unverified Stub.target_closed)
                  [Ev CloseContext (Some Stub.target_closed);
                   Ev (Goto HEB_BASE_URL 30000%N) (Some Stub.connection_reset);
                   Ev (LaunchContext true) None;
                   Ev IterDir None; Ev PathExists None]
                  (Goto HEB_BASE_URL 30000%N) Stub.connection_reset
                  eq_refl).
    simpl in Hclaim.
    specialize (Hclaim (or_intror (or_introl eq_refl)) eq_refl).
    discriminate.
Qed.

Example session_check_when_site_is_down :
  fst (check_session_status (Stub.navigation_fails Stub.connection_reset) [])
  = Ok {| logged_in := false; session_exists := true;
          message := "Could not verify session status: Page.goto: net::ERR_CONNECTION_RESET" |}.
Proof. reflexivity. Qed.

Example session_check_when_profile_is_a_file :
  check_session_status Stub.profile_is_a_file []
  = (Raise Stub.not_a_directory,
     [Ev IterDir (Some Stub.not_a_directory); Ev PathExists None]).
Proof. reflexivity. Qed.

(* ================================================================== *)
(** * The calls a run makes *)
(* ================================================================== *)

Lemma calls_app (kind : action -> bool) (evs evs' : list event) :
  calls kind (evs ++ evs')%list = calls kind evs + calls kind evs'.
Proof. unfold calls, count_if. now rewrite filter_app, length_app. Qed.

Lemma calls_cons (kind : action -> bool) (ev : event) (evs : list event) :
  calls kind (ev :: evs)
  = (if kind (ev_action ev) then 1 else 0) + calls kind evs.
Proof. unfold calls, count_if. simpl. now destruct (kind (ev_action ev)). Qed.

(** The extraction block makes no call of a kind that excludes counts and
    text reads. *)
Lemma extraction_calls (kind : action -> bool) (evs : list event) :
  (forall loc, kind (Count loc) = false) ->
  (forall loc, kind (TextContent loc) = false) ->
  Forall extraction_event evs ->
  calls kind evs = 0.
Proof.
  intros Hcount Htext Hall.
  induction Hall as [|ev evs Hev _ IH]; [reflexivity|].
  rewrite calls_cons, IH.
  destruct Hev as [-> | [-> | [-> | ->]]]; now rewrite ?Hcount, ?Htext.
Qed.

(** Along every path [_add_single_item] navigates once, sleeps once when
    it added the item and not otherwise, and does not close the session. *)
Lemma item_path_calls (b : Browser) (l : log) (ingredient : string)
      (item : HEBCartItem) (evs : list event) :
  item_path b l ingredient item evs ->
  calls is_navigation evs = 1
  /\ calls is_sleep evs = (if success item then 1 else 0)
  /\ calls is_teardown evs = 0.
Proof.
  intros Hpath.
  destruct Hpath as [e _|e _ _|e _ _ _|_ _ _ _
                     |e lv evs _ _ _ _ _ Hall _|lv evs _ _ _ _ _ Hall _];
    try (repeat split; reflexivity).
  - rewrite !calls_cons, !calls_app.
    rewrite !(extraction_calls _ evs) by (try exact Hall; reflexivity).
    repeat split; reflexivity.
  - rewrite !calls_cons, !calls_app.
    rewrite !(extraction_calls _ evs) by (try exact Hall; reflexivity).
    repeat split; reflexivity.
Qed.

Lemma count_if_app {A} (p : A -> bool) (xs ys : list A) :
  count_if p (xs ++ ys)%list = count_if p xs + count_if p ys.
Proof. unfold count_if. now rewrite filter_app, length_app. Qed.

(** The loop: one item per ingredient in order, one navigation per
    ingredient, one sleep per ingredient and one more per added item. *)
Lemma process_items_calls (ingredients : list string) :
  forall (result : HEBCartResult) (b : Browser) (l : log),
  exists new evs,
    process_items ingredients result b l
    = (Ok (record_all new result), (evs ++ l)%list)
    /\ map search_term new = ingredients
    /\ calls is_navigation evs = List.length ingredients
    /\ calls is_sleep evs
       = List.length ingredients + count_if counts_as_added new
    /\ calls is_teardown evs = 0.
Proof.
  induction ingredients as [|ingredient more IH]; intros result b l.
  - exists [], []. repeat split; reflexivity.
  - simpl process_items. unfold bind at 1.
    destruct (add_single_item_path b l ingredient) as (item & evs & -> & Hpath).
    unfold bind at 1. unfold sleep at 1.
    destruct (IH (record_item result item) b (Ev Sleep None :: evs ++ l)%list)
      as (new & evs' & -> & Hmap & Hnav & Hsleep & Htear).
    destruct (item_path_calls _ _ _ _ _ Hpath) as (Hnav1 & Hsleep1 & Htear1).
    exists (item :: new), (evs' ++ Ev Sleep None :: evs)%list.
    split; [simpl; now rewrite <- app_assoc|].
    split; [simpl; now rewrite (path_search_term _ _ _ _ _ Hpath), Hmap|].
    rewrite !calls_app, !calls_cons, Hnav, Hsleep, Htear, Hnav1, Hsleep1, Htear1.
    change (item :: new) with ([item] ++ new)%list. rewrite count_if_app.
    unfold count_if at 2. simpl. unfold counts_as_added at 2.
    destruct (success item); simpl; repeat split; lia.
Qed.

(** The probe navigates once and neither sleeps nor closes the session. *)
Lemma cart_total_probe_calls (b : Browser) (l : log) (result : HEBCartResult) :
  exists final evs,
    cart_total_probe result b l = (Ok final, (evs ++ l)%list)
    /\ calls is_navigation evs = 1
    /\ calls is_sleep evs = 0
    /\ calls is_teardown evs = 0.
Proof.
  unfold cart_total_probe, cart_total_body. unfold_run. cbv beta iota.
  repeat (first [ oracle_case
                | destruct (0 <? _)
                | destruct (truthy _)
                | destruct (search false amount_pattern _)
                | destruct (Lib.float_of_decimal _) ];
          cbv beta iota);
    close_with_events; repeat split; reflexivity.
Qed.

(** Every run of the orchestrator, returning or raising: the calls it
    made. *)
Lemma add_items_to_cart_calls (ingredients : list string) (b : Browser) (l : log) :
  exists out evs,
    add_items_to_cart ingredients b l = (out, (evs ++ l)%list)
    /\ calls is_teardown evs = 0
    /\ forall final,
         out = Ok final ->
         calls is_navigation evs = List.length ingredients + 1
         /\ calls is_sleep evs = List.length ingredients + total_added final.
Proof.
  unfold add_items_to_cart.
  unfold bind at 1, perform at 1.
  destruct (raises b l (LaunchContext false)) as [e|].
  { eexists _, [_]. split; [reflexivity|]. split; [reflexivity|].
    intros final [=]. }
  set (l0 := Ev (LaunchContext false) None :: l).
  unfold try_except, bind at 1.
  assert (Hpage : exists evs0,
             (first_page b l0 = (Ok tt, (evs0 ++ l0)%list)
              \/ exists e, first_page b l0 = (Raise e, (evs0 ++ l0)%list))
             /\ calls is_navigation evs0 = 0 /\ calls is_sleep evs0 = 0
             /\ calls is_teardown evs0 = 0).
  { unfold first_page, perform. destruct (has_pages b l0).
    - exists []. split; [now left|repeat split].
    - destruct (raises b l0 NewPage) as [e|].
      + eexists [_]. split; [right; now exists e|repeat split].
      + eexists [_]. split; [now left|repeat split]. }
  destruct Hpage as (evs0 & [-> | [e ->]] & Hn0 & Hs0 & Ht0).
  2:{ unfold raise. exists (Raise e), (evs0 ++ [Ev (LaunchContext false) None])%list.
      split; [unfold l0; now rewrite <- app_assoc|].
      split; [rewrite calls_app, Ht0; reflexivity|intros final [=]]. }
  unfold bind.
  destruct (process_items_calls ingredients empty_result b (evs0 ++ l0)%list)
    as (new & evs1 & -> & Hmap & Hn1 & Hs1 & Ht1).
  destruct (cart_total_probe_run b (evs1 ++ evs0 ++ l0)%list
              (record_all new empty_result))
    as (final' & evs2' & Hprobe & Hfinal & _).
  destruct (cart_total_probe_calls b (evs1 ++ evs0 ++ l0)%list
              (record_all new empty_result))
    as (final & evs2 & Hprobe2 & Hn2 & Hs2 & Ht2).
  rewrite Hprobe2 in Hprobe. injection Hprobe as -> _.
  rewrite Hprobe2.
  exists (Ok final'),
    (evs2 ++ evs1 ++ evs0 ++ [Ev (LaunchContext false) None])%list.
  split; [unfold l0; now rewrite <- !app_assoc|].
  rewrite !calls_app, Hn0, Hs0, Ht0, Hn1, Hs1, Ht1, Hn2, Hs2, Ht2.
  split; [reflexivity|].
  intros final0 [= <-].
  destruct (record_all_fields new empty_result) as (_ & Ha & _).
  assert (Hadded : total_added final' = count_if counts_as_added new).
  { destruct Hfinal as [-> | [total ->]]; simpl; rewrite Ha; reflexivity. }
  rewrite Hadded. unfold calls, count_if. simpl. split; lia.
Qed.

(** X1. The items of a returned result carry the ingredients, in the order
    they were given. *)
Theorem items_follow_ingredients
        (ingredients : list string) (b : Browser) (l : log)
        (final : HEBCartResult) (l_end : log) :
  add_items_to_cart ingredients b l = (Ok final, l_end) ->
  map search_term (items final) = ingredients.
Proof.
  intros Hrun.
  destruct (add_items_to_cart_returns _ _ _ _ _ Hrun) as (new & Hmap & Hfinal).
  destruct (record_all_fields new empty_result) as (Hi & _).
  destruct Hfinal as [-> | [total ->]]; simpl; rewrite Hi; exact Hmap.
Qed.

Lemma items_follow_ingredients_witness :
  map search_term (items Stub.collected) = ["2 cups milk"].
Proof.
  apply (items_follow_ingredients ["2 cups milk"]
           (Stub.cart_page_down Stub.connection_reset) [] Stub.collected
           (Ev (Goto HEB_CART_URL 30000%N) (Some Stub.connection_reset)
              :: Stub.l_loop)).
  reflexivity.
Defined.

(** X2. The orchestrator raises exactly when the session cannot be had:
    the launch raised, or there was no page and creating one raised.  It
    then raises that exception, having made no other call. *)
Theorem run_raises_only_for_the_session
        (ingredients : list string) (b : Browser) (l : log)
        (e : exn) (l_end : log) :
  let l0 := Ev (LaunchContext false) None :: l in
  add_items_to_cart ingredients b l = (Raise e, l_end)
  <-> (raises b l (LaunchContext false) = Some e
       /\ l_end = Ev (LaunchContext false) (Some e) :: l)
      \/ (raises b l (LaunchContext false) = None
          /\ has_pages b l0 = false
          /\ raises b l0 NewPage = Some e
          /\ l_end = Ev NewPage (Some e) :: l0).
Proof.
  intros l0. unfold add_items_to_cart.
  unfold bind at 1, perform at 1.
  destruct (raises b l (LaunchContext false)) as [e0|].
  { split.
    - intros [= -> <-]. now left.
    - intros [[[= ->] ->] | [[=] _]]. reflexivity. }
  fold l0. unfold try_except, bind at 1, first_page, perform.
  assert (Hloop : forall l1,
             exists final l2,
               (result <- process_items ingredients empty_result ;;
                cart_total_probe result) b l1 = (Ok final, l2)).
  { intros l1. unfold bind.
    destruct (process_items_run ingredients empty_result b l1)
      as (new & evs & -> & _).
    destruct (cart_total_probe_run b (evs ++ l1)%list (record_all new empty_result))
      as (final & evs' & -> & _).
    now eexists _, _. }
  destruct (has_pages b l0).
  - destruct (Hloop l0) as (final & l2 & ->). split.
    + intros [=].
    + intros [[[=] _] | (_ & [=] & _)].
  - destruct (raises b l0 NewPage) as [e1|].
    + unfold raise. split.
      * intros [= -> <-]. right. auto.
      * intros [[[=] _] | (_ & _ & [= ->] & ->)]. reflexivity.
    + destruct (Hloop (Ev NewPage None :: l0)) as (final & l2 & ->). split.
      * intros [=].
      * intros [[[=] _] | (_ & _ & [=] & _)].
Qed.

Lemma run_raises_only_for_the_session_witness :
  add_items_to_cart ["2 cups milk"]
    (Stub.with_raises
       (fun _ a => match a with
                   | LaunchContext _ => Some Stub.connection_reset
                   | _ => None
                   end) Stub.shop) []
  = (Raise Stub.connection_reset,
     [Ev (LaunchContext false) (Some Stub.connection_reset)]).
Proof.
  apply (proj2 (run_raises_only_for_the_session ["2 cups milk"]
                  (Stub.with_raises
                     (fun _ a => match a with
                                 | LaunchContext _ => Some Stub.connection_reset
                                 | _ => None
                                 end) Stub.shop)
                  [] Stub.connection_reset
                  [Ev (LaunchContext false) (Some Stub.connection_reset)])).
  left. split; reflexivity.
Defined.

(** X3. The orchestrator never closes the context nor stops the driver:
    returning or raising, it leaves the session open. *)
Theorem orchestrator_leaves_session_open
        (ingredients : list string) (b : Browser) (l : log) :
  exists out evs,
    add_items_to_cart ingredients b l = (out, (evs ++ l)%list)
    /\ calls is_teardown evs = 0.
Proof.
  destruct (add_items_to_cart_calls ingredients b l)
    as (out & evs & Hrun & Htear & _).
  now exists out, evs.
Qed.

(** X4. A run that returns has navigated once per ingredient and once to
    the cart, and has slept once per ingredient and once more per item
    added: no ingredient is searched twice. *)
Theorem one_search_per_ingredient
        (ingredients : list string) (b : Browser) (l : log)
        (final : HEBCartResult) (evs : list event) :
  add_items_to_cart ingredients b l = (Ok final, (evs ++ l)%list) ->
  calls is_navigation evs = List.length ingredients + 1
  /\ calls is_sleep evs = List.length ingredients + total_added final.
Proof.
  intros Hrun.
  destruct (add_items_to_cart_calls ingredients b l)
    as (out & evs' & Hrun' & _ & Hcalls).
  rewrite Hrun in Hrun'. injection Hrun' as <- Hlog.
  apply app_inv_tail in Hlog. subst evs'.
  now apply Hcalls.
Qed.

Lemma one_search_per_ingredient_witness :
  calls is_navigation
        (Ev (Goto HEB_CART_URL 30000%N) (Some Stub.connection_reset) :: Stub.l_loop)
  = List.length ["2 cups milk"] + 1
  /\ calls is_sleep
           (Ev (Goto HEB_CART_URL 30000%N) (Some Stub.connection_reset) :: Stub.l_loop)
     = List.length ["2 cups milk"] + total_added Stub.collected.
Proof.
  apply (one_search_per_ingredient ["2 cups milk"]
           (Stub.cart_page_down Stub.connection_reset) [] Stub.collected
           (Ev (Goto HEB_CART_URL 30000%N) (Some Stub.connection_reset)
              :: Stub.l_loop)).
  reflexivity.
Defined.

(** X5. Every item [_add_single_item] returns has quantity 1; an added
    item has neither [error] nor [suggestion]; a failed item has neither
    product name nor price, and exactly one of [error] and [suggestion]. *)
Theorem item_fields_follow_outcome
        (b : Browser) (l : log) (ingredient : string)
        (item : HEBCartItem) (l' : log) :
  _add_single_item ingredient b l = (Ok item, l') ->
  quantity item = 1
  /\ (if success item
      then error item = None /\ suggestion item = None
      else product_name item = None /\ price item = None
           /\ is_set (error item) = negb (is_set (suggestion item))).
Proof.
  intros Hrun.
  destruct (add_single_item_path b l ingredient) as (item' & evs & Hrun' & Hpath).
  rewrite Hrun in Hrun'. injection Hrun' as -> _.
  destruct Hpath; simpl; auto.
Qed.

Lemma item_fields_follow_outcome_witness :
  quantity (error_item "1 gallon milk" Stub.connection_reset) = 1
  /\ (if success (error_item "1 gallon milk" Stub.connection_reset)
      then error (error_item "1 gallon milk" Stub.connection_reset) = None
           /\ suggestion (error_item "1 gallon milk" Stub.connection_reset) = None
      else product_name (error_item "1 gallon milk" Stub.connection_reset) = None
           /\ price (error_item "1 gallon milk" Stub.connection_reset) = None
           /\ is_set (error (error_item "1 gallon milk" Stub.connection_reset))
              = negb (is_set (suggestion
                                (error_item "1 gallon milk" Stub.connection_reset)))).
Proof.
  apply (item_fields_follow_outcome
           (Stub.navigation_fails Stub.connection_reset) [] "1 gallon milk"
           (error_item "1 gallon milk" Stub.connection_reset)
           [Ev (search_call "1 gallon milk") (Some Stub.connection_reset)]).
  reflexivity.
Defined.

(** X6. An item is reported as added exactly when the click on the
    add-to-cart control was made and returned: nothing after the click is
    checked, and a failure while reading the name or the price does not
    fail the item. *)
Theorem added_iff_click_returned
        (b : Browser) (l : log) (ingredient : string)
        (item : HEBCartItem) (evs : list event) :
  _add_single_item ingredient b l = (Ok item, (evs ++ l)%list) ->
  (success item = true <-> In (Ev (Click add_btn) None) evs).
Proof.
  intros Hrun.
  destruct (add_single_item_path b l ingredient) as (item' & evs' & Hrun' & Hpath).
  rewrite Hrun in Hrun'. injection Hrun' as -> Hlog.
  apply app_inv_tail in Hlog. subst evs'.
  assert (Hext : forall xs, Forall extraction_event xs ->
                            ~ In (Ev (Click add_btn) None) xs).
  { intros xs Hall Hin. rewrite Forall_forall in Hall.
    destruct (Hall _ Hin) as [H | [H | [H | H]]]; discriminate H. }
  destruct Hpath as [e _|e _ _|e _ _ _|_ _ _ _
                     |e lv xs _ _ _ _ _ Hall _|lv xs _ _ _ _ _ Hall _];
    simpl success; split; intros H; try discriminate H; try reflexivity.
  - in_cases H.
  - in_cases H.
  - in_cases H.
  - in_cases H.
  - destruct H as [H|H]; [discriminate H|].
    apply in_app_or in H. destruct H as [H|H]; [now apply Hext in H|in_cases H].
  - right. left. reflexivity.
Qed.

Lemma added_iff_click_returned_witness :
  success (added_item "2 cups milk" (Some "$3.99") (Some Stub.price_3_99)) = true
  <-> In (Ev (Click add_btn) None)
         [ Ev Sleep None; Ev (Click add_btn) None;
           Ev (TextContent price_elem) None; Ev (Count price_elem) None;
           Ev (TextContent name_elem) None; Ev (Count name_elem) None;
           Ev (Count add_btn) None; Ev wait_call None;
           Ev (search_call "2 cups milk") None ].
Proof.
  apply (added_iff_click_returned Stub.shop [] "2 cups milk").
  reflexivity.
Defined.

Example float_rounds_to_binary64 :
  Lib.float_of_decimal "3.99" = Some (S754_finite false 8984681256604140 (-51))
  /\ Lib.float_of_decimal "9007199254740993"
     = Some (S754_finite false 4503599627370496 1)
  /\ Lib.float_of_decimal "12." = Some (S754_finite false 6755399441055744 (-49))
  /\ Lib.float_of_decimal "0.0" = Some (S754_zero false)
  /\ Lib.float_of_decimal ("1" ++ repeat_string "0" 309)
     = Some (S754_infinity false)
  /\ Lib.float_of_decimal "." = None
  /\ Lib.float_of_decimal "1.2.3" = None.
Proof. vm_compute. repeat split. Qed.

(** X7. When every call of the probe returns, the total element is there
    and its text reads as the number [total], the orchestrator returns the
    collected result with [cart_total] set to [total]: the binary64
    nearest to the decimal literal that the amount pattern captured, the
    infinity when the literal is too large. *)
Theorem probe_stores_the_total_it_reads
        (ingredients : list string) (b : Browser) (l l0 l_loop : log)
        (collected : HEBCartResult) (total : Lib.float64) :
  let goto := Goto HEB_CART_URL 30000%N in
  let settle := WaitForLoadState "networkidle" 10000%N in
  let l1 := Ev goto None :: l_loop in
  let l2 := Ev settle None :: l1 in
  let l3 := Ev (Count total_element) None :: l2 in
  raises b l (LaunchContext false) = None ->
  first_page b (Ev (LaunchContext false) None :: l) = (Ok tt, l0) ->
  process_items ingredients empty_result b l0 = (Ok collected, l_loop) ->
  raises b l_loop goto = None ->
  raises b l1 settle = None ->
  raises b l2 (Count total_element) = None ->
  count_of b l2 total_element <> 0 ->
  raises b l3 (TextContent total_element) = None ->
  readable_total (text_of b l3 total_element) = Some total ->
  add_items_to_cart ingredients b l
  = (Ok (set_cart_total collected total),
     Ev (TextContent total_element) None :: l3).
Proof.
  intros goto settle l1 l2 l3 Hlaunch Hpage Hloop Hgoto Hsettle Hcount Hpos
         Htext Hread.
  unfold add_items_to_cart.
  unfold bind at 1, perform at 1. rewrite Hlaunch.
  unfold try_except at 1, bind at 1. rewrite Hpage.
  unfold bind at 1. rewrite Hloop.
  unfold cart_total_probe, cart_total_body.
  fold goto. fold settle.
  unfold try_except, bind at 1, perform at 1. rewrite Hgoto. fold l1.
  unfold bind at 1, perform at 1. rewrite Hsettle. fold l2.
  unfold bind at 1, count at 1. rewrite Hcount. fold l3.
  destruct (Nat.ltb_spec 0 (count_of b l2 total_element)) as [_|Hz]; [|lia].
  unfold bind at 1, text_content at 1. rewrite Htext.
  unfold readable_total in Hread.
  destruct (truthy (text_of b l3 total_element)); [|discriminate].
  destruct (search false amount_pattern _) as [m|]; [|discriminate].
  unfold bind, float. rewrite Hread. reflexivity.
Qed.

Lemma probe_stores_the_total_it_reads_witness :
  add_items_to_cart ["2 cups milk"] Stub.shop []
  = (Ok (set_cart_total Stub.collected Stub.price_3_99),
     Ev (TextContent total_element) None
       :: Ev (Count total_element) None
       :: Ev (WaitForLoadState "networkidle" 10000%N) None
       :: Ev (Goto HEB_CART_URL 30000%N) None
       :: Stub.l_loop).
Proof.
  apply (probe_stores_the_total_it_reads ["2 cups milk"] Stub.shop []
           [Ev (LaunchContext false) None] Stub.l_loop Stub.collected
           Stub.price_3_99);
    try reflexivity.
  discriminate.
Defined.


(* ================================================================== *)
(** * The amount pattern *)
(* ================================================================== *)

Lemma lstrip_by_length (p : ascii -> bool) (s : string) :
  String.length (Str.lstrip_by p s) <= String.length s.
Proof.
  induction s as [|c s IH]; simpl; [lia|].
  destruct (p c); simpl; lia.
Qed.

(** The characters [lstrip_by] drops all satisfy the predicate. *)
Lemma stripped_prefix_all (p : ascii -> bool) (s : string) :
  all_chars p
    (Str.take (String.length s - String.length (Str.lstrip_by p s)) s) = true.
Proof.
  induction s as [|c s IH]; [reflexivity|].
  simpl Str.lstrip_by. destruct (p c) eqn:Hc.
  - pose proof (lstrip_by_length p s) as Hlen.
    replace (String.length (String c s) - String.length (Str.lstrip_by p s))
      with (S (String.length s - String.length (Str.lstrip_by p s)))
      by (change (String.length (String c s)) with (S (String.length s)); lia).
    simpl. now rewrite Hc, IH.
  - now rewrite Nat.sub_diag.
Qed.

(** With a continuation that always succeeds, the greedy repetition stops
    after the longest run of the class. *)
Lemma star_from_greedy (p : ascii -> bool) (s : string) :
  forall st (k : cont),
    (forall st', k st' <> None) ->
    rest st = s ->
    exists before,
      star_from p s st k = k (MState before (Str.lstrip_by p s) (grp st)).
Proof.
  induction s as [|c s IH]; intros st k Hk Hrest.
  - exists (prev st). rewrite star_from_nil. destruct st. simpl in *. now subst.
  - rewrite star_from_cons. simpl Str.lstrip_by.
    destruct (p c).
    + destruct (IH (step c s st) k Hk eq_refl) as (before & Hs).
      exists before. rewrite Hs. unfold step. cbn [grp].
      destruct (k (MState before (Str.lstrip_by p s) (grp st))) eqn:Hres;
        [reflexivity|now apply Hk in Hres].
    + exists (prev st). destruct st. simpl in *. now subst.
Qed.

Lemma amount_pattern_eq :
  amount_pattern = Cat (Opt (Lit "$")) (Grp (Plus amount_char)).
Proof. reflexivity. Qed.

(** One attempt of the amount pattern on a text that starts with an amount
    character: it succeeds, and captures the run of amount characters. *)
Lemma amount_run_captured (before : option ascii) (c : ascii) (s : string)
      (g0 : option string) :
  amount_char c = true ->
  exists m,
    rmatch false (Grp (Plus amount_char)) (MState before (String c s) g0)
           (fun st => Some st) = Some m
    /\ group1 m
       = Str.take (String.length (String c s)
                   - String.length (Str.lstrip_by amount_char (String c s)))
                  (String c s).
Proof.
  intros Hc. rewrite rmatch_grp, rmatch_plus. cbn [rest]. rewrite Hc.
  destruct (star_from_greedy amount_char s
              (step c s (MState before (String c s) g0))
              (fun st' =>
                 Some (MState (prev st') (rest st')
                         (Some (Str.take (String.length (String c s)
                                          - String.length (rest st'))
                                         (String c s))))))
    as (pv & ->); [discriminate|reflexivity|].
  eexists. split; [reflexivity|].
  unfold group1. cbn [grp]. simpl Str.lstrip_by. now rewrite Hc.
Qed.

Lemma amount_match_at (before : option ascii) (s : string) (m : mstate) :
  match_at false amount_pattern before s = Some m ->
  group1 m <> EmptyString /\ all_chars amount_char (group1 m) = true.
Proof.
  unfold match_at. rewrite amount_pattern_eq, rmatch_cat, rmatch_opt, rmatch_lit.
  cbn [rest].
  assert (Hgroup : forall pv c t g0 m',
             rmatch false (Grp (Plus amount_char)) (MState pv (String c t) g0)
                    (fun st => Some st) = Some m' ->
             group1 m' <> EmptyString /\ all_chars amount_char (group1 m') = true).
  { intros pv c t g0 m' Hm.
    destruct (amount_char c) eqn:Hc.
    - destruct (amount_run_captured pv c t g0 Hc) as (m0 & Hm0 & Hg).
      rewrite Hm0 in Hm. injection Hm as <-. rewrite Hg. split.
      + simpl Str.lstrip_by. rewrite Hc.
        pose proof (lstrip_by_length amount_char t) as Hlen.
        replace (String.length (String c t)
                 - String.length (Str.lstrip_by amount_char t))
          with (S (String.length t - String.length (Str.lstrip_by amount_char t)))
          by (change (String.length (String c t)) with (S (String.length t)); lia).
        discriminate.
      + apply stripped_prefix_all.
    - rewrite rmatch_grp, rmatch_plus in Hm. cbn [rest] in Hm.
      rewrite Hc in Hm. discriminate. }
  assert (Hempty : forall pv g0,
             rmatch false (Grp (Plus amount_char)) (MState pv EmptyString g0)
                    (fun st => Some st) = None).
  { intros pv g0. now rewrite rmatch_grp, rmatch_plus. }
  destruct s as [|c s].
  - rewrite Hempty. discriminate.
  - destruct (Chr.lit_eq false "$" c).
    + unfold step. cbn [grp].
      destruct s as [|d s'].
      * rewrite Hempty. intros Hm. now apply Hgroup in Hm.
      * destruct (rmatch false (Grp (Plus amount_char))
                    (MState (Some c) (String d s') None) (fun st => Some st))
          as [r|] eqn:Hr.
        -- intros [= <-]. now apply Hgroup in Hr.
        -- intros Hm. now apply Hgroup in Hm.
    + intros Hm. now apply Hgroup in Hm.
Qed.

Lemma amount_match_at_char (before : option ascii) (c : ascii) (s : string) :
  amount_char c = true ->
  match_at false amount_pattern before (String c s) <> None.
Proof.
  intros Hc. unfold match_at.
  rewrite amount_pattern_eq, rmatch_cat, rmatch_opt, rmatch_lit. cbn [rest].
  assert (Hdollar : Chr.lit_eq false "$" c = false).
  { unfold Chr.lit_eq. destruct (Ascii.eqb_spec "$" c) as [<-|]; [|reflexivity].
    discriminate Hc. }
  rewrite Hdollar.
  destruct (amount_run_captured before c s None Hc) as (m & -> & _).
  discriminate.
Qed.

Lemma amount_match_at_none (before : option ascii) (s : string) :
  all_chars (fun c => negb (amount_char c)) s = true ->
  match_at false amount_pattern before s = None.
Proof.
  intros Hall.
  destruct (match_at false amount_pattern before s) as [m|] eqn:Hm;
    [|reflexivity].
  exfalso. revert Hm. unfold match_at.
  rewrite amount_pattern_eq, rmatch_cat, rmatch_opt, rmatch_lit. cbn [rest].
  assert (Hnone : forall pv t g0,
             all_chars (fun c => negb (amount_char c)) t = true ->
             rmatch false (Grp (Plus amount_char)) (MState pv t g0)
                    (fun st => Some st) = None).
  { intros pv t g0 Ht. rewrite rmatch_grp, rmatch_plus. cbn [rest].
    destruct t as [|c t]; [reflexivity|].
    simpl in Ht. apply andb_prop in Ht. destruct Ht as [Hc _].
    apply negb_true_iff in Hc. now rewrite Hc. }
  destruct s as [|c s].
  - now rewrite Hnone.
  - simpl in Hall. apply andb_prop in Hall. destruct Hall as [Hc Hs].
    destruct (Chr.lit_eq false "$" c).
    + unfold step. cbn [grp]. rewrite (Hnone _ s None Hs).
      rewrite Hnone; [discriminate|]. simpl. now rewrite Hc, Hs.
    + rewrite Hnone; [discriminate|]. simpl. now rewrite Hc, Hs.
Qed.

(** X8. The amount pattern finds nothing in a text exactly when the text
    has no digit and no period; what it captures is never empty and is
    made of digits and periods only. *)
Theorem amount_found_iff_digit_or_period (text : string) :
  (search false amount_pattern text = None
   <-> all_chars (fun c => negb (amount_char c)) text = true)
  /\ forall m,
      search false amount_pattern text = Some m ->
      group1 m <> EmptyString /\ all_chars amount_char (group1 m) = true.
Proof.
  unfold search. generalize (@None ascii) as before.
  induction text as [|c text IH]; intros before.
  - split.
    + split; [reflexivity|]. intros _. unfold search_from.
      now rewrite (amount_match_at_none before EmptyString eq_refl).
    + intros m Hm. unfold search_from in Hm.
      rewrite (amount_match_at_none before EmptyString eq_refl) in Hm.
      discriminate.
  - destruct (IH (Some c)) as [Hiff Hgroup].
    unfold search_from; fold search_from.
    destruct (match_at false amount_pattern before (String c text))
      as [m0|] eqn:Hm0.
    + split.
      * split; [discriminate|]. intros Hall.
        rewrite (amount_match_at_none before _ Hall) in Hm0. discriminate.
      * intros m [= <-]. now apply amount_match_at in Hm0.
    + split; [|exact Hgroup].
      rewrite Hiff. simpl.
      destruct (amount_char c) eqn:Hc.
      * exfalso. now apply (amount_match_at_char before c text Hc).
      * reflexivity.
Qed.

Lemma amount_found_iff_digit_or_period_witness :
  search false amount_pattern "Call for price" = None
  /\ exists m,
      search false amount_pattern "Total: $12.50 est." = Some m
      /\ group1 m <> EmptyString /\ all_chars amount_char (group1 m) = true.
Proof.
  split.
  - apply (proj1 (amount_found_iff_digit_or_period "Call for price")).
    reflexivity.
  - eexists. split; [reflexivity|].
    apply (proj2 (amount_found_iff_digit_or_period "Total: $12.50 est.")).
    reflexivity.
Defined.

(* ================================================================== *)
(** * The form of a cleaned ingredient *)
(* ================================================================== *)

Lemma append_length (s t : string) :
  String.length (s ++ t) = String.length s + String.length t.
Proof. induction s as [|c s IH]; simpl; [reflexivity|now rewrite IH]. Qed.

Lemma append_assoc (s t u : string) : (s ++ t) ++ u = s ++ (t ++ u).
Proof. induction s as [|c s IH]; simpl; [reflexivity|now rewrite IH]. Qed.

Lemma append_empty_r (s : string) : s ++ EmptyString = s.
Proof. induction s as [|c s IH]; simpl; [reflexivity|now rewrite IH]. Qed.

(** ** The cleaner only takes characters away *)

Lemma sub_from_length (ic : bool) (r : regex) (repl : string) (s : string) :
  String.length repl <= 1 ->
  forall before skip,
    String.length (sub_from ic r repl before s skip) <= String.length s.
Proof.
  intros Hrepl. induction s as [|c s IH]; intros before skip; [simpl; lia|].
  unfold sub_from; fold sub_from.
  destruct skip as [|n].
  - destruct (match_at ic r before (String c s)) as [st|].
    + destruct (consumed (String c s) st) as [|n].
      * simpl. specialize (IH (Some c) 0). lia.
      * rewrite append_length. specialize (IH (Some c) n). simpl. lia.
    + simpl. specialize (IH (Some c) 0). lia.
  - specialize (IH (Some c) n). simpl. lia.
Qed.

Lemma rstrip_by_length (p : ascii -> bool) (s : string) :
  String.length (Str.rstrip_by p s) <= String.length s.
Proof.
  induction s as [|c s IH]; [simpl; lia|].
  change (Str.rstrip_by p (String c s))
    with (match Str.rstrip_by p s with
          | EmptyString => if p c then EmptyString else String c EmptyString
          | String a t => String c (String a t)
          end).
  destruct (Str.rstrip_by p s) as [|a t].
  - destruct (p c); simpl; lia.
  - simpl in *. lia.
Qed.

Lemma remove_prep_words_length (words : list string) :
  forall s, String.length (remove_prep_words words s) <= String.length s.
Proof.
  unfold remove_prep_words.
  induction words as [|w words IH]; intros s; simpl; [lia|].
  specialize (IH (sub true (prep_pattern w) "" s)).
  pose proof (sub_from_length true (prep_pattern w) "" s
                ltac:(simpl; lia) None 0) as Hsub.
  unfold sub in *. lia.
Qed.

(** X9. The cleaned ingredient is never longer than the raw one. *)
Theorem clean_never_grows (ingredient : string) :
  String.length (_clean_ingredient_for_search ingredient)
  <= String.length ingredient.
Proof.
  unfold _clean_ingredient_for_search, Str.strip, sub.
  eapply Nat.le_trans; [apply rstrip_by_length|].
  eapply Nat.le_trans; [apply lstrip_by_length|].
  eapply Nat.le_trans; [apply sub_from_length; simpl; lia|].
  eapply Nat.le_trans; [apply remove_prep_words_length|].
  eapply Nat.le_trans; [apply sub_from_length; simpl; lia|].
  eapply Nat.le_trans; [apply sub_from_length; simpl; lia|].
  apply sub_from_length; simpl; lia.
Qed.

(** ** Whitespace in the cleaned ingredient *)

(** The substitution of [\s+] by one space is [collapse]. *)
Lemma whitespace_sub_collapse (s : string) :
  forall before,
    sub_from false whitespace_run " " before s
             (String.length s - String.length (Str.lstrip_by Chr.is_space s))
    = collapse true s
    /\ sub_from false whitespace_run " " before s 0 = collapse false s.
Proof.
  induction s as [|c s IH]; intros before; [split; reflexivity|].
  pose proof (lstrip_by_length Chr.is_space s) as Hlen.
  destruct (Chr.is_space c) eqn:Hc.
  - assert (Hlead : String.length (String c s)
                    - String.length (Str.lstrip_by Chr.is_space (String c s))
                    = S (String.length s
                         - String.length (Str.lstrip_by Chr.is_space s))).
    { simpl Str.lstrip_by. rewrite Hc.
      change (String.length (String c s)) with (S (String.length s)). lia. }
    destruct (IH (Some c)) as [IHrun _].
    split.
    + rewrite Hlead. simpl collapse. rewrite Hc.
      unfold sub_from; fold sub_from. exact IHrun.
    + unfold sub_from; fold sub_from.
      unfold match_at, whitespace_run. rewrite rmatch_plus. cbn [rest]. rewrite Hc.
      destruct (star_from_greedy Chr.is_space s
                  (step c s (MState before (String c s) None))
                  (fun st => Some st)) as (pv & ->);
        [discriminate|reflexivity|].
      unfold consumed. cbn [rest grp step].
      replace (String.length (String c s)
               - String.length (Str.lstrip_by Chr.is_space s))
        with (S (String.length s - String.length (Str.lstrip_by Chr.is_space s)))
        by (change (String.length (String c s)) with (S (String.length s)); lia).
      cbv beta iota. fold whitespace_run.
      rewrite IHrun. simpl collapse. now rewrite Hc.
  - assert (Hlead : String.length (String c s)
                    - String.length (Str.lstrip_by Chr.is_space (String c s)) = 0).
    { simpl Str.lstrip_by. rewrite Hc. lia. }
    destruct (IH (Some c)) as [_ IHplain].
    assert (Hplain : sub_from false whitespace_run " " before (String c s) 0
                     = collapse false (String c s)).
    { unfold sub_from; fold sub_from.
      unfold match_at, whitespace_run. rewrite rmatch_plus. cbn [rest]. rewrite Hc.
      fold whitespace_run. rewrite IHplain. simpl collapse. now rewrite Hc. }
    split; [|exact Hplain].
    rewrite Hlead, Hplain. simpl collapse. now rewrite Hc.
Qed.

Lemma collapse_true_head (s : string) :
  space_opt (Str.hd (collapse true s)) = false.
Proof.
  induction s as [|c s IH]; [reflexivity|].
  simpl. destruct (Chr.is_space c) eqn:Hc; [exact IH|]. simpl. exact Hc.
Qed.

Lemma collapse_single_spaced (s : string) :
  forall in_run, single_spaced (collapse in_run s) = true.
Proof.
  induction s as [|c s IH]; intros in_run; [reflexivity|].
  simpl collapse. destruct (Chr.is_space c) eqn:Hc.
  - destruct in_run; [apply IH|].
    change (single_spaced (String " " (collapse true s)))
      with ((if Chr.is_space " "
             then Ascii.eqb " " " "
                  && negb (match Str.hd (collapse true s) with
                           | Some d => Chr.is_space d
                           | None => false
                           end)
             else true)
            && single_spaced (collapse true s)).
    rewrite IH.
    pose proof (collapse_true_head s) as Hh. unfold space_opt in Hh.
    rewrite Hh. reflexivity.
  - change (single_spaced (String c (collapse false s)))
      with ((if Chr.is_space c
             then Ascii.eqb c " "
                  && negb (match Str.hd (collapse false s) with
                           | Some d => Chr.is_space d
                           | None => false
                           end)
             else true)
            && single_spaced (collapse false s)).
    now rewrite Hc, IH.
Qed.

Lemma single_spaced_tail (c : ascii) (s : string) :
  single_spaced (String c s) = true -> single_spaced s = true.
Proof. simpl. intros H. apply andb_prop in H. exact (proj2 H). Qed.

Lemma lstrip_by_single_spaced (p : ascii -> bool) (s : string) :
  single_spaced s = true -> single_spaced (Str.lstrip_by p s) = true.
Proof.
  induction s as [|c s IH]; intros Hs; [reflexivity|].
  simpl. destruct (p c); [|exact Hs].
  apply IH. now apply single_spaced_tail in Hs.
Qed.

Lemma rstrip_by_cons (p : ascii -> bool) (c : ascii) (s : string) :
  Str.rstrip_by p (String c s)
  = match Str.rstrip_by p s with
    | EmptyString => if p c then EmptyString else String c EmptyString
    | String a t => String c (String a t)
    end.
Proof. reflexivity. Qed.

Lemma rstrip_by_head (p : ascii -> bool) (s : string) :
  Str.rstrip_by p s <> EmptyString -> Str.hd (Str.rstrip_by p s) = Str.hd s.
Proof.
  destruct s as [|c s]; [reflexivity|].
  rewrite rstrip_by_cons.
  destruct (Str.rstrip_by p s); [destruct (p c)|]; simpl; congruence.
Qed.

Lemma single_spaced_cons (c : ascii) (s : string) :
  single_spaced (String c s)
  = (if Chr.is_space c
     then Ascii.eqb c " " && negb (space_opt (Str.hd s))
     else true)
    && single_spaced s.
Proof. reflexivity. Qed.

Lemma rstrip_by_single_spaced (p : ascii -> bool) (s : string) :
  single_spaced s = true -> single_spaced (Str.rstrip_by p s) = true.
Proof.
  induction s as [|c s IH]; intros Hs; [reflexivity|].
  rewrite single_spaced_cons in Hs. apply andb_prop in Hs.
  destruct Hs as [Hc Hs]. specialize (IH Hs).
  rewrite rstrip_by_cons.
  destruct (Str.rstrip_by p s) as [|a t] eqn:Hr.
  - destruct (p c); [reflexivity|].
    rewrite single_spaced_cons. simpl Str.hd. simpl space_opt.
    destruct (Chr.is_space c); [|reflexivity].
    apply andb_prop in Hc. now rewrite (proj1 Hc).
  - rewrite single_spaced_cons, IH.
    assert (Hhd : Str.hd (String a t) = Str.hd s).
    { rewrite <- Hr. apply rstrip_by_head. rewrite Hr. discriminate. }
    rewrite Hhd, Hc. reflexivity.
Qed.

Lemma lstrip_by_head_kept (p : ascii -> bool) (s : string) :
  match Str.hd (Str.lstrip_by p s) with Some c => p c | None => false end = false.
Proof.
  induction s as [|c s IH]; [reflexivity|].
  simpl. destruct (p c) eqn:Hc; [exact IH|]. simpl. exact Hc.
Qed.

Lemma rstrip_by_last_kept (p : ascii -> bool) (s : string) :
  match last_char (Str.rstrip_by p s) with Some c => p c | None => false end
  = false.
Proof.
  induction s as [|c s IH]; [reflexivity|].
  rewrite rstrip_by_cons.
  destruct (Str.rstrip_by p s) as [|a t].
  - destruct (p c) eqn:Hc; [reflexivity|]. simpl. exact Hc.
  - exact IH.
Qed.

Lemma strip_is_trimmed (chars s : string) :
  trimmed chars (Str.strip chars s) = true.
Proof.
  unfold trimmed, Str.strip.
  pose proof (rstrip_by_last_kept (fun c => Str.mem c chars)
                (Str.lstrip_by (fun c => Str.mem c chars) s)) as Hlast.
  pose proof (lstrip_by_head_kept (fun c => Str.mem c chars) s) as Hhead.
  pose proof (rstrip_by_head (fun c => Str.mem c chars)
                (Str.lstrip_by (fun c => Str.mem c chars) s)) as Hsame.
  cbv beta in Hlast, Hhead. rewrite Hlast.
  destruct (Str.rstrip_by _ (Str.lstrip_by _ s)) eqn:Hr; [reflexivity|].
  rewrite Hsame by discriminate. now rewrite Hhead.
Qed.

Lemma clean_trimmed (ingredient : string) :
  trimmed " ,.-" (_clean_ingredient_for_search ingredient) = true.
Proof.
  unfold _clean_ingredient_for_search. apply strip_is_trimmed.
Qed.

Lemma clean_single_spaced (ingredient : string) :
  single_spaced (_clean_ingredient_for_search ingredient) = true.
Proof.
  unfold _clean_ingredient_for_search, Str.strip, sub.
  apply rstrip_by_single_spaced, lstrip_by_single_spaced.
  rewrite (proj2 (whitespace_sub_collapse _ None)).
  apply collapse_single_spaced.
Qed.

(** X10. Whatever the input, the cleaned ingredient has no space, comma,
    period or hyphen at either end, and its only whitespace is single
    spaces between other characters. *)
Theorem clean_is_trimmed_and_single_spaced (ingredient : string) :
  trimmed " ,.-" (_clean_ingredient_for_search ingredient) = true
  /\ single_spaced (_clean_ingredient_for_search ingredient) = true.
Proof.
  split; [apply clean_trimmed | apply clean_single_spaced].
Qed.

(** ** Words of the cleaned ingredient *)

Lemma string_of_snoc (cs : list ascii) (c : ascii) (s : string) :
  string_of_list_ascii (cs ++ [c]) ++ s = string_of_list_ascii cs ++ String c s.
Proof. induction cs as [|d cs IH]; simpl; [reflexivity|now rewrite IH]. Qed.

Lemma split_go_nonempty (s : string) :
  forall cur,
    cur <> [] \/ (s <> EmptyString /\ space_opt (Str.hd s) = false) ->
    Str.split_go s cur <> [].
Proof.
  induction s as [|c s IH]; intros cur Hcur.
  - destruct Hcur as [Hcur | [Hs _]]; [|congruence].
    simpl. destruct cur; [congruence|discriminate].
  - simpl. destruct (Chr.is_space c) eqn:Hc.
    + destruct Hcur as [Hcur | [_ Hh]]; [|simpl in Hh; congruence].
      destruct cur; [congruence|discriminate].
    + apply IH. left. discriminate.
Qed.

Lemma join_cons (sep w : string) (rest : list string) :
  rest <> [] -> Str.join sep (w :: rest) = w ++ sep ++ Str.join sep rest.
Proof. destruct rest; [congruence|reflexivity]. Qed.

Lemma last_char_cons (c : ascii) (s : string) :
  s <> EmptyString -> last_char (String c s) = last_char s.
Proof. destruct s; [congruence|reflexivity]. Qed.

(** Splitting on whitespace and joining with one space gives back a text
    whose only whitespace is single spaces between words. *)
Lemma split_go_join (s : string) :
  forall cur,
    single_spaced s = true ->
    space_opt (last_char s) = false ->
    (cur = [] -> space_opt (Str.hd s) = false) ->
    Str.join " " (Str.split_go s cur) = string_of_list_ascii (rev cur) ++ s.
Proof.
  induction s as [|c s IH]; intros cur Hs Hlast Hhead.
  - simpl. rewrite append_empty_r. destruct cur; reflexivity.
  - rewrite single_spaced_cons in Hs. apply andb_prop in Hs.
    destruct Hs as [Hc Hs]. simpl Str.split_go.
    destruct (Chr.is_space c) eqn:Hsp.
    + apply andb_prop in Hc. destruct Hc as [Hc Hnext].
      apply Ascii.eqb_eq in Hc. subst c. apply negb_true_iff in Hnext.
      assert (Hcur : cur <> []).
      { intros ->. specialize (Hhead eq_refl). simpl in Hhead. congruence. }
      assert (Hne : s <> EmptyString).
      { intros ->. simpl in Hlast. congruence. }
      rewrite (last_char_cons _ _ Hne) in Hlast.
      assert (Hflush : Str.flush cur (Str.split_go s [])
                       = string_of_list_ascii (rev cur) :: Str.split_go s []).
      { destruct cur; [congruence|reflexivity]. }
      rewrite Hflush, join_cons by (apply split_go_nonempty; right; now split).
      rewrite (IH [] Hs Hlast (fun _ => Hnext)). reflexivity.
    + rewrite IH.
      * simpl rev. now rewrite string_of_snoc.
      * exact Hs.
      * destruct s as [|d s']; [reflexivity|].
        now rewrite (last_char_cons c (String d s')) in Hlast by discriminate.
      * discriminate.
Qed.

Lemma trimmed_no_space_ends (x : string) :
  trimmed " ,.-" x = true ->
  single_spaced x = true ->
  space_opt (Str.hd x) = false /\ space_opt (last_char x) = false.
Proof.
  intros Ht Hs. unfold trimmed in Ht. apply andb_prop in Ht.
  destruct Ht as [Hh Hl]. apply negb_true_iff in Hh, Hl.
  assert (Hspace : forall s c,
             single_spaced s = true -> In c (list_ascii_of_string s) ->
             Chr.is_space c = true -> c = " "%char).
  { induction s as [|d s IH]; intros c Hss Hin Hc; [destruct Hin|].
    rewrite single_spaced_cons in Hss. apply andb_prop in Hss.
    destruct Hss as [Hd Hss]. destruct Hin as [<-|Hin]; [|now apply IH].
    rewrite Hc in Hd. apply andb_prop in Hd. now apply Ascii.eqb_eq, Hd. }
  assert (Hlast_in : forall s c, last_char s = Some c ->
                                 In c (list_ascii_of_string s)).
  { induction s as [|d s IH]; intros c Hc; [discriminate|].
    destruct s as [|d' s'].
    - injection Hc as <-. now left.
    - right. apply IH. exact Hc. }
  split.
  - destruct x as [|c x]; [reflexivity|]. simpl in Hh |- *.
    destruct (Chr.is_space c) eqn:Hc; [|reflexivity].
    rewrite (Hspace (String c x) c Hs (or_introl eq_refl) Hc) in Hh.
    discriminate.
  - destruct (last_char x) as [c|] eqn:Hlc; [|reflexivity]. simpl.
    destruct (Chr.is_space c) eqn:Hc; [|reflexivity].
    rewrite (Hspace x c Hs (Hlast_in x c Hlc) Hc) in Hl. discriminate.
Qed.

Lemma split_join_of_normal (x : string) :
  trimmed " ,.-" x = true -> single_spaced x = true ->
  Str.join " " (Str.split x) = x.
Proof.
  intros Ht Hs.
  destruct (trimmed_no_space_ends _ Ht Hs) as [Hh Hl].
  unfold Str.split. now rewrite (split_go_join _ [] Hs Hl (fun _ => Hh)).
Qed.

(** X11. Splitting the cleaned ingredient into words and joining the
    words with one space gives the cleaned ingredient back. *)
Theorem clean_words_join_back (ingredient : string) :
  Str.join " " (Str.split (_clean_ingredient_for_search ingredient))
  = _clean_ingredient_for_search ingredient.
Proof.
  apply split_join_of_normal;
    [apply clean_trimmed | apply clean_single_spaced].
Qed.

Lemma join_app (sep : string) (xs ys : list string) :
  xs <> [] -> ys <> [] ->
  Str.join sep (xs ++ ys)%list = Str.join sep xs ++ sep ++ Str.join sep ys.
Proof.
  intros Hx Hy. induction xs as [|x xs IH]; [congruence|].
  destruct xs as [|x' xs'].
  - simpl app. now rewrite join_cons.
  - change ((x :: x' :: xs') ++ ys)%list with (x :: ((x' :: xs') ++ ys))%list.
    rewrite join_cons by discriminate.
    rewrite IH by discriminate.
    rewrite (join_cons sep x (x' :: xs')) by discriminate.
    now rewrite !append_assoc.
Qed.

(** X12. When the cleaned ingredient has more than two words, it ends with
    a space and the suggestion: the suggestion is the tail of the cleaned
    text, from its last word but one. *)
Theorem suggestion_is_tail_of_cleaned (ingredient : string) :
  2 < List.length (Str.split (_clean_ingredient_for_search ingredient)) ->
  exists front,
    _clean_ingredient_for_search ingredient
    = front ++ " " ++ _get_search_suggestion ingredient.
Proof.
  intros Hlen.
  destruct (suggestion_branches ingredient) as [Hlong _].
  destruct (Hlong Hlen) as (front & w1 & w2 & Hwords & Hsugg).
  rewrite Hsugg.
  exists (Str.join " " front).
  rewrite <- (split_join_of_normal _ (clean_trimmed ingredient)
                                     (clean_single_spaced ingredient)) at 1.
  rewrite Hwords.
  rewrite join_app; [reflexivity| |discriminate].
  intros ->. rewrite Hwords in Hlen. simpl in Hlen. lia.
Qed.

Lemma suggestion_is_tail_of_cleaned_witness :
  exists front,
    _clean_ingredient_for_search "2 lbs boneless chicken thighs, diced"
    = front ++ " " ++ _get_search_suggestion "2 lbs boneless chicken thighs, diced".
Proof.
  apply (suggestion_is_tail_of_cleaned "2 lbs boneless chicken thighs, diced").
  vm_compute. lia.
Defined.

(** ** Parentheses in the cleaned ingredient *)

Lemma all_chars_app (q : ascii -> bool) (s t : string) :
  all_chars q (s ++ t) = all_chars q s && all_chars q t.
Proof.
  induction s as [|c s IH]; simpl; [reflexivity|].
  now rewrite IH, andb_assoc.
Qed.

(** A substitution introduces no character that neither the subject nor
    the replacement has. *)
Lemma sub_from_all_chars (q : ascii -> bool) (ic : bool) (r : regex)
      (repl : string) (s : string) :
  all_chars q repl = true ->
  forall before skip,
    all_chars q s = true ->
    all_chars q (sub_from ic r repl before s skip) = true.
Proof.
  intros Hrepl. induction s as [|c s IH]; intros before skip Hs; [reflexivity|].
  simpl in Hs. apply andb_prop in Hs. destruct Hs as [Hc Hs].
  unfold sub_from; fold sub_from.
  destruct skip as [|n]; [|now apply IH].
  destruct (match_at ic r before (String c s)) as [st|].
  - destruct (consumed (String c s) st) as [|n].
    + simpl. now rewrite Hc, IH.
    + now rewrite all_chars_app, Hrepl, IH.
  - simpl. now rewrite Hc, IH.
Qed.

Lemma has_parenthetical_cons (c : ascii) (s : string) :
  has_parenthetical (String c s)
  = (Ascii.eqb c "(" && negb (all_chars not_close s)) || has_parenthetical s.
Proof. reflexivity. Qed.

Lemma has_parenthetical_app (t s : string) :
  all_chars not_open t = true ->
  has_parenthetical (t ++ s) = has_parenthetical s.
Proof.
  induction t as [|c t IH]; intros Ht; [reflexivity|].
  simpl in Ht. apply andb_prop in Ht. destruct Ht as [Hc Ht].
  change (String c t ++ s) with (String c (t ++ s)).
  rewrite has_parenthetical_cons, (IH Ht).
  unfold not_open in Hc. apply negb_true_iff in Hc. now rewrite Hc.
Qed.

(** A substitution whose replacement has no parenthesis creates no
    parenthetical. *)
Lemma sub_from_no_parenthetical (ic : bool) (r : regex) (repl : string)
      (s : string) :
  all_chars not_open repl = true ->
  all_chars not_close repl = true ->
  forall before skip,
    has_parenthetical s = false ->
    has_parenthetical (sub_from ic r repl before s skip) = false.
Proof.
  intros Hopen Hclose.
  induction s as [|c s IH]; intros before skip Hs; [reflexivity|].
  rewrite has_parenthetical_cons in Hs. apply orb_false_elim in Hs.
  destruct Hs as [Hc Hs].
  assert (Hcopy : forall b' , has_parenthetical
                                (String c (sub_from ic r repl b' s 0)) = false).
  { intros b'. rewrite has_parenthetical_cons, (IH _ _ Hs), orb_false_r.
    destruct (Ascii.eqb c "("); [|reflexivity]. simpl in Hc |- *.
    apply negb_false_iff in Hc.
    now rewrite (sub_from_all_chars not_close ic r repl s Hclose b' 0 Hc). }
  unfold sub_from; fold sub_from.
  destruct skip as [|n]; [|now apply IH].
  destruct (match_at ic r before (String c s)) as [st|]; [|apply Hcopy].
  destruct (consumed (String c s) st) as [|n]; [apply Hcopy|].
  rewrite (has_parenthetical_app _ _ Hopen). now apply IH.
Qed.

Lemma lstrip_by_no_parenthetical (p : ascii -> bool) (s : string) :
  has_parenthetical s = false -> has_parenthetical (Str.lstrip_by p s) = false.
Proof.
  induction s as [|c s IH]; intros Hs; [reflexivity|].
  simpl Str.lstrip_by. destruct (p c); [|exact Hs].
  apply IH. rewrite has_parenthetical_cons in Hs.
  now apply orb_false_elim in Hs.
Qed.

Lemma rstrip_by_all_chars (q p : ascii -> bool) (s : string) :
  all_chars q s = true -> all_chars q (Str.rstrip_by p s) = true.
Proof.
  induction s as [|c s IH]; intros Hs; [reflexivity|].
  simpl in Hs. apply andb_prop in Hs. destruct Hs as [Hc Hs].
  rewrite rstrip_by_cons. specialize (IH Hs).
  destruct (Str.rstrip_by p s) as [|a t].
  - destruct (p c); [reflexivity|]. simpl. now rewrite Hc.
  - simpl in IH |- *. now rewrite Hc, IH.
Qed.

Lemma rstrip_by_no_parenthetical (p : ascii -> bool) (s : string) :
  has_parenthetical s = false -> has_parenthetical (Str.rstrip_by p s) = false.
Proof.
  induction s as [|c s IH]; intros Hs; [reflexivity|].
  rewrite has_parenthetical_cons in Hs. apply orb_false_elim in Hs.
  destruct Hs as [Hc Hs]. specialize (IH Hs).
  rewrite rstrip_by_cons.
  destruct (Str.rstrip_by p s) as [|a t] eqn:Hr.
  - destruct (p c); [reflexivity|].
    rewrite has_parenthetical_cons. simpl. now rewrite andb_false_r.
  - rewrite has_parenthetical_cons, IH, orb_false_r.
    destruct (Ascii.eqb c "("); [|reflexivity].
    simpl in Hc. apply negb_false_iff in Hc.
    pose proof (rstrip_by_all_chars not_close p s Hc) as Hall.
    rewrite Hr in Hall. now rewrite Hall.
Qed.

(** An opening parenthesis with a closing one after it is matched. *)
Lemma parenthetical_found (s : string) :
  forall st,
    rest st = s ->
    all_chars not_close s = false ->
    star_from not_close s st
              (fun st' => rmatch false (Lit ")") st' (fun st'' => Some st''))
    <> None.
Proof.
  induction s as [|c s IH]; intros st Hrest Hs; [discriminate Hs|].
  rewrite star_from_cons. simpl in Hs.
  destruct (not_close c) eqn:Hc.
  - specialize (IH (step c s st) eq_refl Hs).
    destruct (star_from not_close s (step c s st) _); [discriminate|congruence].
  - rewrite rmatch_lit, Hrest. unfold Chr.lit_eq.
    unfold not_close in Hc. apply negb_false_iff in Hc.
    rewrite Ascii.eqb_sym, Hc. discriminate.
Qed.

Lemma parenthetical_sub_clears (s : string) :
  forall before skip,
    has_parenthetical (sub_from false parenthetical "" before s skip) = false.
Proof.
  induction s as [|c s IH]; intros before skip; [reflexivity|].
  unfold sub_from; fold sub_from.
  destruct skip as [|n]; [|apply IH].
  destruct (match_at false parenthetical before (String c s)) as [st|] eqn:Hm.
  - pose proof (match_not_empty false parenthetical before (String c s) st
                  eq_refl Hm) as Hpos.
    destruct (consumed (String c s) st) as [|n]; [lia|].
    simpl append. apply IH.
  - rewrite has_parenthetical_cons, IH, orb_false_r.
    destruct (Ascii.eqb_spec c "(") as [->|]; [|reflexivity]. simpl.
    destruct (all_chars not_close s) eqn:Hs.
    + now rewrite (sub_from_all_chars not_close false parenthetical "" s
                     eq_refl (Some "("%char) 0 Hs).
    + exfalso. revert Hm. unfold match_at, parenthetical.
      rewrite rmatch_cat, rmatch_lit. cbn [rest]. unfold Chr.lit_eq.
      rewrite Ascii.eqb_refl, rmatch_cat.
      change (rmatch false (Star (fun c0 => negb (Ascii.eqb c0 ")")))
                (step "(" s (MState before (String "(" s) None))
                (fun st' => rmatch false (Lit ")") st' (fun st => Some st)))
        with (star_from not_close s
                (step "(" s (MState before (String "(" s) None))
                (fun st' => rmatch false (Lit ")") st' (fun st => Some st))).
      now apply parenthetical_found.
Qed.

Lemma remove_prep_words_no_parenthetical (words : list string) :
  forall s,
    has_parenthetical s = false ->
    has_parenthetical (remove_prep_words words s) = false.
Proof.
  unfold remove_prep_words.
  induction words as [|w words IH]; intros s Hs; [exact Hs|].
  simpl. apply IH. unfold sub.
  now apply sub_from_no_parenthetical.
Qed.

(** X13. The cleaned ingredient contains no parenthetical: no opening
    parenthesis with a closing one after it. *)
Theorem clean_has_no_parenthetical (ingredient : string) :
  has_parenthetical (_clean_ingredient_for_search ingredient) = false.
Proof.
  unfold _clean_ingredient_for_search, Str.strip, sub.
  apply rstrip_by_no_parenthetical, lstrip_by_no_parenthetical.
  apply sub_from_no_parenthetical; try reflexivity.
  apply remove_prep_words_no_parenthetical.
  apply sub_from_no_parenthetical; try reflexivity.
  apply parenthetical_sub_clears.
Qed.

(* ================================================================== *)
(** * More on [check_session_status], and [open_heb_login] *)
(* ================================================================== *)

(** Membership in an explicit list of events. *)
Ltac in_events := simpl; auto 12.

Ltac session_leaf :=
  split;
  [ let H := fresh "Hin" in
    intros H; try discriminate H; repeat split; in_events
  | let H := fresh "Hlaunch" in
    intros H; in_cases H;
    (split;
     [ eexists; in_events
     | split;
       [ let r := fresh "r" in
         let Hr := fresh "Hr" in
         intros [r Hr]; in_cases Hr; in_events
       | let Hc := fresh "Hc" in
         intros Hc; in_cases Hc; eexists; in_events ] ]) ].

(** The session check, path by path: when it reports a login, and what it
    does with the browser it launched. *)
Lemma check_session_status_trace (b : Browser) (l : log) :
  (exists e l',
      session_dir_read b l = (Raise e, l')
      /\ check_session_status b l = (Raise e, l'))
  \/ exists status evs,
    check_session_status b l = (Ok status, (evs ++ l)%list)
    /\ (logged_in status = true ->
        session_exists status = true
        /\ session_dir_nonempty b = true
        /\ last_raised evs = None
        /\ message status = "You are logged in to HEB."
        /\ In (Ev CloseContext None) evs
        /\ In (Ev StopPlaywright None) evs)
    /\ (In (Ev (LaunchContext true) None) evs ->
        (exists r, In (Ev CloseContext r) evs)
        /\ ((exists r, In (Ev StopPlaywright r) evs)
            -> In (Ev CloseContext None) evs)
        /\ (In (Ev CloseContext None) evs
            -> exists r, In (Ev StopPlaywright r) evs)).
Proof.
  session_read_cases b l.
  1,3: unfold ret; close_with_events;
       (split; [discriminate|]); intros Hin; in_cases Hin.
  unfold_run. cbv beta iota.
  repeat (first [oracle_case | destruct (0 <? _)]; cbv beta iota);
    close_with_events; session_leaf.
Qed.

(** X14. The check reports a login only when the profile directory is
    non-empty, no call raised and the headless browser has been closed and
    the driver stopped; a status with [logged_in] has [session_exists]. *)
Theorem login_reported_only_after_clean_check
        (b : Browser) (l : log) (status : HEBSessionStatus) (evs : list event) :
  check_session_status b l = (Ok status, (evs ++ l)%list) ->
  logged_in status = true ->
  session_exists status = true
  /\ session_dir_nonempty b = true
  /\ last_raised evs = None
  /\ message status = "You are logged in to HEB."
  /\ In (Ev CloseContext None) evs
  /\ In (Ev StopPlaywright None) evs.
Proof.
  intros Hrun Hlogged.
  destruct (check_session_status_trace b l)
    as [(e & l' & _ & Hraise) | (status' & evs' & Hrun' & H & _)].
  { rewrite Hrun in Hraise. discriminate. }
  rewrite Hrun in Hrun'. injection Hrun' as -> Hlog.
  apply app_inv_tail in Hlog. subst evs'. now apply H.
Qed.

Lemma login_reported_only_after_clean_check_witness :
  let status := {| logged_in := true; session_exists := true;
                   message := "You are logged in to HEB." |} in
  let evs := [ Ev StopPlaywright None; Ev CloseContext None;
               Ev (Count (Locator SELECTORS.logged_in_indicator)) None;
               Ev (WaitForLoadState "networkidle" 10000%N) None;
               Ev (Goto HEB_BASE_URL 30000%N) None;
               Ev (LaunchContext true) None;
               Ev IterDir None; Ev PathExists None ] in
  session_exists status = true
  /\ session_dir_nonempty Stub.shop = true
  /\ last_raised evs = None
  /\ message status = "You are logged in to HEB."
  /\ In (Ev CloseContext None) evs
  /\ In (Ev StopPlaywright None) evs.
Proof.
  apply (login_reported_only_after_clean_check Stub.shop []); reflexivity.
Defined.

(** X15. When the check has launched the headless browser it always
    closes the context, whatever happened in between; it stops the driver
    exactly when closing the context returned. *)
Theorem session_check_closes_its_browser
        (b : Browser) (l : log) (status : HEBSessionStatus) (evs : list event) :
  check_session_status b l = (Ok status, (evs ++ l)%list) ->
  In (Ev (LaunchContext true) None) evs ->
  (exists r, In (Ev CloseContext r) evs)
  /\ ((exists r, In (Ev StopPlaywright r) evs) -> In (Ev CloseContext None) evs)
  /\ (In (Ev CloseContext None) evs -> exists r, In (Ev StopPlaywright r) evs).
Proof.
  intros Hrun Hlaunch.
  destruct (check_session_status_trace b l)
    as [(e & l' & _ & Hraise) | (status' & evs' & Hrun' & _ & H)].
  { rewrite Hrun in Hraise. discriminate. }
  rewrite Hrun in Hrun'. injection Hrun' as -> Hlog.
  apply app_inv_tail in Hlog. subst evs'. now apply H.
Qed.

Lemma session_check_closes_its_browser_witness :
  let evs := [ Ev StopPlaywright None; Ev CloseContext None;
               Ev (Goto HEB_BASE_URL 30000%N) (Some Stub.connection_reset);
               Ev (LaunchContext true) None;
               Ev IterDir None; Ev PathExists None ] in
  (exists r, In (Ev CloseContext r) evs)
  /\ ((exists r, In (Ev StopPlaywright r) evs) -> In (Ev CloseContext None) evs)
  /\ (In (Ev CloseContext None) evs -> exists r, In (Ev StopPlaywright r) evs).
Proof.
  apply (session_check_closes_its_browser
           (Stub.navigation_fails Stub.connection_reset) []
           (unverified Stub.connection_reset)).
  - reflexivity.
  - simpl. auto.
Defined.

(** [open_heb_login], path by path. *)
Lemma open_heb_login_trace (b : Browser) (l : log) :
  exists out evs,
    open_heb_login b l = (out, (evs ++ l)%list)
    /\ (forall message,
           out = Ok message ->
           message = login_instructions
           /\ calls is_teardown evs = 0
           /\ In (Ev (LaunchContext false) None) evs
           /\ In (Ev (Goto HEB_LOGIN_URL 30000%N) None) evs)
    /\ (forall e,
           out = Raise e ->
           In (Ev (LaunchContext false) None) evs ->
           (exists r, In (Ev CloseContext r) evs)
           /\ (cleanup_returned evs ->
               In (Ev StopPlaywright None) evs
               /\ exists a e0,
                   In (Ev a (Some e0)) evs
                   /\ e = Exn "RuntimeError"
                            ("Failed to open HEB login: " ++ exn_str e0)))
    /\ (forall e,
           raises b l (LaunchContext false) = Some e ->
           out = Raise e /\ evs = [Ev (LaunchContext false) (Some e)]).
Proof.
  unfold open_heb_login. unfold_run. cbv beta iota.
  repeat (oracle_case; cbv beta iota);
    (eexists _, _; split;
     [ first [ instantiate (1 := [_]); reflexivity
             | instantiate (1 := [_; _]); reflexivity
             | instantiate (1 := [_; _; _]); reflexivity
             | instantiate (1 := [_; _; _; _]); reflexivity
             | instantiate (1 := [_; _; _; _; _]); reflexivity ]
     | ]);
    (split; [|split]).
  all: lazymatch goal with
       | |- forall _ : string, _ =>
           intros ? Hout;
           first [ discriminate Hout
                 | injection Hout as <-; repeat split; in_events ]
       | |- forall _ : exn, @eq (option exn) _ _ -> _ =>
           intros ? Hl;
           first [ discriminate Hl | injection Hl as <-; split; reflexivity ]
       | |- forall _ : exn, @eq (outcome string) _ _ -> _ =>
           intros e' Hout Hlaunch;
           first [ discriminate Hout | injection Hout as <- ];
           in_cases Hlaunch;
           (split; [eexists; in_events|]);
           intros Hclean;
           first
             [ match type of Hclean with
               | context [Ev CloseContext (Some ?x)] =>
                   destruct (Hclean x) as [Hc _]; exfalso; apply Hc; in_events
               | context [Ev StopPlaywright (Some ?x)] =>
                   destruct (Hclean x) as [_ Hs]; exfalso; apply Hs; in_events
               end
             | split; [in_events|]; eexists _, _; (split; [|reflexivity]);
               simpl; eauto 12 ]
       end.
Qed.

(** X16. When [open_heb_login] returns, it returns the instructions, the
    login page has been loaded in a visible browser, and neither the
    context nor the driver has been closed: the session stays open for the
    user. *)
Theorem login_returns_with_session_open
        (b : Browser) (l : log) (message : string) (evs : list event) :
  open_heb_login b l = (Ok message, (evs ++ l)%list) ->
  message = login_instructions
  /\ calls is_teardown evs = 0
  /\ In (Ev (LaunchContext false) None) evs
  /\ In (Ev (Goto HEB_LOGIN_URL 30000%N) None) evs.
Proof.
  intros Hrun.
  destruct (open_heb_login_trace b l) as (out & evs' & Hrun' & Hok & _).
  rewrite Hrun in Hrun'. injection Hrun' as <- Hlog.
  apply app_inv_tail in Hlog. subst evs'. now apply Hok.
Qed.

Lemma login_returns_with_session_open_witness :
  let evs := [ Ev (Goto HEB_LOGIN_URL 30000%N) None;
               Ev (LaunchContext false) None ] in
  login_instructions = login_instructions
  /\ calls is_teardown evs = 0
  /\ In (Ev (LaunchContext false) None) evs
  /\ In (Ev (Goto HEB_LOGIN_URL 30000%N) None) evs.
Proof.
  apply (login_returns_with_session_open Stub.shop []). reflexivity.
Defined.

(** X17. When [open_heb_login] raises after the browser was launched, it
    has called for the context to be closed; when the cleanup calls
    returned, the driver has been stopped too and the exception is a
    [RuntimeError] whose text is ["Failed to open HEB login: "] followed
    by the text of the failure. *)
Theorem login_failure_closes_the_browser
        (b : Browser) (l : log) (e : exn) (evs : list event) :
  open_heb_login b l = (Raise e, (evs ++ l)%list) ->
  In (Ev (LaunchContext false) None) evs ->
  (exists r, In (Ev CloseContext r) evs)
  /\ (cleanup_returned evs ->
      In (Ev StopPlaywright None) evs
      /\ exists a e0,
          In (Ev a (Some e0)) evs
          /\ e = Exn "RuntimeError" ("Failed to open HEB login: " ++ exn_str e0)).
Proof.
  intros Hrun Hlaunch.
  destruct (open_heb_login_trace b l) as (out & evs' & Hrun' & _ & Hraise & _).
  rewrite Hrun in Hrun'. injection Hrun' as <- Hlog.
  apply app_inv_tail in Hlog. subst evs'. now apply Hraise.
Qed.

Lemma login_failure_closes_the_browser_witness :
  let evs := [ Ev StopPlaywright None; Ev CloseContext None;
               Ev (Goto HEB_LOGIN_URL 30000%N) (Some Stub.connection_reset);
               Ev (LaunchContext false) None ] in
  In (Ev StopPlaywright None) evs
  /\ exists a e0,
      In (Ev a (Some e0)) evs
      /\ Exn "RuntimeError"
             "Failed to open HEB login: Page.goto: net::ERR_CONNECTION_RESET"
         = Exn "RuntimeError" ("Failed to open HEB login: " ++ exn_str e0).
Proof.
  intros evs.
  apply (proj2 (login_failure_closes_the_browser
                  (Stub.navigation_fails Stub.connection_reset) []
                  (Exn "RuntimeError"
                     "Failed to open HEB login: Page.goto: net::ERR_CONNECTION_RESET")
                  evs eq_refl ltac:(simpl; auto))).
  intros e'. split; intros Hin; simpl in Hin;
    repeat (destruct Hin as [Hin|Hin]; [discriminate Hin|]); exact Hin.
Defined.

(* ================================================================== *)
(** * The tools of [server.py] *)
(* ================================================================== *)

(** X18. The login tool never raises.  It answers [success: True] with
    the instructions exactly when [open_heb_login] returned, and otherwise
    [success: False] with the text of the exception under ["error"]; when
    the launch itself raised, that text is the launch's, without the
    ["Failed to open HEB login: "] prefix. *)
Theorem login_tool_never_raises (b : Browser) (l : log) :
  exists d l',
    prepwise_heb_login b l = (Ok d, l')
    /\ ((open_heb_login b l = (Ok login_instructions, l')
         /\ d = [("success", VBool true); ("message", VStr login_instructions)])
        \/ (exists e,
               open_heb_login b l = (Raise e, l')
               /\ d = [("success", VBool false); ("error", VStr (exn_str e))]))
    /\ forall e,
        raises b l (LaunchContext false) = Some e ->
        d = [("success", VBool false); ("error", VStr (exn_str e))].
Proof.
  destruct (open_heb_login_trace b l) as (out & evs & Hrun & Hok & _ & Hlaunch).
  unfold prepwise_heb_login, try_except, bind. rewrite Hrun.
  destruct out as [message|e].
  - destruct (Hok message eq_refl) as (-> & _).
    eexists _, _. split; [reflexivity|]. split; [left; now split|].
    intros e He. destruct (Hlaunch e He) as [[=] _].
  - eexists _, _. split; [reflexivity|]. split; [right; now exists e|].
    intros e0 He. destruct (Hlaunch e0 He) as [[= ->] _]. reflexivity.
Qed.

Lemma login_tool_never_raises_witness :
  exists d l',
    prepwise_heb_login
      (Stub.with_raises
         (fun _ a => match a with
                     | LaunchContext _ => Some Stub.connection_reset
                     | _ => None
                     end) Stub.shop) [] = (Ok d, l')
    /\ d = [("success", VBool false);
            ("error", VStr "Page.goto: net::ERR_CONNECTION_RESET")].
Proof.
  destruct (login_tool_never_raises
              (Stub.with_raises
                 (fun _ a => match a with
                             | LaunchContext _ => Some Stub.connection_reset
                             | _ => None
                             end) Stub.shop) [])
    as (d & l' & Hrun & _ & Hlaunch).
  exists d, l'. split; [exact Hrun|].
  apply (Hlaunch Stub.connection_reset). reflexivity.
Defined.

(** The orchestrator raises when the session cannot be had, and returns
    when it is had: nothing that happens to an item or to the probe makes
    it raise. *)
Lemma add_items_to_cart_outcome (ingredients : list string) (b : Browser) (l : log) :
  exists out l_end,
    add_items_to_cart ingredients b l = (out, l_end)
    /\ ((exists e, out = Raise e /\ session_fails b l e /\ ~ session_opens b l)
        \/ (exists final,
               out = Ok final /\ session_opens b l
               /\ forall e, ~ session_fails b l e)).
Proof.
  unfold session_fails, session_opens, add_items_to_cart.
  unfold bind at 1, perform at 1. cbv zeta.
  destruct (raises b l (LaunchContext false)) as [e0|].
  { eexists _, _. split; [reflexivity|]. left. exists e0.
    split; [reflexivity|]. split; [now left|]. intros [[=] _]. }
  set (l0 := Ev (LaunchContext false) None :: l).
  unfold try_except, bind at 1, first_page, perform.
  assert (Hloop : forall l1,
             exists final l2,
               (result <- process_items ingredients empty_result ;;
                cart_total_probe result) b l1 = (Ok final, l2)).
  { intros l1. unfold bind.
    destruct (process_items_run ingredients empty_result b l1)
      as (new & evs & -> & _).
    destruct (cart_total_probe_run b (evs ++ l1)%list (record_all new empty_result))
      as (final & evs' & -> & _).
    now eexists _, _. }
  destruct (has_pages b l0).
  - destruct (Hloop l0) as (final & l2 & ->).
    eexists _, _. split; [reflexivity|]. right. exists final.
    split; [reflexivity|]. split; [auto|].
    intros e [[=] | (_ & [=] & _)].
  - destruct (raises b l0 NewPage) as [e1|].
    + eexists _, _. split; [reflexivity|]. left. exists e1.
      split; [reflexivity|]. split; [right; auto|].
      intros (_ & [[=] | [=]]).
    + destruct (Hloop (Ev NewPage None :: l0)) as (final & l2 & ->).
      eexists _, _. split; [reflexivity|]. right. exists final.
      split; [reflexivity|]. split; [auto|].
      intros e [[=] | (_ & _ & [=])].
Qed.

Lemma session_fails_once (b : Browser) (l : log) (e e' : exn) :
  session_fails b l e -> session_fails b l e' -> e = e'.
Proof.
  unfold session_fails.
  intros [H | (H1 & H2 & H3)] [H' | (H1' & H2' & H3')]; congruence.
Qed.

(** X19. The cart tool never raises.  It answers with the one key
    ["error"] and the text of the exception exactly when the session
    could not be had.  Once the session is had it answers, whatever
    happens to the single items and to the cart-total probe, with no
    ["error"] key and with one item per ingredient, in the order given,
    counters that add up to the number of ingredients, and the summary of
    that result. *)
Theorem cart_tool_answers_for_every_item
        (format_2f : Lib.float64 -> string) (ingredients : list string)
        (b : Browser) (l : log) :
  exists d l',
    prepwise_add_to_heb_cart format_2f ingredients b l = (Ok d, l')
    /\ (forall e, session_fails b l e -> d = [("error", VStr (exn_str e))])
    /\ (session_opens b l ->
        dict_get "error" d = None
        /\ map fst d
           = ["items"; "total_added"; "total_not_found"; "total_errors";
              "cart_total"; "cart_url"; "summary"]
        /\ exists final,
            dict_get "items" d
            = Some (VList (map (fun item => VDict (dump_item item)) (items final)))
            /\ map search_term (items final) = ingredients
            /\ dict_get "total_added" d = Some (VInt (total_added final))
            /\ dict_get "total_not_found" d = Some (VInt (total_not_found final))
            /\ dict_get "total_errors" d = Some (VInt (total_errors final))
            /\ total_added final + total_not_found final + total_errors final
               = List.length ingredients
            /\ dict_get "summary" d = Some (VStr (summary format_2f final))).
Proof.
  unfold prepwise_add_to_heb_cart, try_except, bind.
  destruct (add_items_to_cart_outcome ingredients b l)
    as (out & l_end & Hrun
        & [(e & -> & Hfails & Hclosed) | (final & -> & Hopens & Hnever)]);
    rewrite Hrun.
  - eexists _, _. split; [reflexivity|]. split.
    + intros e' Hfails'. now rewrite (session_fails_once _ _ _ _ Hfails Hfails').
    + intros Hopens. now destruct Hclosed.
  - eexists _, _. split; [reflexivity|]. split.
    + intros e Hfails. now destruct (Hnever e).
    + intros _. split; [reflexivity|]. split; [reflexivity|].
      exists final.
      destruct (add_items_to_cart_returns _ _ _ _ _ Hrun) as (new & Hmap & Hfinal).
      destruct (record_all_fields new empty_result) as (Hi & Ha & He & Hn & _ & _).
      simpl in Hi, Ha, He, Hn.
      assert (Hfields : items final = new
                        /\ total_added final = count_if counts_as_added new
                        /\ total_errors final = count_if counts_as_error new
                        /\ total_not_found final = count_if counts_as_not_found new).
      { destruct Hfinal as [-> | [total ->]]; simpl; auto. }
      destruct Hfields as (Hitems & Hadded & Herrors & Hnot).
      repeat (split; [reflexivity|]).
      split; [now rewrite Hitems|].
      repeat (split; [reflexivity|]).
      split; [|reflexivity].
      rewrite Hadded, Hnot, Herrors, classes_sum, <- Hmap. now rewrite length_map.
Qed.

Lemma cart_tool_answers_for_every_item_witness :
  exists d l',
    prepwise_add_to_heb_cart cut_2f ["1 gallon milk"]
      (Stub.navigation_fails Stub.connection_reset) [] = (Ok d, l')
    /\ dict_get "error" d = None
    /\ map fst d
       = ["items"; "total_added"; "total_not_found"; "total_errors";
          "cart_total"; "cart_url"; "summary"].
Proof.
  destruct (cart_tool_answers_for_every_item cut_2f ["1 gallon milk"]
              (Stub.navigation_fails Stub.connection_reset) [])
    as (d & l' & Hrun & _ & Hopens).
  exists d, l'. split; [exact Hrun|].
  destruct Hopens as (Herror & Hkeys & _).
  - split; [reflexivity|]. left. reflexivity.
  - now split.
Defined.

(** X20. The status tool raises exactly when the read of the profile
    directory raises, and then with that exception: the tool has no
    handler and the read is made before the [try] of the check.  When the
    tool returns, it answers with the three fields of the status, and
    never with [logged_in] true and [session_exists] false. *)
Theorem status_tool_raises_only_for_the_directory (b : Browser) (l : log) :
  (forall e l',
      prepwise_get_heb_session_status b l = (Raise e, l')
      <-> session_dir_read b l = (Raise e, l'))
  /\ (forall d l',
         prepwise_get_heb_session_status b l = (Ok d, l') ->
         map fst d = ["logged_in"; "session_exists"; "message"]
         /\ (dict_get "logged_in" d = Some (VBool true) ->
             dict_get "session_exists" d = Some (VBool true))).
Proof.
  unfold prepwise_get_heb_session_status, bind.
  destruct (check_session_status_run b l)
    as [(e0 & l0 & Hread & Hrun)
       | (l0 & Hread & _ & status & evs & Hrun & _)];
    rewrite Hrun, Hread; cbv beta iota.
  - split.
    + intros e l'. split; intros [= -> ->]; reflexivity.
    + intros d l' [=].
  - split.
    + intros e l'. split; intros [=].
    + intros d l' [= <- _]. split; [reflexivity|].
      simpl. intros [= Htrue].
      destruct (check_session_status_trace b l)
        as [(e & l1 & _ & Hraise) | (status' & evs' & Hrun' & Hlogged & _)].
      { rewrite Hrun in Hraise. discriminate. }
      rewrite Hrun in Hrun'. injection Hrun' as <- _.
      destruct (Hlogged Htrue) as (-> & _). reflexivity.
Qed.

Lemma status_tool_raises_only_for_the_directory_witness :
  prepwise_get_heb_session_status Stub.profile_is_a_file []
  = (Raise Stub.not_a_directory,
     [Ev IterDir (Some Stub.not_a_directory); Ev PathExists None]).
Proof.
  apply (proj2 (proj1 (status_tool_raises_only_for_the_directory
                         Stub.profile_is_a_file [])
                  Stub.not_a_directory
                  [Ev IterDir (Some Stub.not_a_directory); Ev PathExists None])).
  reflexivity.
Defined.

(* ================================================================== *)
(** * [HEBCartResult.summary] *)
(* ================================================================== *)

Section SummaryFacts.
Variable format_2f : Lib.float64 -> string.

Lemma added_section_listed (self : HEBCartResult) (line : string) :
  added_items self <> [] ->
  line = "Added (" ++ str_of_int (List.length (added_items self)) ++ " items):"
  \/ In line (map (added_line format_2f) (added_items self)) ->
  In line (summary_lines format_2f self).
Proof.
  intros Hne Hline. unfold summary_lines.
  destruct (added_items self) as [|a added] eqn:Ha; [congruence|].
  destruct (failed_items self) as [|f failed];
    destruct (float_truthy (cart_total self));
    repeat (rewrite in_app_iff || simpl In);
    rewrite ?in_app_iff; simpl In; simpl in Hline; intuition.
Qed.

Lemma failed_section_listed (self : HEBCartResult) (line : string) :
  failed_items self <> [] ->
  line = "Not Found (" ++ str_of_int (List.length (failed_items self))
         ++ " items):"
  \/ In line (map failed_line (failed_items self)) ->
  In line (summary_lines format_2f self).
Proof.
  intros Hne Hline. unfold summary_lines.
  destruct (failed_items self) as [|f failed] eqn:Hf; [congruence|].
  destruct (added_items self) as [|a added];
    destruct (float_truthy (cart_total self));
    repeat (rewrite in_app_iff || simpl In);
    rewrite ?in_app_iff; simpl In; simpl in Hline; intuition.
Qed.

Lemma filter_map_same {A} (p : A -> bool) (g : A -> A) (xs : list A) :
  (forall x, p (g x) = p x) ->
  filter p (map g xs) = map g (filter p xs).
Proof.
  intros Hp. induction xs as [|x xs IH]; [reflexivity|].
  simpl. rewrite Hp. destruct (p x); simpl; now rewrite IH.
Qed.

(** The lines of the summary do not read the [error] field. *)
Lemma summary_lines_ignore_error
      (self : HEBCartResult) (text : HEBCartItem -> option string) :
  summary_lines format_2f
    (with_items (map (fun item => with_error (text item) item) (items self)) self)
  = summary_lines format_2f self.
Proof.
  unfold summary_lines, added_items, failed_items. simpl.
  rewrite !filter_map_same by reflexivity.
  rewrite !length_map, !map_map.
  replace (map (fun x => added_line format_2f (with_error (text x) x))
               (filter (fun item => success item) (items self)))
    with (map (added_line format_2f)
              (filter (fun item => success item) (items self)))
    by (apply map_ext; reflexivity).
  replace (map (fun x => failed_line (with_error (text x) x))
               (filter (fun item => negb (success item)) (items self)))
    with (map failed_line
              (filter (fun item => negb (success item)) (items self)))
    by (apply map_ext; reflexivity).
  destruct (filter (fun item => success item) (items self));
    destruct (filter (fun item => negb (success item)) (items self));
    reflexivity.
Qed.

(** X21. Every item of a result has its line in the summary: an added
    item with its name (the search term when there is no product name)
    and its price if any, a failed item with its search term and its
    suggestion if any.  The [error] text of an item is never shown: the
    summary of a result is the same whatever the [error] fields of its
    items hold. *)
Theorem every_item_is_listed (self : HEBCartResult) :
  (forall item,
      In item (items self) ->
      In (if success item then added_line format_2f item else failed_line item)
         (summary_lines format_2f self))
  /\ forall text : HEBCartItem -> option string,
      summary format_2f
        (with_items (map (fun item => with_error (text item) item) (items self))
                    self)
      = summary format_2f self.
Proof.
  split.
  - intros item Hin. destruct (success item) eqn:Hs.
    + assert (Ha : In item (added_items self))
        by (apply filter_In; now split).
      apply added_section_listed.
      * intros Hnil. rewrite Hnil in Ha. destruct Ha.
      * right. now apply in_map.
    + assert (Hf : In item (failed_items self))
        by (apply filter_In; split; [exact Hin|now rewrite Hs]).
      apply failed_section_listed.
      * intros Hnil. rewrite Hnil in Hf. destruct Hf.
      * right. now apply in_map.
  - intros text. unfold summary. now rewrite summary_lines_ignore_error.
Qed.

Lemma failed_count (xs : list HEBCartItem) :
  List.length (filter (fun item => negb (success item)) xs)
  = count_if counts_as_not_found xs + count_if counts_as_error xs.
Proof.
  unfold count_if, counts_as_not_found, counts_as_error.
  induction xs as [|x xs IH]; [reflexivity|]. simpl.
  destruct (success x), (truthy (error x)); simpl; lia.
Qed.

(** X22. For a result the orchestrator returned, the summary announces
    [total_added] items under "Added" and [total_not_found + total_errors]
    items under "Not Found": the items that raised an error are listed
    with the items that were not found. *)
Theorem summary_headers_follow_counters
        (ingredients : list string) (b : Browser) (l : log)
        (final : HEBCartResult) (l_end : log) :
  add_items_to_cart ingredients b l = (Ok final, l_end) ->
  List.length (added_items final) = total_added final
  /\ List.length (failed_items final)
     = total_not_found final + total_errors final
  /\ (0 < total_added final ->
      In ("Added (" ++ str_of_int (total_added final) ++ " items):")
         (summary_lines format_2f final))
  /\ (0 < total_not_found final + total_errors final ->
      In ("Not Found ("
            ++ str_of_int (total_not_found final + total_errors final)
            ++ " items):")
         (summary_lines format_2f final)).
Proof.
  intros Hrun.
  destruct (add_items_to_cart_returns _ _ _ _ _ Hrun) as (new & _ & Hfinal).
  destruct (record_all_fields new empty_result) as (Hi & Ha & He & Hn & _ & _).
  simpl in Hi, Ha, He, Hn.
  assert (Hfields : items final = new
                    /\ total_added final = count_if counts_as_added new
                    /\ total_errors final = count_if counts_as_error new
                    /\ total_not_found final = count_if counts_as_not_found new).
  { destruct Hfinal as [-> | [total ->]]; simpl; auto. }
  destruct Hfields as (Hitems & Hadded & Herrors & Hnot).
  assert (Hla : List.length (added_items final) = total_added final).
  { unfold added_items. rewrite Hitems, Hadded. reflexivity. }
  assert (Hlf : List.length (failed_items final)
                = total_not_found final + total_errors final).
  { unfold failed_items. rewrite Hitems, Hnot, Herrors. apply failed_count. }
  repeat split; try assumption.
  - intros Hpos. apply added_section_listed.
    + intros Hnil. rewrite Hnil in Hla. simpl in Hla. lia.
    + left. now rewrite Hla.
  - intros Hpos. apply failed_section_listed.
    + intros Hnil. rewrite Hnil in Hlf. simpl in Hlf. lia.
    + left. now rewrite Hlf.
Qed.

End SummaryFacts.

Lemma every_item_is_listed_witness :
  In "  - $3.99 - $3.99" (summary_lines cut_2f Stub.collected).
Proof.
  apply (proj1 (every_item_is_listed cut_2f Stub.collected)
           (added_item "2 cups milk" (Some "$3.99") (Some Stub.price_3_99))).
  simpl. left. reflexivity.
Defined.

Lemma summary_headers_follow_counters_witness :
  In "Not Found (1 items):"
     (summary_lines cut_2f
        (record_all [error_item "1 gallon milk" Stub.silent] empty_result)).
Proof.
  apply (proj2 (proj2 (proj2
           (summary_headers_follow_counters cut_2f ["1 gallon milk"]
              (Stub.navigation_fails Stub.silent) []
              (record_all [error_item "1 gallon milk" Stub.silent] empty_result)
              [Ev (Goto HEB_CART_URL 30000%N) (Some Stub.silent);
               Ev Sleep None;
               Ev (search_call "1 gallon milk") (Some Stub.silent);
               Ev (LaunchContext false) None]
              eq_refl)))).
  vm_compute. lia.
Defined.
